(** * bucky/statsd.py: the StatsD aggregation engine

    A shallow embedding of [StatsDHandler] (src/bucky/statsd.py) and the
    properties of its parser, its aggregation state, its flush tick and its
    gauge persistence.

    Conventions of the embedding:
    - strings are byte strings, as on the Python 2 branch of the module
      ([StatsDServer.handle] passes the datagram on undecoded): [\s],
      [str.strip] and [str.splitlines] see the ASCII white space only;
    - Python floats are an interface ([PyFloat]): the theorems hold for every
      implementation of [float()], of the arithmetic, of the comparisons and
      of [list.sort], and are exercised on exact rationals;
    - dictionaries are finite maps, sets are finite sets; the order in which
      a dictionary is iterated is the order of [map_to_list];
    - an exception that leaves a method is the result [None];
    - a method is embedded as it runs from its first statement to its last
      without another thread in between; [handle_key], the sample handlers
      and [tick] are separate definitions, so that a tick between
      [handle_key] and a sample handler is the composition of the three. *)

From Stdlib Require Import ZArith QArith Qround String Ascii List Bool Lia.
From Stdlib Require Import Sorting.Sorted Sorting.Permutation.
From Stdlib Require Import Numbers.DecimalString.
From stdpp Require Import base option list gmap strings fin_maps.

Open Scope string_scope.
Open Scope list_scope.
Open Scope Z_scope.
Open Scope stdpp_scope.

(** ** Python string operations *)

Module PyStr.

(** [c in " \t\n\r\x0b\x0c"]: what [\s], [strip] and [isspace] take for
    white space in a byte string. *)
Definition isspace (c : ascii) : bool :=
  let n := N_of_ascii c in
  ((9 <=? n)%N && (n <=? 13)%N) || (n =? 32)%N.

(** [s.split(sep)] for a one-character separator: never empty. *)
Fixpoint split (sep : ascii) (s : string) : list string :=
  match s with
  | EmptyString => [EmptyString]
  | String c s' =>
      if Ascii.eqb c sep then EmptyString :: split sep s'
      else match split sep s' with
           | h :: t => String c h :: t
           | [] => [String c EmptyString]
           end
  end.

(** [sep in s] for a one-character [sep]. *)
Fixpoint contains (sep : ascii) (s : string) : bool :=
  match s with
  | EmptyString => false
  | String c s' => Ascii.eqb c sep || contains sep s'
  end.

Fixpoint lstrip (s : string) : string :=
  match s with
  | EmptyString => EmptyString
  | String c s' => if isspace c then lstrip s' else s
  end.

Fixpoint rstrip (s : string) : string :=
  match s with
  | EmptyString => EmptyString
  | String c s' =>
      match rstrip s' with
      | EmptyString => if isspace c then EmptyString else String c EmptyString
      | r => String c r
      end
  end.

(** [s.strip()] *)
Definition strip (s : string) : string := rstrip (lstrip s).

(** [s.splitlines()] on a byte string: lines end at "\n", "\r" or "\r\n";
    no empty last line after a final line end. *)
Fixpoint splitlines_from (cur : string) (s : string) : list string :=
  match s with
  | EmptyString => if String.eqb cur EmptyString then [] else [cur]
  | String c s' =>
      if Ascii.eqb c "010" then cur :: splitlines_from EmptyString s'
      else if Ascii.eqb c "013" then
        match s' with
        | String c' s'' =>
            if Ascii.eqb c' "010" then cur :: splitlines_from EmptyString s''
            else cur :: splitlines_from EmptyString s'
        | EmptyString => [cur]
        end
      else splitlines_from (cur +:+ String c EmptyString) s'
  end.

Definition splitlines (s : string) : list string :=
  splitlines_from EmptyString s.

(** [s[:1]] and [s[1:]] *)
Definition first1 (s : string) : string :=
  match s with
  | EmptyString => EmptyString
  | String c _ => String c EmptyString
  end.

Definition from1 (s : string) : string :=
  match s with
  | EmptyString => EmptyString
  | String _ s' => s'
  end.

(** Every character of [s] satisfies [p]. *)
Fixpoint all (p : ascii -> bool) (s : string) : bool :=
  match s with
  | EmptyString => true
  | String c s' => p c && all p s'
  end.

(** [l[i]] with Python's negative indices; [None] is IndexError. *)
Definition index {A} (l : list A) (i : Z) : option A :=
  let n := Z.of_nat (length l) in
  if (0 <=? i) then nth_error l (Z.to_nat i)
  else if (0 <=? n + i) then nth_error l (Z.to_nat (n + i))
  else None.

(** [str(n)] for an integer. *)
Definition str_of_Z (n : Z) : string := NilZero.string_of_int (Z.to_int n).

End PyStr.

(** ** The key sanitizer: [key_res] and the loop of [handle_key] *)

(** [re.compile("\s+")] with replacement "_": [in_run] tells that the
    previous character belonged to the run being replaced. *)
Fixpoint sub_spaces (in_run : bool) (s : string) : string :=
  match s with
  | EmptyString => EmptyString
  | String c s' =>
      if PyStr.isspace c then
        if in_run then sub_spaces true s' else String "_" (sub_spaces true s')
      else String c (sub_spaces false s')
  end.

(** [re.compile("\/")] with replacement "-". *)
Fixpoint sub_slash (s : string) : string :=
  match s with
  | EmptyString => EmptyString
  | String c s' =>
      String (if Ascii.eqb c "/" then "-"%char else c) (sub_slash s')
  end.

(** The class [a-zA-Z_\-0-9\.]. *)
Definition key_char (c : ascii) : bool :=
  let n := N_of_ascii c in
  ((97 <=? n)%N && (n <=? 122)%N) || ((65 <=? n)%N && (n <=? 90)%N)
  || (n =? 95)%N || (n =? 45)%N || ((48 <=? n)%N && (n <=? 57)%N)
  || (n =? 46)%N.

(** [re.compile("[^a-zA-Z_\-0-9\.]")] with replacement "". *)
Fixpoint sub_other (s : string) : string :=
  match s with
  | EmptyString => EmptyString
  | String c s' =>
      if key_char c then String c (sub_other s') else sub_other s'
  end.

(** [for (rexp, repl) in self.key_res: key = rexp.sub(repl, key)] *)
Definition sanitize (key : string) : string :=
  sub_other (sub_slash (sub_spaces false key)).


(** ** Python floats *)

(** The operations of Python's [float] that the handler uses. [fdiv] is
    the quotient for a divisor that is not zero; [truediv] below adds the
    ZeroDivisionError. [None] stands for the exception of the operation.

    [float_of_Z n] is [float(n)] for an integer that a float can hold;
    [float_fits n] tells whether it can: an integer beyond the largest
    float raises OverflowError when it is converted ([float_of_int]
    below).

    [fsort] is [list.sort] on a list of floats, of which two things are
    taken: it rearranges the list, and it leaves a list without NaN in
    ascending order. What it does to a list with a NaN, which compares
    false with everything, is left open. *)
Class PyFloat := {
  float : Type;
  float_of_string : string -> option float;  (* float(s), ValueError *)
  float_of_Z : Z -> float;                   (* float(n), n within range *)
  float_fits : Z -> bool;                    (* float(n) does not overflow *)
  fadd : float -> float -> float;
  fsub : float -> float -> float;
  fmul : float -> float -> float;
  fdiv : float -> float -> float;
  fpow : float -> Z -> option float;         (* x ** n, OverflowError *)
  fzero : float -> bool;                     (* x == 0 *)
  fsqrt : float -> option float;             (* math.sqrt(x), ValueError *)
  ffloor : float -> option Z;                (* int(math.floor(x)) *)
  ftrunc : float -> option Z;                (* int(x) *)
  fltb : float -> float -> bool;             (* x < y *)
  fnan : float -> bool;                      (* x != x *)
  fsort : list float -> list float;          (* v.sort() *)
  float_of_Z_nonzero : forall n, n <> 0 -> fzero (float_of_Z n) = false;
  float_fits_zero : float_fits 0 = true;
  fsort_perm : forall v, Permutation v (fsort v);
  fsort_sorted :
    forall v, Forall (fun x => fnan x = false) v ->
    Sorted (fun x y => fltb y x = false) (fsort v)
}.

(** Tags and metadata: a dictionary from tag names to a string or [None]. *)
Abbreviation meta := (gmap string (option string)).

(** The five dictionaries of the handler. *)
Inductive table := Timers | Gauges | Counters | Sets | KeysSeen.

(** One mutation of a dictionary: which one, under which key ([None] when
    the dictionary is updated or replaced as a whole), and whether
    [self.lock] was held. *)
Record mutation := Mutation {
  m_table : table;
  m_key : option string;
  m_locked : bool
}.

(** ** The data of the handler, over the type [R] of the floats *)

Section Data.

Context {R : Type}.

(** A value put on the queue: an integer or a float. *)
Inductive stat_of := SInt (n : Z) | SFloat (x : R).

(** The tuple [(None, name, stat, stime)] or [(None, name, stat, stime,
    metadata)] put on the queue. *)
Record point_of := Point {
  p_name : string;
  p_stat : stat_of;
  p_stime : Z;
  p_meta : option meta
}.

(** [cfg]: the options that [StatsDHandler.__init__] reads. *)
Record config_of := Config {
  statsd_flush_time : R;
  statsd_legacy_namespace : bool;
  statsd_global_prefix : string;
  statsd_prefix_counter : string;
  statsd_prefix_timer : string;
  statsd_prefix_gauge : string;
  statsd_prefix_set : string;
  statsd_metadata : option meta;
  statsd_persistent_gauges : bool;
  statsd_percentile_thresholds : list R;
  statsd_delete_idlestats : bool;
  statsd_delete_counters : bool;
  statsd_delete_timers : bool;
  statsd_delete_sets : bool;
  statsd_onlychanged_gauges : bool;
  statsd_timer_mean : bool;
  statsd_timer_upper : bool;
  statsd_timer_lower : bool;
  statsd_timer_count : bool;
  statsd_timer_count_ps : bool;
  statsd_timer_sum : bool;
  statsd_timer_sum_squares : bool;
  statsd_timer_median : bool;
  statsd_timer_std : bool
}.

(** The attributes of a [StatsDHandler] that change, with the queue as the
    list of the tuples put so far, the log as the list of its messages, and
    [mutations] as the history of the writes to the five dictionaries. *)
Record handler_of := Handler {
  timers : gmap string (list R);
  gauges : gmap string R;
  counters : gmap string Z;
  sets : gmap string (gset string);
  keys_seen : gmap string (option meta);
  queue : list point_of;
  line : string;
  log : list string;
  lock : bool;
  mutations : list mutation
}.

(** The JSON document of the gauges file: per name the pair of the value
    and the metadata, which [json] writes as an array of two elements. *)
Definition saved_of : Type := gmap string (R * option meta).

(** The file system as the handler sees it: the document in the gauges
    file, if the file exists, and whether opening it raises IOError. *)
Record files_of := Files {
  gauges_file : option saved_of;
  io_error : bool
}.

End Data.

Abbreviation stat := (@stat_of float).
Abbreviation point := (@point_of float).
Abbreviation config := (@config_of float).
Abbreviation handler := (@handler_of float).
Abbreviation saved := (@saved_of float).
Abbreviation files := (@files_of float).

Section Handler.

Context {F : PyFloat}.

(** [x / y] *)
Definition truediv (x y : float) : option float :=
  if fzero y then None else Some (fdiv x y).

(** [float(n)] for an integer of any size, as the division of a counter
    by the flush time converts it. *)
Definition float_of_int (n : Z) : option float :=
  if float_fits n then Some (float_of_Z n) else None.

(** The loop that fills [cumulative_values] (with [f] the identity) and
    [cumul_sum_squares_values] (with [f] the square): every further
    element is [f value + previous]. *)
Fixpoint cumulative (f : float -> float) (prev : float) (rest : list float)
  : list float :=
  match rest with
  | [] => []
  | value :: r =>
      let c := fadd (f value) prev in c :: cumulative f c r
  end.

(** [cumulative_values] and [cumul_sum_squares_values] for the sorted
    samples [v]: the first element is [f vmin]. *)
Definition cumulative_sums (f : float -> float) (v : list float)
  : list float :=
  match v with
  | [] => []
  | vmin :: rest => f vmin :: cumulative f (f vmin) rest
  end.

(** The sum of a list as that loop adds it up: [l[i] + (... + l[0])]. *)
Definition total (f : float -> float) (l : list float) : float :=
  match l with
  | [] => float_of_Z 0
  | x :: r => fold_left (fun acc value => fadd (f value) acc) r (f x)
  end.

Definition init : handler :=
  Handler ∅ ∅ ∅ ∅ ∅ [] EmptyString [] false [].

Definition mutated (t : table) (k : option string) (s : handler)
  : list mutation :=
  mutations s ++ [Mutation t k (lock s)].

Definition set_timers (k : option string) (m : gmap string (list float))
  (s : handler) : handler :=
  Handler m (gauges s) (counters s) (sets s) (keys_seen s) (queue s)
    (line s) (log s) (lock s) (mutated Timers k s).

Definition set_gauges (k : option string) (m : gmap string float)
  (s : handler) : handler :=
  Handler (timers s) m (counters s) (sets s) (keys_seen s) (queue s)
    (line s) (log s) (lock s) (mutated Gauges k s).

Definition set_counters (k : option string) (m : gmap string Z)
  (s : handler) : handler :=
  Handler (timers s) (gauges s) m (sets s) (keys_seen s) (queue s)
    (line s) (log s) (lock s) (mutated Counters k s).

Definition set_sets (k : option string) (m : gmap string (gset string))
  (s : handler) : handler :=
  Handler (timers s) (gauges s) (counters s) m (keys_seen s) (queue s)
    (line s) (log s) (lock s) (mutated Sets k s).

Definition set_keys_seen (k : option string)
  (m : gmap string (option meta)) (s : handler) : handler :=
  Handler (timers s) (gauges s) (counters s) (sets s) m (queue s)
    (line s) (log s) (lock s) (mutated KeysSeen k s).

Definition set_line (l : string) (s : handler) : handler :=
  Handler (timers s) (gauges s) (counters s) (sets s) (keys_seen s)
    (queue s) l (log s) (lock s) (mutations s).

Definition set_lock (b : bool) (s : handler) : handler :=
  Handler (timers s) (gauges s) (counters s) (sets s) (keys_seen s)
    (queue s) (line s) (log s) b (mutations s).

(** [self.queue.put(p)] *)
Definition put (p : point) (s : handler) : handler :=
  Handler (timers s) (gauges s) (counters s) (sets s) (keys_seen s)
    (queue s ++ [p]) (line s) (log s) (lock s) (mutations s).

Definition log_message (msg : string) (s : handler) : handler :=
  Handler (timers s) (gauges s) (counters s) (sets s) (keys_seen s)
    (queue s) (line s) (log s ++ [msg]) (lock s) (mutations s).

(** The handler [s] with another [keys_seen] and with another queue; the
    proofs compare states with them. *)
Definition with_keys_seen (m : gmap string (option meta)) (s : handler)
  : handler :=
  Handler (timers s) (gauges s) (counters s) (sets s) m (queue s)
    (line s) (log s) (lock s) (mutations s).

Definition with_queue (q : list point) (s : handler) : handler :=
  Handler (timers s) (gauges s) (counters s) (sets s) (keys_seen s) q
    (line s) (log s) (lock s) (mutations s).

(** [with self.lock: body] for a body that raises nothing. *)
Definition with_lock (body : handler -> handler) (s : handler) : handler :=
  set_lock false (body (set_lock true s)).

(** [if metadata:] a dictionary that is [None] or empty counts as false. *)
Definition truthy (md : option meta) : option meta :=
  match md with
  | Some m => if decide (m = ∅) then None else Some m
  | None => None
  end.

Variable cfg : config.

(** *** The attributes that [__init__] derives from [cfg] *)

Definition make_name (parts : list string) : string :=
  fold_left
    (fun name part =>
       if String.eqb part EmptyString then name else name +:+ part +:+ ".")
    parts EmptyString.

Definition name_global : string :=
  if statsd_legacy_namespace cfg then "stats."
  else make_name [statsd_global_prefix cfg].

Definition name_legacy_rate : string := "stats.".
Definition name_legacy_count : string := "stats_counts.".

Definition name_counter : string :=
  make_name [statsd_global_prefix cfg; statsd_prefix_counter cfg].

Definition name_timer : string :=
  if statsd_legacy_namespace cfg then "stats.timers."
  else make_name [statsd_global_prefix cfg; statsd_prefix_timer cfg].

Definition name_gauge : string :=
  if statsd_legacy_namespace cfg then "stats.gauges."
  else make_name [statsd_global_prefix cfg; statsd_prefix_gauge cfg].

Definition name_set : string :=
  if statsd_legacy_namespace cfg then "stats.sets."
  else make_name [statsd_global_prefix cfg; statsd_prefix_set cfg].

Definition delete_counters : bool :=
  statsd_delete_idlestats cfg && statsd_delete_counters cfg.
Definition delete_timers : bool :=
  statsd_delete_idlestats cfg && statsd_delete_timers cfg.
Definition delete_sets : bool :=
  statsd_delete_idlestats cfg && statsd_delete_sets cfg.
Definition onlychanged_gauges : bool :=
  statsd_delete_idlestats cfg && statsd_onlychanged_gauges cfg.

(** *** The parser *)

(** [bad_line] *)
Definition bad_line (s : handler) : handler :=
  log_message ("StatsD: Invalid line: '" +:+ PyStr.strip (line s) +:+ "'") s.

(** One turn of the loop of [handle_tags]: the key and the value that the
    element [i] adds to [tags]. *)
Definition tag_entry (i : string) : string * option string :=
  match PyStr.split "=" i with
  | k :: v :: _ => (k, Some v)
  | _ =>
      match PyStr.split ":" i with
      | k :: v :: _ => (k, Some v)
      | k :: _ => (k, None)
      | [] => (i, None)
      end
  end.

(** The loop of [handle_tags] over [bits[1].split(",")]. *)
Definition parse_tags (b1 : string) : meta :=
  fold_left
    (fun tags i => let '(k, v) := tag_entry i in <[k := v]> tags)
    (PyStr.split "," b1) ∅.

Definition handle_tags (line : string) : string * option meta :=
  match PyStr.split "#" line with
  | b0 :: b1 :: _ => (b0, Some (parse_tags b1))
  | _ => (line, None)
  end.

(** The tags that [handle_key] stores: [self.metadata] overwrites the tags
    of the line. *)
Definition coalesce (tags : option meta) : option meta :=
  match tags with
  | None => statsd_metadata cfg
  | Some t =>
      match truthy (statsd_metadata cfg) with
      | Some m => Some (m ∪ t)
      | None => Some t
      end
  end.

Definition handle_key (key : string) (tags : option meta) (s : handler)
  : string * handler :=
  let coalesced_tags := coalesce tags in
  let key := sanitize key in
  (key, set_keys_seen (Some key) (<[key := coalesced_tags]> (keys_seen s)) s).

(** [fields[i]] for an index within the list. *)
Definition field (fields : list string) (i : nat) : string :=
  nth i fields EmptyString.

(** [float(fields[0] or 0)] *)
Definition float_or_0 (f0 : string) : option float :=
  if String.eqb f0 EmptyString then Some (float_of_Z 0)
  else float_of_string f0.

(** [fields[0] or "0"] *)
Definition str_or_0 (f0 : string) : string :=
  if String.eqb f0 EmptyString then "0" else f0.

Definition handle_timer (key : string) (fields : list string) (s : handler)
  : handler :=
  match float_or_0 (field fields 0) with
  | Some val =>
      with_lock
        (fun s =>
           set_timers (Some key)
             (<[key := default [] (timers s !! key) ++ [val]]> (timers s)) s)
        s
  | None => bad_line s
  end.

(** [valstr[0] in ["+", "-"]] *)
Definition signed (valstr : string) : bool :=
  match valstr with
  | String c _ => Ascii.eqb c "+" || Ascii.eqb c "-"
  | EmptyString => false
  end.

Definition handle_gauge (key : string) (fields : list string) (s : handler)
  : handler :=
  let valstr := str_or_0 (field fields 0) in
  match float_of_string valstr with
  | None => bad_line s
  | Some val =>
      let delta := signed valstr in
      with_lock
        (fun s =>
           match gauges s !! key with
           | Some g =>
               if delta then
                 set_gauges (Some key) (<[key := fadd g val]> (gauges s)) s
               else set_gauges (Some key) (<[key := val]> (gauges s)) s
           | None => set_gauges (Some key) (<[key := val]> (gauges s)) s
           end)
        s
  end.

Definition handle_set (key : string) (fields : list string) (s : handler)
  : handler :=
  let valstr := str_or_0 (field fields 0) in
  with_lock
    (fun s =>
       let s :=
         match sets s !! key with
         | None => set_sets (Some key) (<[key := ∅]> (sets s)) s
         | Some _ => s
         end in
       set_sets (Some key)
         (<[key := default ∅ (sets s !! key) ∪ {[valstr]}]> (sets s)) s)
    s.

(** The sampling rate of [handle_counter]. *)
Definition counter_rate (fields : list string) : float :=
  if (2 <? length fields)%nat
     && String.eqb (PyStr.first1 (field fields 2)) "@"
  then
    match float_of_string (PyStr.strip (PyStr.from1 (field fields 2))) with
    | Some rate => rate
    | None => float_of_Z 1
    end
  else float_of_Z 1.

(** [int(float(fields[0] or 0) / rate)] *)
Definition counter_value (fields : list string) : option Z :=
  x ← float_or_0 (field fields 0);
  q ← truediv x (counter_rate fields);
  ftrunc q.

Definition handle_counter (key : string) (fields : list string) (s : handler)
  : handler :=
  match counter_value fields with
  | None => bad_line s
  | Some val =>
      with_lock
        (fun s =>
           let s :=
             match counters s !! key with
             | None => set_counters (Some key) (<[key := 0]> (counters s)) s
             | Some _ => s
             end in
           set_counters (Some key)
             (<[key := default 0 (counters s !! key) + val]> (counters s)) s)
        s
  end.

(** The body of the loop of [handle_line]. *)
Definition handle_sample (key : string) (sample : string) (s : handler)
  : handler :=
  if negb (PyStr.contains "|" sample) then bad_line s
  else
    let fields := PyStr.split "|" sample in
    let kind := field fields 1 in
    if String.eqb kind "ms" then handle_timer key fields s
    else if String.eqb kind "g" then handle_gauge key fields s
    else if String.eqb kind "s" then handle_set key fields s
    else handle_counter key fields s.

Definition handle_line (line : string) (s : handler) : handler :=
  let '(line, tags) := handle_tags line in
  match PyStr.split ":" line with
  | [] => s
  | b0 :: bits =>
      let '(key, s) := handle_key b0 tags s in
      match bits with
      | [] => bad_line s
      | _ => fold_left (fun s sample => handle_sample key sample s) bits s
      end
  end.

(** What [handle_line] does behind [handle_tags]. *)
Definition handle_tagged (line : string) (tags : option meta) (s : handler)
  : handler :=
  match PyStr.split ":" line with
  | [] => s
  | b0 :: bits =>
      let '(key, s) := handle_key b0 tags s in
      match bits with
      | [] => bad_line s
      | _ => fold_left (fun s sample => handle_sample key sample s) bits s
      end
  end.

Definition handle (data : string) (s : handler) : handler :=
  fold_left
    (fun s line =>
       let s := set_line line s in
       if String.eqb (PyStr.strip line) EmptyString then s
       else handle_line line s)
    (PyStr.splitlines data) s.

(** *** The flush tick *)

(** Code that reads and writes the handler and may raise. *)
Definition M (A : Type) : Type := handler -> option (A * handler).

Definition pure {A} (a : A) : M A := fun s => Some (a, s).

Definition bind {A B} (m : M A) (k : A -> M B) : M B :=
  fun s =>
    match m s with
    | Some (a, s') => k a s'
    | None => None
    end.

Notation "'let*' x ':=' m 'in' k" := (bind m (fun x => k))
  (at level 10, x pattern, m at level 100, k at level 200).
Notation "m ';;;' k" := (bind m (fun _ => k))
  (at level 100, k at level 200, right associativity).

Definition get : M handler := fun s => Some (s, s).

Definition modify (f : handler -> handler) : M unit :=
  fun s => Some (tt, f s).

(** A value that is there, or the exception. *)
Definition try {A} (o : option A) : M A :=
  fun s => match o with Some a => Some (a, s) | None => None end.

(** [if flag: body] *)
Definition when (flag : bool) (body : M unit) : M unit :=
  if flag then body else pure tt.

(** [for x in l: acc = body(acc, x)] *)
Fixpoint for_each {A B} (l : list A) (acc : B) (body : B -> A -> M B)
  : M B :=
  match l with
  | [] => pure acc
  | x :: l' => let* acc := body acc x in for_each l' acc body
  end.

(** [self.timers[k] = []], [self.counters[k] = 0], [self.sets[k] = set()]
    and [del self.timers[k]], [del self.counters[k]], [del self.sets[k]]. *)
Definition reset_timer (k : string) (s : handler) : handler :=
  set_timers (Some k) (<[k := []]> (timers s)) s.

Definition reset_counter (k : string) (s : handler) : handler :=
  set_counters (Some k) (<[k := 0]> (counters s)) s.

Definition reset_set (k : string) (s : handler) : handler :=
  set_sets (Some k) (<[k := ∅]> (sets s)) s.

Definition del_timer (k : string) (s : handler) : handler :=
  set_timers (Some k) (delete k (timers s)) s.

Definition del_counter (k : string) (s : handler) : handler :=
  set_counters (Some k) (delete k (counters s)) s.

Definition del_set (k : string) (s : handler) : handler :=
  set_sets (Some k) (delete k (sets s)) s.

(** The metadata that [enqueue] looks up: an empty [metadata_key] counts
    as none. *)
Definition metadata_of (metadata_key : option string) (s : handler)
  : option meta :=
  match metadata_key with
  | Some k =>
      if String.eqb k EmptyString then statsd_metadata cfg
      else default None (keys_seen s !! k)
  | None => statsd_metadata cfg
  end.

Definition enqueue (name : string) (value : stat) (stime : Z)
  (metadata_key : option string) : M unit :=
  modify
    (fun s =>
       let metadata := metadata_of metadata_key s in
       put (Point name value stime (truthy metadata)) s).

(** The tuple that [enqueue_timers] puts for the key [k] of the state [s]
    under the name [<name_timer><k><suffix>]. *)
Definition timer_point (stime : Z) (k : string) (s : handler)
  (suffix : string) (value : stat) : point :=
  Point (name_timer +:+ k +:+ suffix) value stime
    (truthy (metadata_of (Some k) s)).

(** [x] if its enable flag is set. *)
Definition gate {A} (flag : bool) (x : A) : list A :=
  if flag then [x] else [].

(** The tuples that one turn of the loop over the thresholds puts for a
    threshold whose index [thresh_idx] is not zero: [t] is
    [int(pct_thresh)]; [vsum], [vthresh] and [vsum_squares] are what the
    turn reads from [cumulative_values], [v] and
    [cumul_sum_squares_values]. *)
Definition threshold_points (stime : Z) (s : handler) (k : string)
  (t thresh_idx : Z) (vsum vthresh vsum_squares : float) : list point :=
  let pt suffix value :=
    timer_point stime k s (suffix +:+ PyStr.str_of_Z t) value in
  gate (statsd_timer_mean cfg)
    (pt ".mean_" (SFloat (fdiv vsum (float_of_Z thresh_idx))))
  ++ gate (statsd_timer_upper cfg) (pt ".upper_" (SFloat vthresh))
  ++ gate (statsd_timer_count cfg) (pt ".count_" (SInt thresh_idx))
  ++ gate (statsd_timer_sum cfg) (pt ".sum_" (SFloat vsum))
  ++ gate (statsd_timer_sum_squares cfg)
       (pt ".sum_squares_" (SFloat vsum_squares)).

(** A write that a sample handler makes: to a dictionary of samples, under
    the key of the line, with the lock held. *)
Definition sample_write (key : string) (m : mutation) : Prop :=
  m_key m = Some key /\ m_locked m = true /\ m_table m <> KeysSeen.


(** The non-empty parts, each followed by a dot. *)
Definition dotted (parts : list string) : string :=
  fold_right
    (fun part rest =>
       if String.eqb part EmptyString then rest else part +:+ "." +:+ rest)
    EmptyString parts.

(** [a] has no line end. *)
Definition no_line_end (a : string) : bool :=
  PyStr.all (fun c => negb (Ascii.eqb c "010" || Ascii.eqb c "013")) a.

(** Two handlers with the same five dictionaries. *)
Definition same_maps (a b : handler) : Prop :=
  timers a = timers b /\ gauges a = gauges b /\ counters a = counters b
  /\ sets a = sets b /\ keys_seen a = keys_seen b.

(** The two tuples that [enqueue_counters] puts for the counter [v] of
    the key [k], with the metadata of the state [s]. *)
Definition counter_points (stime : Z) (s : handler) (kv : string * Z)
  : list point :=
  let '(k, v) := kv in
  let md := truthy (metadata_of (Some k) s) in
  [Point
     (if statsd_legacy_namespace cfg then name_legacy_rate +:+ k
      else name_counter +:+ k +:+ ".rate")
     (SFloat (fdiv (float_of_Z v) (statsd_flush_time cfg))) stime md;
   Point
     (if statsd_legacy_namespace cfg then name_legacy_count +:+ k
      else name_counter +:+ k +:+ ".count")
     (SInt v) stime md].

(** The tuple that [enqueue_sets] puts for the set [v] of the key [k]. *)
Definition set_points (stime : Z) (s : handler) (kv : string * gset string)
  : list point :=
  let '(k, v) := kv in
  [Point (name_set +:+ k +:+ ".count") (SInt (Z.of_nat (size v))) stime
     (truthy (metadata_of (Some k) s))].

(** Whether [enqueue_gauges] reports the gauge of the key [k], and the
    tuple that it puts then. *)
Definition gauge_reported (s : handler) (k : string) : bool :=
  negb onlychanged_gauges || bool_decide (k ∈ dom (keys_seen s)).

Definition gauge_points (stime : Z) (s : handler) (kv : string * float)
  : list point :=
  let '(k, v) := kv in
  if gauge_reported s k then
    [Point (name_gauge +:+ k) (SFloat v) stime
       (truthy (metadata_of (Some k) s))]
  else [].

(** The two tuples that [enqueue_timers] puts for a key [k] without
    samples. *)
Definition idle_timer_points (stime : Z) (s : handler)
  (kv : string * list float) : list point :=
  [timer_point stime kv.1 s ".count" (SInt 0);
   timer_point stime kv.1 s ".count_ps" (SFloat (float_of_Z 0))].

(** The tuple with which [tick] ends. *)
Definition num_stats_point (stime : Z) (n : Z) : point :=
  Point (name_global +:+ "numStats") (SInt n) stime
    (truthy (statsd_metadata cfg)).

(** A write with the lock held. *)
Definition locked_write (m : mutation) : Prop := m_locked m = true.

(** From [s] to [s'] the lock stays held and every write is made with
    it. *)
Definition locked_run (s s' : handler) : Prop :=
  lock s' = true
  /\ exists ms, mutations s' = mutations s ++ ms /\ Forall locked_write ms.

(** The names of the tuples [ps]. *)
Definition names_are (ns : list string) (ps : list point) : Prop :=
  map p_name ps = ns.

(** The names under which a threshold of the key [k] is reported. *)
Definition threshold_name (k : string) (n : string) : Prop :=
  exists suffix t,
    n = name_timer +:+ k +:+ suffix +:+ PyStr.str_of_Z t
    /\ In suffix [".mean_"; ".upper_"; ".count_"; ".sum_"; ".sum_squares_"].

(** The names under which the statistics of all the samples of the key
    [k] are reported. *)
Definition totals_names (k : string) : list string :=
  gate (statsd_timer_mean cfg) (name_timer +:+ k +:+ ".mean")
  ++ gate (statsd_timer_upper cfg) (name_timer +:+ k +:+ ".upper")
  ++ gate (statsd_timer_lower cfg) (name_timer +:+ k +:+ ".lower")
  ++ gate (statsd_timer_count cfg) (name_timer +:+ k +:+ ".count")
  ++ gate (statsd_timer_count_ps cfg) (name_timer +:+ k +:+ ".count_ps")
  ++ gate (statsd_timer_median cfg) (name_timer +:+ k +:+ ".median")
  ++ gate (statsd_timer_sum cfg) (name_timer +:+ k +:+ ".sum")
  ++ gate (statsd_timer_sum_squares cfg) (name_timer +:+ k +:+ ".sum_squares")
  ++ gate (statsd_timer_std cfg) (name_timer +:+ k +:+ ".std").

(** The keys that have an entry in one of the four dictionaries of
    samples. *)
Definition live (s : handler) : gset string :=
  dom (timers s) ∪ dom (counters s) ∪ dom (gauges s) ∪ dom (sets s).

(** The idle reap of one dictionary [m] in the state [s]. *)
Definition reaped {V} (flag : bool) (m : gmap string V) (s : handler)
  : gmap string V :=
  if flag then filter (fun kv => kv.1 ∈ dom (keys_seen s)) m else m.

(** What no phase of a tick before the last one touches. *)
Definition core (s : handler) :=
  (gauges s, keys_seen s, line s, log s, lock s).

(** Code that only puts tuples on the queue, and tuples that satisfy [Q]. *)
Definition emits_with {A} (Q : list point -> Prop) (m : M A) : Prop :=
  forall s a s', m s = Some (a, s') ->
    exists ps, s' = with_queue (queue s ++ ps) s /\ Q ps.

Definition emits {A} (m : M A) : Prop := emits_with (fun _ => True) m.


(** [int(math.floor(pct_thresh / 100.0 * count))] *)
Definition thresh_index (pct_thresh : float) (count : Z) : option Z :=
  x ← truediv pct_thresh (float_of_Z 100);
  ffloor (fmul x (float_of_Z count)).

(** The body of [for pct_thresh in self.pct_thresholds], for the sorted
    samples [v] of the key [k]. *)
Definition enqueue_timer_threshold (stime : Z) (k : string)
  (v cumulative_values cumul_sum_squares_values : list float)
  (pct_thresh : float) : M unit :=
  let count := Z.of_nat (length v) in
  let* thresh_idx := try (thresh_index pct_thresh count) in
  if thresh_idx =? 0 then pure tt
  else
    let* vsum := try (PyStr.index cumulative_values (thresh_idx - 1)) in
    let* t := try (ftrunc pct_thresh) in
    let t := PyStr.str_of_Z t in
    when (statsd_timer_mean cfg)
      (let* mean := try (truediv vsum (float_of_Z thresh_idx)) in
       enqueue (name_timer +:+ k +:+ ".mean_" +:+ t) (SFloat mean) stime
         (Some k)) ;;;
    when (statsd_timer_upper cfg)
      (let* vthresh := try (PyStr.index v (thresh_idx - 1)) in
       enqueue (name_timer +:+ k +:+ ".upper_" +:+ t) (SFloat vthresh) stime
         (Some k)) ;;;
    when (statsd_timer_count cfg)
      (enqueue (name_timer +:+ k +:+ ".count_" +:+ t) (SInt thresh_idx) stime
         (Some k)) ;;;
    when (statsd_timer_sum cfg)
      (enqueue (name_timer +:+ k +:+ ".sum_" +:+ t) (SFloat vsum) stime
         (Some k)) ;;;
    when (statsd_timer_sum_squares cfg)
      (let* vsum_squares :=
         try (PyStr.index cumul_sum_squares_values (thresh_idx - 1)) in
       enqueue (name_timer +:+ k +:+ ".sum_squares_" +:+ t)
         (SFloat vsum_squares) stime (Some k)).

(** [sum(((value - mean) ** 2 for value in v))] *)
Definition sum_of_diffs (mean : float) (v : list float) : option float :=
  fold_left
    (fun acc value =>
       a ← acc; d ← fpow (fsub value mean) 2; Some (fadd a d))
    v (Some (float_of_Z 0)).

(** The statistics of all the sorted samples [v] of the key [k]. *)
Definition enqueue_timer_totals (stime : Z) (k : string)
  (v cumulative_values cumul_sum_squares_values : list float)
  (vmin vmax : float) : M unit :=
  let count := Z.of_nat (length v) in
  let* vsum := try (PyStr.index cumulative_values (count - 1)) in
  let* mean := try (truediv vsum (float_of_Z count)) in
  when (statsd_timer_mean cfg)
    (enqueue (name_timer +:+ k +:+ ".mean") (SFloat mean) stime (Some k)) ;;;
  when (statsd_timer_upper cfg)
    (enqueue (name_timer +:+ k +:+ ".upper") (SFloat vmax) stime (Some k)) ;;;
  when (statsd_timer_lower cfg)
    (enqueue (name_timer +:+ k +:+ ".lower") (SFloat vmin) stime (Some k)) ;;;
  when (statsd_timer_count cfg)
    (enqueue (name_timer +:+ k +:+ ".count") (SInt count) stime (Some k)) ;;;
  when (statsd_timer_count_ps cfg)
    (let* count_ps :=
       try (truediv (float_of_Z count) (statsd_flush_time cfg)) in
     enqueue (name_timer +:+ k +:+ ".count_ps") (SFloat count_ps) stime
       (Some k)) ;;;
  when (statsd_timer_median cfg)
    (let mid := count / 2 in
     let* median :=
       if count mod 2 =? 0 then
         let* a := try (PyStr.index v (mid - 1)) in
         let* b := try (PyStr.index v mid) in
         try (truediv (fadd a b) (float_of_Z 2))
       else try (PyStr.index v mid) in
     enqueue (name_timer +:+ k +:+ ".median") (SFloat median) stime
       (Some k)) ;;;
  when (statsd_timer_sum cfg)
    (enqueue (name_timer +:+ k +:+ ".sum") (SFloat vsum) stime (Some k)) ;;;
  when (statsd_timer_sum_squares cfg)
    (let* vsum_squares :=
       try (PyStr.index cumul_sum_squares_values (count - 1)) in
     enqueue (name_timer +:+ k +:+ ".sum_squares") (SFloat vsum_squares)
       stime (Some k)) ;;;
  when (statsd_timer_std cfg)
    (let* sum_of_diffs := try (sum_of_diffs mean v) in
     let* q := try (truediv sum_of_diffs (float_of_Z count)) in
     let* stddev := try (fsqrt q) in
     enqueue (name_timer +:+ k +:+ ".std") (SFloat stddev) stime (Some k)).

(** What [enqueue_timers] puts on the queue for the key [k] with the
    samples [v]. *)
Definition enqueue_timer (stime : Z) (k : string) (v : list float)
  : M unit :=
  match v with
  | [] =>
      enqueue (name_timer +:+ k +:+ ".count") (SInt 0) stime (Some k) ;;;
      enqueue (name_timer +:+ k +:+ ".count_ps") (SFloat (float_of_Z 0))
        stime (Some k)
  | _ =>
      let v := fsort v in
      let* vmin := try (PyStr.index v 0) in
      let* vmax := try (PyStr.index v (-1)) in
      let cumulative_values := cumulative_sums id v in
      let cumul_sum_squares_values :=
        cumulative_sums (fun value => fmul value value) v in
      for_each (statsd_percentile_thresholds cfg) tt
        (fun _ pct_thresh =>
           enqueue_timer_threshold stime k v cumulative_values
             cumul_sum_squares_values pct_thresh) ;;;
      enqueue_timer_totals stime k v cumulative_values
        cumul_sum_squares_values vmin vmax
  end.

Definition enqueue_timers (stime : Z) : M Z :=
  let* s := get in
  for_each (map_to_list (timers s)) 0
    (fun ret '(k, v) =>
       enqueue_timer stime k v ;;;
       modify (reset_timer k) ;;;
       pure (ret + 1)).

Definition enqueue_sets (stime : Z) : M Z :=
  let* s := get in
  for_each (map_to_list (sets s)) 0
    (fun ret '(k, v) =>
       enqueue (name_set +:+ k +:+ ".count") (SInt (Z.of_nat (size v)))
         stime (Some k) ;;;
       modify (reset_set k) ;;;
       pure (ret + 1)).

Definition enqueue_gauges (stime : Z) : M Z :=
  let* s := get in
  for_each (map_to_list (gauges s)) 0
    (fun ret '(k, v) =>
       let* s := get in
       if negb onlychanged_gauges || bool_decide (k ∈ dom (keys_seen s))
       then
         enqueue (name_gauge +:+ k) (SFloat v) stime (Some k) ;;;
         pure (ret + 1)
       else pure ret).

Definition enqueue_counters (stime : Z) : M Z :=
  let* s := get in
  for_each (map_to_list (counters s)) 0
    (fun ret '(k, v) =>
       let stat_rate :=
         if statsd_legacy_namespace cfg then name_legacy_rate +:+ k
         else name_counter +:+ k +:+ ".rate" in
       let stat_count :=
         if statsd_legacy_namespace cfg then name_legacy_count +:+ k
         else name_counter +:+ k +:+ ".count" in
       let* value := try (float_of_int v) in
       let* rate := try (truediv value (statsd_flush_time cfg)) in
       enqueue stat_rate (SFloat rate) stime (Some k) ;;;
       enqueue stat_count (SInt v) stime (Some k) ;;;
       modify (reset_counter k) ;;;
       pure (ret + 1)).

(** [tick], with [stime] the value of [int(time.time())]. *)
Definition tick (stime : Z) : M unit :=
  let name_global_numstats := name_global +:+ "numStats" in
  modify (set_lock true) ;;;
  when delete_timers
    (let* s := get in
     let rem_keys := dom (timers s) ∖ dom (keys_seen s) in
     for_each (elements rem_keys) tt (fun _ k => modify (del_timer k))) ;;;
  when delete_counters
    (let* s := get in
     let rem_keys := dom (counters s) ∖ dom (keys_seen s) in
     for_each (elements rem_keys) tt (fun _ k => modify (del_counter k))) ;;;
  when delete_sets
    (let* s := get in
     let rem_keys := dom (sets s) ∖ dom (keys_seen s) in
     for_each (elements rem_keys) tt (fun _ k => modify (del_set k))) ;;;
  let* num_stats := enqueue_timers stime in
  let* s := get in
  let kept_keys := dom (timers s) in
  let* n := enqueue_counters stime in
  let num_stats := num_stats + n in
  let* s := get in
  let kept_keys := kept_keys ∪ dom (counters s) in
  let* n := enqueue_gauges stime in
  let num_stats := num_stats + n in
  let* s := get in
  let kept_keys := kept_keys ∪ dom (gauges s) in
  let* n := enqueue_sets stime in
  let num_stats := num_stats + n in
  let* s := get in
  let kept_keys := kept_keys ∪ dom (sets s) in
  enqueue name_global_numstats (SInt num_stats) stime None ;;;
  modify
    (fun s =>
       set_keys_seen None
         (filter (fun kv => kv.1 ∈ kept_keys) (keys_seen s)) s) ;;;
  modify (set_lock false).

(** *** Saving and loading the gauges *)

(** [read_json_file] and [write_json_file] *)
Definition read_json_file (fs : files) : option saved :=
  if io_error fs then None else gauges_file fs.

Definition write_json_file (doc : saved) (fs : files) : option files :=
  if io_error fs then None else Some (Files (Some doc) (io_error fs)).

Definition load_gauges (fs : files) (s : handler) : handler :=
  if negb (statsd_persistent_gauges cfg) then s
  else
    match gauges_file fs with
    | None => s
    | Some _ =>
        match read_json_file fs with
        | None => log_message "StatsD: IOError" s
        | Some doc =>
            let s := set_gauges None (((fun g => g.1) <$> doc) ∪ gauges s) s in
            set_keys_seen None (((fun g => g.2) <$> doc) ∪ keys_seen s) s
        end
    end.

Definition save_gauges (s : handler) (fs : files) : handler * files :=
  if negb (statsd_persistent_gauges cfg) then (s, fs)
  else
    let doc : saved :=
      map_imap (fun k g => Some (g, default None (keys_seen s !! k)))
        (gauges s) in
    match write_json_file doc fs with
    | Some fs' => (s, fs')
    | None => (log_message "StatsD: IOError" s, fs)
    end.

End Handler.

Notation "'let*' x ':=' m 'in' k" := (bind m (fun x => k))
  (at level 10, x pattern, m at level 100, k at level 200).
Notation "m ';;;' k" := (bind m (fun _ => k))
  (at level 100, k at level 200, right associativity).

(** ** Exact rationals as an implementation of the float interface

    [float()] reads the plain decimal literals: an optional sign, digits,
    and an optional point. The square root is cut after six decimals. No
    rational is a NaN, [x ** n] never overflows, [list.sort] is a stable
    insertion sort, and the integers that convert are those that round to
    a double. *)

Module QFloat.

Definition digit (c : ascii) : option Z :=
  let n := N_of_ascii c in
  if ((48 <=? n)%N && (n <=? 57)%N)%bool then Some (Z.of_N (n - 48)) else None.

Fixpoint digits_value (s : string) (acc : Z) : option Z :=
  match s with
  | EmptyString => Some acc
  | String c s' =>
      match digit c with
      | Some d => digits_value s' (10 * acc + d)
      | None => None
      end
  end.

Definition unsigned_decimal (s : string) : option Q :=
  match PyStr.split "." s with
  | [i] =>
      if String.eqb i EmptyString then None
      else n ← digits_value i 0; Some (inject_Z n)
  | [i; f] =>
      if (String.eqb i EmptyString && String.eqb f EmptyString)%bool then None
      else
        n ← digits_value (i +:+ f) 0;
        Some (Qred (n # Z.to_pos (10 ^ Z.of_nat (String.length f))))
  | _ => None
  end.

Definition decimal (s : string) : option Q :=
  match s with
  | String c r =>
      if Ascii.eqb c "+" then unsigned_decimal r
      else if Ascii.eqb c "-" then Qopp <$> unsigned_decimal r
      else unsigned_decimal s
  | EmptyString => None
  end.

Definition sqrt (x : Q) : option Q :=
  if Qle_bool 0 x then
    Some (Qred (Z.sqrt (Qnum x * 10 ^ 12 / Z.pos (Qden x)) # 10 ^ 6))
  else None.

Definition trunc (x : Q) : Z := Z.quot (Qnum x) (Z.pos (Qden x)).

Lemma inject_Z_nonzero (n : Z) : n <> 0 -> Qeq_bool (inject_Z n) 0 = false.
Proof.
  intros Hn. unfold Qeq_bool. simpl. rewrite Z.mul_1_r. now apply Z.eqb_neq.
Qed.

(** [x < y] *)
Definition lt (x y : Q) : bool := negb (Qle_bool y x).

(** A stable sort that compares with [<] only. *)
Fixpoint sort_insert (x : Q) (l : list Q) : list Q :=
  match l with
  | [] => [x]
  | y :: r => if lt y x then y :: sort_insert x r else x :: l
  end.

Fixpoint sort (l : list Q) : list Q :=
  match l with
  | [] => []
  | x :: r => sort_insert x (sort r)
  end.

(** The integers that round to a double: those below 2^1024 - 2^970 in
    absolute value. *)
Definition fits (n : Z) : bool := Z.abs n <? 2 ^ 1024 - 2 ^ 970.

Lemma sort_insert_perm x l : Permutation (x :: l) (sort_insert x l).
Proof.
  induction l as [|y l IH]; simpl; [reflexivity|].
  destruct (lt y x); [|reflexivity].
  rewrite perm_swap. now apply perm_skip.
Qed.

Lemma sort_perm l : Permutation l (sort l).
Proof.
  induction l as [|x l IH]; simpl; [reflexivity|].
  rewrite <- sort_insert_perm. now apply perm_skip.
Qed.

Lemma lt_asym x y : lt x y = true -> lt y x = false.
Proof.
  unfold lt. rewrite negb_true_iff, negb_false_iff.
  intros H. apply Qle_bool_iff. apply Qnot_lt_le.
  intros Hlt. apply Qlt_le_weak, Qle_bool_iff in Hlt. congruence.
Qed.

Lemma sort_sorted l : Sorted (fun x y => lt y x = false) (sort l).
Proof.
  induction l as [|x l IH]; simpl; [constructor|].
  revert IH. generalize (sort l). clear l. intros l Hl.
  induction Hl as [|y l Hl IH Hhd]; simpl; [repeat constructor|].
  destruct (lt y x) eqn:E.
  - constructor; [exact IH|].
    destruct l as [|z l]; simpl.
    + constructor. now apply lt_asym.
    + inversion Hhd; subst. destruct (lt z x); constructor;
        [assumption|now apply lt_asym].
  - constructor; [now constructor|]. now constructor.
Qed.

#[export] Instance Q_float : PyFloat := {|
  float := Q;
  float_of_string := decimal;
  float_of_Z := inject_Z;
  float_fits := fits;
  fadd x y := Qred (x + y);
  fsub x y := Qred (x - y);
  fmul x y := Qred (x * y);
  fdiv x y := Qred (x / y);
  fpow x n := Some (Qred (Qpower x n));
  fzero x := Qeq_bool x 0;
  fsqrt := sqrt;
  ffloor x := Some (Qfloor x);
  ftrunc x := Some (trunc x);
  fltb := lt;
  fnan _ := false;
  fsort := sort;
  float_of_Z_nonzero := inject_Z_nonzero;
  float_fits_zero := eq_refl;
  fsort_perm := sort_perm;
  fsort_sorted v _ := sort_sorted v
|}.

(** A configuration in the modern name space: flush every 10 seconds, the
    threshold 90, every timer statistic switched on, nothing persisted. *)
Definition cfg0 : config :=
  {| statsd_flush_time := 10 # 1;
     statsd_legacy_namespace := false;
     statsd_global_prefix := "stats";
     statsd_prefix_counter := "counters";
     statsd_prefix_timer := "timers";
     statsd_prefix_gauge := "gauges";
     statsd_prefix_set := "sets";
     statsd_metadata := None;
     statsd_persistent_gauges := false;
     statsd_percentile_thresholds := [90 # 1];
     statsd_delete_idlestats := false;
     statsd_delete_counters := false;
     statsd_delete_timers := false;
     statsd_delete_sets := false;
     statsd_onlychanged_gauges := false;
     statsd_timer_mean := true;
     statsd_timer_upper := true;
     statsd_timer_lower := true;
     statsd_timer_count := true;
     statsd_timer_count_ps := true;
     statsd_timer_sum := true;
     statsd_timer_sum_squares := true;
     statsd_timer_median := true;
     statsd_timer_std := true |}.

(** The same with gauge persistence switched on. *)
Definition cfg_persistent : config :=
  {| statsd_flush_time := statsd_flush_time cfg0;
     statsd_legacy_namespace := false;
     statsd_global_prefix := "stats";
     statsd_prefix_counter := "counters";
     statsd_prefix_timer := "timers";
     statsd_prefix_gauge := "gauges";
     statsd_prefix_set := "sets";
     statsd_metadata := None;
     statsd_persistent_gauges := true;
     statsd_percentile_thresholds := [90 # 1];
     statsd_delete_idlestats := true;
     statsd_delete_counters := true;
     statsd_delete_timers := true;
     statsd_delete_sets := true;
     statsd_onlychanged_gauges := true;
     statsd_timer_mean := true;
     statsd_timer_upper := true;
     statsd_timer_lower := true;
     statsd_timer_count := false;
     statsd_timer_count_ps := false;
     statsd_timer_sum := true;
     statsd_timer_sum_squares := true;
     statsd_timer_median := true;
     statsd_timer_std := true |}.

(** The result of a method that did not raise. *)
Definition result {A} (r : option (A * handler)) : handler :=
  match r with
  | Some (_, s) => s
  | None => init
  end.

(** A handler that got one sample of each kind. *)
Definition one_of_each : handler :=
  handle cfg0 "u:alice|s"
    (handle cfg0 "g:7|g" (handle cfg0 "t:3|ms" (handle cfg0 "c:5|c" init))).

Definition one_of_each_ticked : handler := result (tick cfg0 1000 one_of_each).

(** Ten timer samples, out of order. *)
Definition ten_samples : list Q :=
  [3 # 1; 1 # 1; 2 # 1; 10 # 1; 9 # 1; 8 # 1; 7 # 1; 6 # 1; 5 # 1; 4 # 1].

(** A handler with the ten samples for one timer key, and what
    [enqueue_timers] makes of it. *)
Definition timed : handler :=
  handle cfg0 "t:3|ms:1|ms:2|ms:10|ms:9|ms:8|ms:7|ms:6|ms:5|ms:4|ms" init.

Definition timed_enqueued : handler := result (enqueue_timers cfg0 1000 timed).

(** A handler with a timer that a tick has emptied and a timer with a
    sample, under a configuration without [timer_count] and
    [timer_count_ps], and its state after a tick. *)
Definition two_timers : handler :=
  handle cfg_persistent "b:2|ms"
    (result (tick cfg_persistent 1000 (handle cfg_persistent "a:1|ms" init))).

Definition two_timers_ticked : handler :=
  result (tick cfg_persistent 1010 two_timers).




(** No gauges file, and no IOError; a file system that raises IOError. *)
Definition no_file : files := Files None false.


(** The configuration [cfg0] with the threshold 200 instead of 90, and
    with a flush time of zero. *)
Definition cfg_wide : config :=
  {| statsd_flush_time := statsd_flush_time cfg0;
     statsd_legacy_namespace := false;
     statsd_global_prefix := "stats";
     statsd_prefix_counter := "counters";
     statsd_prefix_timer := "timers";
     statsd_prefix_gauge := "gauges";
     statsd_prefix_set := "sets";
     statsd_metadata := None;
     statsd_persistent_gauges := false;
     statsd_percentile_thresholds := [200 # 1];
     statsd_delete_idlestats := false;
     statsd_delete_counters := false;
     statsd_delete_timers := false;
     statsd_delete_sets := false;
     statsd_onlychanged_gauges := false;
     statsd_timer_mean := true;
     statsd_timer_upper := true;
     statsd_timer_lower := true;
     statsd_timer_count := true;
     statsd_timer_count_ps := true;
     statsd_timer_sum := true;
     statsd_timer_sum_squares := true;
     statsd_timer_median := true;
     statsd_timer_std := true |}.

Definition cfg_zero : config :=
  {| statsd_flush_time := 0 # 1;
     statsd_legacy_namespace := false;
     statsd_global_prefix := "stats";
     statsd_prefix_counter := "counters";
     statsd_prefix_timer := "timers";
     statsd_prefix_gauge := "gauges";
     statsd_prefix_set := "sets";
     statsd_metadata := None;
     statsd_persistent_gauges := false;
     statsd_percentile_thresholds := [90 # 1];
     statsd_delete_idlestats := false;
     statsd_delete_counters := false;
     statsd_delete_timers := false;
     statsd_delete_sets := false;
     statsd_onlychanged_gauges := false;
     statsd_timer_mean := true;
     statsd_timer_upper := true;
     statsd_timer_lower := true;
     statsd_timer_count := true;
     statsd_timer_count_ps := true;
     statsd_timer_sum := true;
     statsd_timer_sum_squares := true;
     statsd_timer_median := true;
     statsd_timer_std := true |}.

(** A handler with one counter and one gauge, its state after a tick, and
    the state after a second tick, with the idle statistics to be
    deleted. *)
Definition counted : handler :=
  handle cfg_persistent "g:7|g" (handle cfg_persistent "c:5|c" init).

Definition counted_ticked : handler :=
  result (tick cfg_persistent 1000 counted).

Definition counted_ticked_twice : handler :=
  result (tick cfg_persistent 1010 counted_ticked).

End QFloat.

(** The text of [s] before the first [sep], and the text after it. *)
Fixpoint before (sep : ascii) (s : string) : string :=
  match s with
  | EmptyString => EmptyString
  | String c s' =>
      if Ascii.eqb c sep then EmptyString else String c (before sep s')
  end.

Fixpoint after (sep : ascii) (s : string) : string :=
  match s with
  | EmptyString => EmptyString
  | String c s' => if Ascii.eqb c sep then s' else after sep s'
  end.

(** * Properties *)

(** ** Strings *)

Lemma split_nonempty sep s : PyStr.split sep s <> [].
Proof. destruct s as [|c s]; simpl; [easy|]. destruct (Ascii.eqb c sep); [easy|]. now destruct (PyStr.split sep s). Qed.

(** [split] cuts at the first separator and goes on behind it. *)
Lemma split_unfold sep s :
  PyStr.split sep s
  = before sep s
    :: (if PyStr.contains sep s then PyStr.split sep (after sep s) else []).
Proof.
  induction s as [|c s IH]; simpl; [reflexivity|].
  destruct (Ascii.eqb c sep); simpl; [reflexivity|].
  rewrite IH. reflexivity.
Qed.

Lemma split_no_sep sep s :
  PyStr.contains sep s = false -> PyStr.split sep s = [s].
Proof.
  induction s as [|c s IH]; simpl; [reflexivity|].
  destruct (Ascii.eqb c sep); simpl; [discriminate|].
  intros H. now rewrite IH.
Qed.

Lemma before_no_sep sep s : PyStr.contains sep s = false -> before sep s = s.
Proof.
  induction s as [|c s IH]; simpl; [reflexivity|].
  destruct (Ascii.eqb c sep); simpl; [discriminate|].
  intros H. now rewrite IH.
Qed.

Lemma contains_app_sep sep a b :
  PyStr.contains sep (a +:+ String sep b) = true.
Proof.
  induction a as [|c a IH]; simpl.
  - now rewrite Ascii.eqb_refl.
  - rewrite IH. apply orb_true_r.
Qed.

Lemma before_app_sep sep a b :
  PyStr.contains sep a = false -> before sep (a +:+ String sep b) = a.
Proof.
  induction a as [|c a IH]; simpl.
  - now rewrite Ascii.eqb_refl.
  - destruct (Ascii.eqb c sep); simpl; [discriminate|].
    intros H. now rewrite IH.
Qed.

Lemma after_app_sep sep a b :
  PyStr.contains sep a = false -> after sep (a +:+ String sep b) = b.
Proof.
  induction a as [|c a IH]; simpl.
  - now rewrite Ascii.eqb_refl.
  - destruct (Ascii.eqb c sep); simpl; [discriminate|].
    intros H. now rewrite IH.
Qed.

Lemma append_inv_head (p a b : string) : p +:+ a = p +:+ b -> a = b.
Proof. induction p as [|c p IH]; simpl; [easy|]. intros H. injection H. exact IH. Qed.

Lemma append_assoc (a b c : string) : (a +:+ b) +:+ c = a +:+ b +:+ c.
Proof.
  induction a as [|x a IH]; [reflexivity|].
  change (String x ((a +:+ b) +:+ c) = String x (a +:+ b +:+ c)).
  now rewrite IH.
Qed.

(** ** The sanitizer *)

Lemma key_char_plain c :
  key_char c = true -> PyStr.isspace c = false /\ Ascii.eqb c "/" = false.
Proof.
  destruct c as [[] [] [] [] [] [] [] []]; vm_compute; intros H;
    first [discriminate H | split; reflexivity].
Qed.

Lemma sub_other_key_chars s : PyStr.all key_char (sub_other s) = true.
Proof.
  induction s as [|c s IH]; simpl; [reflexivity|].
  destruct (key_char c) eqn:Hc; simpl; [rewrite Hc|]; exact IH.
Qed.

Lemma sub_spaces_key_chars s b :
  PyStr.all key_char s = true -> sub_spaces b s = s.
Proof.
  revert b. induction s as [|c s IH]; simpl; intros b H; [reflexivity|].
  apply andb_true_iff in H as [Hc Hs].
  destruct (key_char_plain c Hc) as [-> _]. now rewrite IH.
Qed.

Lemma sub_slash_key_chars s : PyStr.all key_char s = true -> sub_slash s = s.
Proof.
  induction s as [|c s IH]; simpl; intros H; [reflexivity|].
  apply andb_true_iff in H as [Hc Hs].
  destruct (key_char_plain c Hc) as [_ ->]. now rewrite IH.
Qed.

Lemma sub_other_key_chars_id s :
  PyStr.all key_char s = true -> sub_other s = s.
Proof.
  induction s as [|c s IH]; simpl; intros H; [reflexivity|].
  apply andb_true_iff in H as [Hc Hs]. rewrite Hc. now rewrite IH.
Qed.

(** C7. The key sanitizer, which collapses every run of white space to "_",
    then replaces "/" by "-", then deletes every character outside
    [A-Za-z_\-0-9.], is idempotent, and its result holds characters of
    that class only. *)
Theorem sanitize_idempotent_key_chars (x : string) :
  sanitize (sanitize x) = sanitize x
  /\ PyStr.all key_char (sanitize x) = true.
Proof.
  assert (H : PyStr.all key_char (sanitize x) = true)
    by apply sub_other_key_chars.
  split; [|exact H].
  unfold sanitize at 1.
  rewrite (sub_spaces_key_chars _ false H), (sub_slash_key_chars _ H).
  now apply sub_other_key_chars_id.
Qed.

(** ** The tags of a line *)

(** C6, as the code has it. An element of the tag list that contains "="
    gives the text before its first "=" as the key and the text between
    its first and its second "=" (up to the end when there is one "=" only)
    as the value; an element without "=" that contains ":" is cut at ":"
    in the same way; any other element is a key with the value [None]. *)
Theorem tag_entry_first_two_fields (i : string) :
  tag_entry i
  = if PyStr.contains "=" i then
      (before "=" i, Some (before "=" (after "=" i)))
    else if PyStr.contains ":" i then
      (before ":" i, Some (before ":" (after ":" i)))
    else (i, None).
Proof.
  unfold tag_entry.
  rewrite (split_unfold "=" i).
  destruct (PyStr.contains "=" i) eqn:He.
  - rewrite (split_unfold "=" (after "=" i)). reflexivity.
  - rewrite (split_unfold ":" i).
    destruct (PyStr.contains ":" i) eqn:Hc.
    + rewrite (split_unfold ":" (after ":" i)). reflexivity.
    + now rewrite (before_no_sep ":" i Hc).
Qed.

(** C6, as the claim has it, fails: the element "k=v1=v2" gets the value
    "v1", not "v1=v2". *)
Lemma tag_entry_not_split_once :
  tag_entry "k=v1=v2" = ("k", Some "v1")
  /\ tag_entry "k=v1=v2" <> ("k", Some "v1=v2").
Proof. split; [reflexivity|discriminate]. Qed.

Section Properties.

Context {F : PyFloat}.
Variable cfg : config.

(** ** The gauge handler *)

(** C5. A gauge sample whose value parses: when the value string starts
    with "+" or "-" and the key has a gauge, the value is added to it;
    otherwise the gauge is set to the value; so a signed sample for a key
    without a gauge stores the value itself. *)
Theorem handle_gauge_delta_or_absolute
  (key : string) (fields : list string) (s : handler) (val : float) :
  float_of_string (str_or_0 (field fields 0)) = Some val ->
  let valstr := str_or_0 (field fields 0) in
  let s' := handle_gauge key fields s in
  (forall g, signed valstr = true -> gauges s !! key = Some g ->
     gauges s' = <[key := fadd g val]> (gauges s))
  /\ (signed valstr = false \/ gauges s !! key = None ->
      gauges s' = <[key := val]> (gauges s))
  /\ (signed valstr = true -> gauges s !! key = None ->
      gauges s' !! key = Some val).
Proof.
  intros Hval valstr s'. subst s'. unfold handle_gauge.
  fold valstr. fold valstr in Hval. rewrite Hval. unfold with_lock. simpl.
  repeat split.
  - intros g Hs Hg. rewrite Hg, Hs. reflexivity.
  - intros [Hs|Hg].
    + rewrite Hs. now destruct (gauges s !! key).
    + now rewrite Hg.
  - intros _ Hg. rewrite Hg. simpl. apply lookup_insert_eq.
Qed.

(** A sample that does not parse is a bad line and leaves the gauges. *)
Lemma handle_gauge_bad_line (key : string) (fields : list string) (s : handler) :
  float_of_string (str_or_0 (field fields 0)) = None ->
  handle_gauge key fields s = bad_line s.
Proof. intros H. unfold handle_gauge. now rewrite H. Qed.

(** ** Lines with tags *)

Lemma handle_sample_with_keys_seen key sample m s :
  handle_sample key sample (with_keys_seen m s)
  = with_keys_seen m (handle_sample key sample s).
Proof.
  unfold handle_sample.
  destruct (negb (PyStr.contains "|" sample)); [reflexivity|].
  destruct (String.eqb _ "ms").
  { unfold handle_timer. now destruct (float_or_0 _). }
  destruct (String.eqb _ "g").
  { unfold handle_gauge. destruct (float_of_string _); [|reflexivity].
    unfold with_lock; simpl.
    destruct (gauges s !! key); [destruct (signed _)|]; reflexivity. }
  destruct (String.eqb _ "s").
  { unfold handle_set, with_lock; simpl. now destruct (sets s !! key). }
  unfold handle_counter. destruct (counter_value _); [|reflexivity].
  unfold with_lock; simpl. now destruct (counters s !! key).
Qed.

Lemma handle_sample_keys_seen key sample s :
  keys_seen (handle_sample key sample s) = keys_seen s.
Proof.
  unfold handle_sample.
  destruct (negb (PyStr.contains "|" sample)); [reflexivity|].
  destruct (String.eqb _ "ms").
  { unfold handle_timer. now destruct (float_or_0 _). }
  destruct (String.eqb _ "g").
  { unfold handle_gauge. destruct (float_of_string _); [|reflexivity].
    unfold with_lock; simpl.
    destruct (gauges s !! key); [destruct (signed _)|]; reflexivity. }
  destruct (String.eqb _ "s").
  { unfold handle_set, with_lock; simpl. now destruct (sets s !! key). }
  unfold handle_counter. destruct (counter_value _); [|reflexivity].
  unfold with_lock; simpl. now destruct (counters s !! key).
Qed.

Lemma handle_samples_with_keys_seen key bits m s :
  fold_left (fun s sample => handle_sample key sample s) bits
    (with_keys_seen m s)
  = with_keys_seen m
      (fold_left (fun s sample => handle_sample key sample s) bits s).
Proof.
  revert s. induction bits as [|b bits IH]; intros s; simpl; [reflexivity|].
  now rewrite handle_sample_with_keys_seen, IH.
Qed.

Lemma handle_samples_keys_seen key bits s :
  keys_seen (fold_left (fun s sample => handle_sample key sample s) bits s)
  = keys_seen s.
Proof.
  revert s. induction bits as [|b bits IH]; intros s; simpl; [reflexivity|].
  now rewrite IH, handle_sample_keys_seen.
Qed.

Lemma handle_tagged_with_keys_seen body tags s :
  handle_tagged cfg body tags s
  = with_keys_seen
      (<[sanitize (before ":" body) := coalesce cfg tags]> (keys_seen s))
      (handle_tagged cfg body None s).
Proof.
  unfold handle_tagged. rewrite (split_unfold ":" body).
  unfold handle_key.
  set (key := sanitize (before ":" body)).
  set (bits := if PyStr.contains ":" body then _ else _).
  change (set_keys_seen (Some key) (<[key:=coalesce cfg tags]> (keys_seen s)) s)
    with (with_keys_seen (<[key:=coalesce cfg tags]> (keys_seen s))
            (set_keys_seen (Some key) (<[key:=coalesce cfg None]> (keys_seen s)) s)).
  destruct bits as [|b bits]; [reflexivity|].
  apply handle_samples_with_keys_seen.
Qed.

Lemma handle_tags_split body tags_text :
  PyStr.contains "#" body = false ->
  handle_tags (body +:+ String "#" tags_text)
  = (body, Some (parse_tags (before "#" tags_text)))
  /\ handle_tags body = (body, None).
Proof.
  intros Hb. unfold handle_tags. split.
  - rewrite split_unfold, contains_app_sep, (before_app_sep _ _ _ Hb),
      (after_app_sep _ _ _ Hb).
    now rewrite (split_unfold "#" tags_text).
  - now rewrite (split_no_sep _ _ Hb).
Qed.

(** C1, as the code has it. In a line [body#tags], with no "#" in [body],
    the text from the "#" on is the tag annotation: it is stripped, and
    [body] is parsed as the sample line that it is, with the same effect
    on the timers, gauges, counters, sets, log and queue as the line
    without annotation; the sanitized key of [body] gets the tags, merged
    with the default metadata, in [keys_seen]. *)
Theorem handle_line_strips_trailing_tags
  (body tags_text : string) (s : handler) :
  PyStr.contains "#" body = false ->
  let s1 := handle_line cfg (body +:+ String "#" tags_text) s in
  let s0 := handle_line cfg body s in
  let tags := parse_tags (before "#" tags_text) in
  handle_tags (body +:+ String "#" tags_text) = (body, Some tags)
  /\ timers s1 = timers s0 /\ gauges s1 = gauges s0
  /\ counters s1 = counters s0 /\ sets s1 = sets s0
  /\ log s1 = log s0 /\ queue s1 = queue s0
  /\ keys_seen s1
     = <[sanitize (before ":" body) := coalesce cfg (Some tags)]> (keys_seen s).
Proof.
  intros Hb s1 s0 tags.
  destruct (handle_tags_split body tags_text Hb) as [H1 H0].
  split; [exact H1|].
  assert (E1 : s1 = handle_tagged cfg body (Some tags) s).
  { subst s1. unfold handle_line. now rewrite H1. }
  assert (E0 : s0 = handle_tagged cfg body None s).
  { subst s0. unfold handle_line. now rewrite H0. }
  rewrite E1, E0, handle_tagged_with_keys_seen. simpl.
  repeat split; reflexivity.
Qed.

(** ** Code that reads and writes the handler *)

Lemma bind_Some {A B} (m : M A) (k : A -> M B) s b s' :
  bind m k s = Some (b, s')
  <-> exists a s1, m s = Some (a, s1) /\ k a s1 = Some (b, s').
Proof.
  unfold bind. split.
  - destruct (m s) as [[a s1]|]; [|discriminate]. intros H. now exists a, s1.
  - intros (a & s1 & -> & H). exact H.
Qed.

Lemma try_Some {A} (o : option A) s a s1 :
  try o s = Some (a, s1) -> o = Some a /\ s1 = s.
Proof. unfold try. destruct o; [|discriminate]. intros H. now injection H as -> ->. Qed.

(** A loop whose body changes the state by [step], apart from what it
    puts on the queue, changes it by the steps of all the elements. *)
Lemma for_each_steps {A B} (step : A -> handler -> handler)
  (body : B -> A -> M B) :
  (forall q x s, step x (with_queue q s) = with_queue q (step x s)) ->
  (forall acc x s b s', body acc x s = Some (b, s') ->
     exists ps, s' = with_queue (queue s ++ ps) (step x s)) ->
  forall l acc s b s', for_each l acc body s = Some (b, s') ->
    exists ps,
      s' = with_queue (queue s ++ ps) (fold_left (fun s x => step x s) l s).
Proof.
  intros Hstep Hbody l.
  induction l as [|x l IH]; intros acc s b s' H; simpl in H.
  - injection H as _ <-. exists []. destruct s; simpl. now rewrite app_nil_r.
  - apply bind_Some in H as (acc1 & s1 & H1 & H2).
    apply Hbody in H1 as (ps1 & ->).
    apply IH in H2 as (ps2 & ->). simpl.
    exists (ps1 ++ ps2). rewrite app_assoc.
    assert (E : forall q s0,
      fold_left (fun s x => step x s) l (with_queue q s0)
      = with_queue q (fold_left (fun s x => step x s) l s0)).
    { clear -Hstep. induction l as [|y l IHl]; intros q s0; simpl;
        [reflexivity|]. now rewrite Hstep, IHl. }
    rewrite E. reflexivity.
Qed.

(** The same with the tuples of every turn: a loop whose body, in the
    states that satisfy [P], puts for the element [x] tuples that satisfy
    [R x] and changes the state by [step x], puts one such block of
    tuples after the other. *)
Lemma for_each_blocks {A B} (R : A -> list point -> Prop)
  (P : handler -> Prop) (step : A -> handler -> handler)
  (body : B -> A -> M B) :
  (forall q x s, step x (with_queue q s) = with_queue q (step x s)) ->
  (forall x s, P s -> P (step x s)) ->
  (forall q s, P s -> P (with_queue q s)) ->
  (forall acc x s b s', P s -> body acc x s = Some (b, s') ->
     exists block, s' = with_queue (queue s ++ block) (step x s) /\ R x block) ->
  forall l acc s b s', P s -> for_each l acc body s = Some (b, s') ->
    exists blocks,
      s' = with_queue (queue s ++ concat blocks)
             (fold_left (fun s x => step x s) l s)
      /\ Forall2 R l blocks.
Proof.
  intros Hstep HPs HPq Hbody l.
  induction l as [|x l IH]; intros acc s b s' HP H; simpl in H.
  - injection H as _ <-. exists []. split; [|constructor].
    destruct s; simpl. now rewrite app_nil_r.
  - apply bind_Some in H as (acc1 & s1 & H1 & H2).
    apply (Hbody _ _ _ _ _ HP) in H1 as (block & -> & HR).
    apply IH in H2 as (blocks & -> & HF); [|now apply HPq, HPs].
    exists (block :: blocks). split; [|now constructor].
    simpl. rewrite app_assoc.
    assert (E : forall q s0,
      fold_left (fun s x => step x s) l (with_queue q s0)
      = with_queue q (fold_left (fun s x => step x s) l s0)).
    { clear -Hstep. induction l as [|y l IHl]; intros q s0; simpl;
        [reflexivity|]. now rewrite Hstep, IHl. }
    rewrite E. reflexivity.
Qed.

Lemma with_queue_inj q q' (s : handler) :
  with_queue (queue s ++ q) s = with_queue (queue s ++ q') s -> q = q'.
Proof.
  intros H. apply (f_equal queue) in H. simpl in H.
  now apply app_inv_head in H.
Qed.

Lemma fold_left_id {A} (l : list A) (s : handler) :
  fold_left (fun s _ => s) l s = s.
Proof. induction l as [|x l IH]; simpl; [reflexivity|exact IH]. Qed.

Lemma fold_left_preserves {A B} (proj : handler -> B)
  (step : A -> handler -> handler) l s :
  (forall x s, proj (step x s) = proj s) ->
  proj (fold_left (fun s x => step x s) l s) = proj s.
Proof.
  intros H. revert s. induction l as [|x l IH]; intros s; simpl;
    [reflexivity|]. now rewrite IH, H.
Qed.

Lemma metadata_of_keys_seen key (a b : handler) :
  keys_seen a = keys_seen b -> metadata_of cfg key a = metadata_of cfg key b.
Proof. intros H. unfold metadata_of. now rewrite H. Qed.

Lemma with_queue_nil s : s = with_queue (queue s ++ []) s.
Proof. destruct s; simpl. now rewrite app_nil_r. Qed.

Lemma emits_with_weaken {A} (Q Q' : list point -> Prop) (m : M A) :
  (forall ps, Q ps -> Q' ps) -> emits_with Q m -> emits_with Q' m.
Proof.
  intros HQ Hm s a s' H. apply Hm in H as (ps & -> & H). exists ps. auto.
Qed.

Lemma emits_with_pure {A} (Q : list point -> Prop) (a : A) :
  Q [] -> emits_with Q (pure a).
Proof.
  intros HQ s a' s' H. injection H as _ <-. exists [].
  split; [apply with_queue_nil|exact HQ].
Qed.

Lemma emits_with_get (Q : list point -> Prop) : Q [] -> emits_with Q get.
Proof.
  intros HQ s a' s' H. injection H as _ <-. exists [].
  split; [apply with_queue_nil|exact HQ].
Qed.

Lemma emits_with_try {A} (Q : list point -> Prop) (o : option A) :
  Q [] -> emits_with Q (try o).
Proof.
  intros HQ s a s' H. unfold try in H. destruct o; [|discriminate].
  injection H as _ <-. exists []. split; [apply with_queue_nil|exact HQ].
Qed.

Lemma emits_with_bind {A B} (Q1 Q2 Q : list point -> Prop)
  (m : M A) (k : A -> M B) :
  emits_with Q1 m -> (forall a, emits_with Q2 (k a)) ->
  (forall p1 p2, Q1 p1 -> Q2 p2 -> Q (p1 ++ p2)) ->
  emits_with Q (bind m k).
Proof.
  intros Hm Hk HQ s b s' H. apply bind_Some in H as (a & s1 & H1 & H2).
  apply Hm in H1 as (ps1 & -> & HQ1). apply Hk in H2 as (ps2 & -> & HQ2).
  exists (ps1 ++ ps2). simpl. rewrite app_assoc. split; [reflexivity|auto].
Qed.

Lemma emits_with_enqueue (Q : list point -> Prop) name value stime key :
  (forall md, Q [Point name value stime md]) ->
  emits_with Q (enqueue cfg name value stime key).
Proof.
  intros HQ s a s' H. injection H as _ <-. eexists [_].
  split; [reflexivity|apply HQ].
Qed.

Lemma emits_with_for_each {A B} (Q : list point -> Prop)
  (l : list A) (acc : B) body :
  Q [] -> (forall p1 p2, Q p1 -> Q p2 -> Q (p1 ++ p2)) ->
  (forall acc x, emits_with Q (body acc x)) ->
  emits_with Q (for_each l acc body).
Proof.
  intros Hnil Happ H. revert acc. induction l as [|x l IH]; intros acc; simpl.
  - now apply emits_with_pure.
  - eapply emits_with_bind; [apply H|exact IH|exact Happ].
Qed.

Lemma emits_pure {A} (a : A) : emits (pure a).
Proof. now apply emits_with_pure. Qed.

Lemma emits_get : emits get.
Proof. now apply emits_with_get. Qed.

Lemma emits_try {A} (o : option A) : emits (try o).
Proof. now apply emits_with_try. Qed.

Lemma emits_bind {A B} (m : M A) (k : A -> M B) :
  emits m -> (forall a, emits (k a)) -> emits (bind m k).
Proof. intros Hm Hk. now apply (emits_with_bind _ _ _ _ _ Hm Hk). Qed.

Lemma emits_when flag body : emits body -> emits (when flag body).
Proof. intros H. destruct flag; [exact H|apply emits_pure]. Qed.

Lemma emits_enqueue name value stime key :
  emits (enqueue cfg name value stime key).
Proof. now apply emits_with_enqueue. Qed.

Lemma emits_for_each {A B} (l : list A) (acc : B) body :
  (forall acc x, emits (body acc x)) -> emits (for_each l acc body).
Proof. intros H. now apply emits_with_for_each. Qed.

Ltac emits :=
  repeat first
    [ apply emits_pure | apply emits_get | apply emits_try
    | apply emits_enqueue | apply emits_when
    | apply emits_for_each; intros
    | apply emits_bind; [|intros]
    | match goal with
      | |- emits (if ?b then _ else _) => destruct b
      | |- emits (match ?x with _ => _ end) => destruct x
      end ].

Lemma emits_enqueue_timer_threshold stime k v cv csv pct_thresh :
  emits (enqueue_timer_threshold cfg stime k v cv csv pct_thresh).
Proof. unfold enqueue_timer_threshold. emits. Qed.

Lemma emits_enqueue_timer_totals stime k v cv csv vmin vmax :
  emits (enqueue_timer_totals cfg stime k v cv csv vmin vmax).
Proof. unfold enqueue_timer_totals. emits. Qed.

Lemma emits_enqueue_timer stime k v : emits (enqueue_timer cfg stime k v).
Proof.
  unfold enqueue_timer. destruct v as [|x v]; emits.
Qed.

(** ** Loops over a dictionary *)

Lemma elem_of_map_to_list_keys {V} (m : gmap string V) (k : string) :
  k ∈ (map_to_list m).*1 <-> is_Some (m !! k).
Proof.
  rewrite list_elem_of_fmap. split.
  - intros ([k' v] & -> & H). apply elem_of_map_to_list in H. now exists v.
  - intros [v H]. exists (k, v). split; [reflexivity|].
    now apply elem_of_map_to_list.
Qed.

Lemma fold_insert_lookup {X V} (c : V) (l : list (string * X))
  (m : gmap string V) (k : string) :
  fold_left (fun m kv => <[kv.1 := c]> m) l m !! k
  = if decide (k ∈ l.*1) then Some c else m !! k.
Proof.
  revert m. induction l as [|[k' x] l IH]; intros m.
  - simpl. destruct (decide (k ∈ [])) as [H|H]; [|reflexivity].
    now apply elem_of_nil in H.
  - cbn [fold_left]. rewrite IH, fmap_cons. cbn [fst].
    destruct (decide (k ∈ l.*1)) as [H1|H1];
      destruct (decide (k ∈ k' :: l.*1)) as [H2|H2]; try reflexivity.
    + exfalso. apply H2. now right.
    + apply elem_of_cons in H2 as [->|H2]; [|contradiction].
      apply lookup_insert_eq.
    + rewrite lookup_insert_ne; [reflexivity|].
      intros ->. apply H2. now left.
Qed.

Lemma fold_delete_lookup {V} (l : list string) (m : gmap string V)
  (k : string) :
  fold_left (fun m k' => delete k' m) l m !! k
  = if decide (k ∈ l) then None else m !! k.
Proof.
  revert m. induction l as [|k' l IH]; intros m; simpl.
  - destruct (decide (k ∈ [])) as [H|H]; [|reflexivity].
    now apply elem_of_nil in H.
  - rewrite IH.
    destruct (decide (k ∈ l)) as [H1|H1];
      destruct (decide (k ∈ k' :: l)) as [H2|H2]; try reflexivity.
    + exfalso. apply H2. now right.
    + apply elem_of_cons in H2 as [->|H2]; [|contradiction].
      apply lookup_delete_eq.
    + rewrite lookup_delete_ne; [reflexivity|].
      intros ->. apply H2. now left.
Qed.

(** Resetting every key of a dictionary leaves its keys and sets every
    value. *)
Lemma fold_insert_all {V} (c : V) (m : gmap string V) :
  fold_left (fun m kv => <[kv.1 := c]> m) (map_to_list m) m
  = (fun _ => c) <$> m.
Proof.
  apply map_eq. intros k. rewrite fold_insert_lookup, lookup_fmap.
  destruct (decide (k ∈ (map_to_list m).*1)) as [H|H].
  - apply elem_of_map_to_list_keys in H as [v ->]. reflexivity.
  - destruct (m !! k) as [v|] eqn:E; [|reflexivity].
    exfalso. apply H, elem_of_map_to_list_keys. now exists v.
Qed.

(** Deleting the keys that [seen] lacks keeps the entries of the keys
    that it has. *)
Lemma fold_delete_unseen {V W} (m : gmap string V) (seen : gmap string W) :
  fold_left (fun m k => delete k m) (elements (dom m ∖ dom seen)) m
  = filter (fun kv => kv.1 ∈ dom seen) m.
Proof.
  apply map_eq. intros k. rewrite fold_delete_lookup.
  destruct (decide (k ∈ elements (dom m ∖ dom seen))) as [H|H].
  - apply elem_of_elements, elem_of_difference in H as [_ H].
    symmetry. apply map_lookup_filter_None. right. intros v _. exact H.
  - destruct (m !! k) as [v|] eqn:E.
    + symmetry. apply map_lookup_filter_Some. split; [exact E|]. simpl.
      destruct (decide (k ∈ dom seen)) as [Hin|Hout]; [exact Hin|].
      exfalso. apply H, elem_of_elements, elem_of_difference.
      split; [|exact Hout]. apply elem_of_dom. now exists v.
    + symmetry. apply map_lookup_filter_None. now left.
Qed.

Lemma for_each_modify {A} (step : A -> handler -> handler) l s :
  for_each l tt (fun _ x => modify (step x)) s
  = Some (tt, fold_left (fun s x => step x s) l s).
Proof.
  revert s. induction l as [|x l IH]; intros s; simpl; [reflexivity|].
  unfold bind. simpl. apply IH.
Qed.

(** ** The phases of a tick *)

Lemma timers_fold_del l s :
  timers (fold_left (fun s k => del_timer k s) l s)
  = fold_left (fun m k => delete k m) l (timers s).
Proof. revert s. induction l as [|k l IH]; intros s; simpl; [reflexivity|]. now rewrite IH. Qed.

Lemma counters_fold_del l s :
  counters (fold_left (fun s k => del_counter k s) l s)
  = fold_left (fun m k => delete k m) l (counters s).
Proof. revert s. induction l as [|k l IH]; intros s; simpl; [reflexivity|]. now rewrite IH. Qed.

Lemma sets_fold_del l s :
  sets (fold_left (fun s k => del_set k s) l s)
  = fold_left (fun m k => delete k m) l (sets s).
Proof. revert s. induction l as [|k l IH]; intros s; simpl; [reflexivity|]. now rewrite IH. Qed.

Lemma timers_fold_reset {X} (l : list (string * X)) s :
  timers (fold_left (fun s kv => reset_timer kv.1 s) l s)
  = fold_left (fun m kv => <[kv.1 := []]> m) l (timers s).
Proof. revert s. induction l as [|k l IH]; intros s; simpl; [reflexivity|]. now rewrite IH. Qed.

Lemma counters_fold_reset {X} (l : list (string * X)) s :
  counters (fold_left (fun s kv => reset_counter kv.1 s) l s)
  = fold_left (fun m kv => <[kv.1 := 0]> m) l (counters s).
Proof. revert s. induction l as [|k l IH]; intros s; simpl; [reflexivity|]. now rewrite IH. Qed.

Lemma sets_fold_reset {X} (l : list (string * X)) s :
  sets (fold_left (fun s kv => reset_set kv.1 s) l s)
  = fold_left (fun m kv => <[kv.1 := ∅]> m) l (sets s).
Proof. revert s. induction l as [|k l IH]; intros s; simpl; [reflexivity|]. now rewrite IH. Qed.

Lemma enqueue_timers_steps stime s n s' :
  enqueue_timers cfg stime s = Some (n, s') ->
  exists ps,
    s' = with_queue (queue s ++ ps)
           (fold_left (fun s kv => reset_timer kv.1 s)
              (map_to_list (timers s)) s).
Proof.
  unfold enqueue_timers. intros H.
  apply bind_Some in H as (s0 & s1 & Hget & H). injection Hget as <- <-.
  revert H. apply for_each_steps; [reflexivity|].
  intros acc [k v] s1 b s2 Hb.
  apply bind_Some in Hb as ([] & s3 & H1 & Hb).
  apply emits_enqueue_timer in H1 as (ps & -> & _).
  apply bind_Some in Hb as ([] & s4 & H2 & Hb).
  injection H2 as <-. injection Hb as _ <-. now exists ps.
Qed.

Lemma enqueue_counters_steps stime s n s' :
  enqueue_counters cfg stime s = Some (n, s') ->
  exists ps,
    s' = with_queue (queue s ++ ps)
           (fold_left (fun s kv => reset_counter kv.1 s)
              (map_to_list (counters s)) s).
Proof.
  unfold enqueue_counters. intros H.
  apply bind_Some in H as (s0 & s1 & Hget & H). injection Hget as <- <-.
  revert H. apply for_each_steps; [reflexivity|].
  intros acc [k v] s1 b s2 Hb.
  apply bind_Some in Hb as (value & s3 & H0 & Hb).
  apply try_Some in H0 as [_ ->].
  apply bind_Some in Hb as (rate & s3 & H1 & Hb).
  apply emits_try in H1 as (ps0 & -> & _).
  apply bind_Some in Hb as ([] & s4 & H2 & Hb).
  apply emits_enqueue in H2 as (ps1 & -> & _).
  apply bind_Some in Hb as ([] & s5 & H3 & Hb).
  apply emits_enqueue in H3 as (ps2 & -> & _).
  apply bind_Some in Hb as ([] & s6 & H4 & Hb).
  injection H4 as <-. injection Hb as _ <-. simpl.
  exists (ps0 ++ ps1 ++ ps2). now rewrite !app_assoc.
Qed.

Lemma enqueue_sets_steps stime s n s' :
  enqueue_sets cfg stime s = Some (n, s') ->
  exists ps,
    s' = with_queue (queue s ++ ps)
           (fold_left (fun s kv => reset_set kv.1 s)
              (map_to_list (sets s)) s).
Proof.
  unfold enqueue_sets. intros H.
  apply bind_Some in H as (s0 & s1 & Hget & H). injection Hget as <- <-.
  revert H. apply for_each_steps; [reflexivity|].
  intros acc [k v] s1 b s2 Hb.
  apply bind_Some in Hb as ([] & s3 & H1 & Hb).
  apply emits_enqueue in H1 as (ps & -> & _).
  apply bind_Some in Hb as ([] & s4 & H2 & Hb).
  injection H2 as <-. injection Hb as _ <-. now exists ps.
Qed.

Lemma emits_enqueue_gauges stime : emits (enqueue_gauges cfg stime).
Proof. unfold enqueue_gauges. emits. Qed.

Lemma reap_timers_result flag s :
  when flag
    (let* s := get in
     for_each (elements (dom (timers s) ∖ dom (keys_seen s))) tt
       (fun _ k => modify (del_timer k))) s
  = Some (tt,
          if flag then
            fold_left (fun s k => del_timer k s)
              (elements (dom (timers s) ∖ dom (keys_seen s))) s
          else s).
Proof. destruct flag; [|reflexivity]. apply for_each_modify. Qed.

Lemma reap_counters_result flag s :
  when flag
    (let* s := get in
     for_each (elements (dom (counters s) ∖ dom (keys_seen s))) tt
       (fun _ k => modify (del_counter k))) s
  = Some (tt,
          if flag then
            fold_left (fun s k => del_counter k s)
              (elements (dom (counters s) ∖ dom (keys_seen s))) s
          else s).
Proof. destruct flag; [|reflexivity]. apply for_each_modify. Qed.

Lemma reap_sets_result flag s :
  when flag
    (let* s := get in
     for_each (elements (dom (sets s) ∖ dom (keys_seen s))) tt
       (fun _ k => modify (del_set k))) s
  = Some (tt,
          if flag then
            fold_left (fun s k => del_set k s)
              (elements (dom (sets s) ∖ dom (keys_seen s))) s
          else s).
Proof. destruct flag; [|reflexivity]. apply for_each_modify. Qed.

Lemma reap_timers_spec flag s s2 :
  when flag
    (let* s := get in
     for_each (elements (dom (timers s) ∖ dom (keys_seen s))) tt
       (fun _ k => modify (del_timer k))) s = Some (tt, s2) ->
  timers s2 = reaped flag (timers s) s /\ counters s2 = counters s
  /\ sets s2 = sets s /\ core s2 = core s.
Proof.
  rewrite reap_timers_result. intros H. injection H as <-.
  unfold reaped. destruct flag; [|easy].
  rewrite timers_fold_del, fold_delete_unseen.
  repeat split; try reflexivity;
    now apply (fold_left_preserves _ (fun k s => del_timer k s)).
Qed.

Lemma reap_counters_spec flag s s2 :
  when flag
    (let* s := get in
     for_each (elements (dom (counters s) ∖ dom (keys_seen s))) tt
       (fun _ k => modify (del_counter k))) s = Some (tt, s2) ->
  timers s2 = timers s /\ counters s2 = reaped flag (counters s) s
  /\ sets s2 = sets s /\ core s2 = core s.
Proof.
  rewrite reap_counters_result. intros H. injection H as <-.
  unfold reaped. destruct flag; [|easy].
  rewrite counters_fold_del, fold_delete_unseen.
  repeat split; try reflexivity;
    now apply (fold_left_preserves _ (fun k s => del_counter k s)).
Qed.

Lemma reap_sets_spec flag s s2 :
  when flag
    (let* s := get in
     for_each (elements (dom (sets s) ∖ dom (keys_seen s))) tt
       (fun _ k => modify (del_set k))) s = Some (tt, s2) ->
  timers s2 = timers s /\ counters s2 = counters s
  /\ sets s2 = reaped flag (sets s) s /\ core s2 = core s.
Proof.
  rewrite reap_sets_result. intros H. injection H as <-.
  unfold reaped. destruct flag; [|easy].
  rewrite sets_fold_del, fold_delete_unseen.
  repeat split; try reflexivity;
    now apply (fold_left_preserves _ (fun k s => del_set k s)).
Qed.

Lemma enqueue_timers_spec stime s n s2 :
  enqueue_timers cfg stime s = Some (n, s2) ->
  timers s2 = (fun _ => []) <$> timers s /\ counters s2 = counters s
  /\ sets s2 = sets s /\ core s2 = core s.
Proof.
  intros H. apply enqueue_timers_steps in H as (ps & ->).
  unfold core. simpl. rewrite timers_fold_reset, fold_insert_all.
  repeat split; try reflexivity;
    now rewrite ?(fold_left_preserves _
                    (fun (kv : string * list float) s => reset_timer kv.1 s)).
Qed.

Lemma enqueue_counters_spec stime s n s2 :
  enqueue_counters cfg stime s = Some (n, s2) ->
  timers s2 = timers s /\ counters s2 = (fun _ => 0) <$> counters s
  /\ sets s2 = sets s /\ core s2 = core s.
Proof.
  intros H. apply enqueue_counters_steps in H as (ps & ->).
  unfold core. simpl. rewrite counters_fold_reset, fold_insert_all.
  repeat split; try reflexivity;
    now rewrite ?(fold_left_preserves _
                    (fun (kv : string * Z) s => reset_counter kv.1 s)).
Qed.

Lemma enqueue_sets_spec stime s n s2 :
  enqueue_sets cfg stime s = Some (n, s2) ->
  timers s2 = timers s /\ counters s2 = counters s
  /\ sets s2 = (fun _ => ∅) <$> sets s /\ core s2 = core s.
Proof.
  intros H. apply enqueue_sets_steps in H as (ps & ->).
  unfold core. simpl. rewrite sets_fold_reset, fold_insert_all.
  repeat split; try reflexivity;
    now rewrite ?(fold_left_preserves _
                    (fun (kv : string * gset string) s => reset_set kv.1 s)).
Qed.

Lemma emits_spec {A} (m : M A) s a s2 :
  emits m -> m s = Some (a, s2) ->
  timers s2 = timers s /\ counters s2 = counters s
  /\ sets s2 = sets s /\ core s2 = core s.
Proof. intros Hm H. apply Hm in H as (ps & -> & _). easy. Qed.

Lemma tick_spec stime s s' :
  tick cfg stime s = Some (tt, s') ->
  timers s' = (fun _ => []) <$> reaped (delete_timers cfg) (timers s) s
  /\ counters s' = (fun _ => 0) <$> reaped (delete_counters cfg) (counters s) s
  /\ sets s' = (fun _ => ∅) <$> reaped (delete_sets cfg) (sets s) s
  /\ gauges s' = gauges s
  /\ keys_seen s'
     = filter
         (fun kv =>
            kv.1 ∈ dom (timers s') ∪ dom (counters s') ∪ dom (gauges s')
                   ∪ dom (sets s'))
         (keys_seen s)
  /\ line s' = line s /\ log s' = log s /\ lock s' = false.
Proof.
  unfold tick. intros H.
  apply bind_Some in H as ([] & s1 & H1 & H). injection H1 as <-.
  apply bind_Some in H as ([] & s2 & H2 & H).
  apply reap_timers_spec in H2 as (T2 & C2 & S2 & K2).
  apply bind_Some in H as ([] & s3 & H3 & H).
  apply reap_counters_spec in H3 as (T3 & C3 & S3 & K3).
  apply bind_Some in H as ([] & s4 & H4 & H).
  apply reap_sets_spec in H4 as (T4 & C4 & S4 & K4).
  apply bind_Some in H as (n5 & s5 & H5 & H).
  apply enqueue_timers_spec in H5 as (T5 & C5 & S5 & K5).
  apply bind_Some in H as (s5' & s5'' & Hg & H). injection Hg as <- <-.
  apply bind_Some in H as (n6 & s6 & H6 & H).
  apply enqueue_counters_spec in H6 as (T6 & C6 & S6 & K6).
  apply bind_Some in H as (s6' & s6'' & Hg & H). injection Hg as <- <-.
  apply bind_Some in H as (n7 & s7 & H7 & H).
  apply (emits_spec _ _ _ _ (emits_enqueue_gauges stime)) in H7
    as (T7 & C7 & S7 & K7).
  apply bind_Some in H as (s7' & s7'' & Hg & H). injection Hg as <- <-.
  apply bind_Some in H as (n8 & s8 & H8 & H).
  apply enqueue_sets_spec in H8 as (T8 & C8 & S8 & K8).
  apply bind_Some in H as (s8' & s8'' & Hg & H). injection Hg as <- <-.
  apply bind_Some in H as ([] & s9 & H9 & H).
  apply (emits_spec _ _ _ _ (emits_enqueue _ _ _ _)) in H9
    as (T9 & C9 & S9 & K9).
  apply bind_Some in H as ([] & s10 & H10 & H).
  injection H10 as <-. injection H as <-.
  unfold core, reaped in *. simpl in *.
  injection K2 as G2 KS2 L2 Lg2 _. injection K3 as G3 KS3 L3 Lg3 _.
  injection K4 as G4 KS4 L4 Lg4 _. injection K5 as G5 KS5 L5 Lg5 _.
  injection K6 as G6 KS6 L6 Lg6 _. injection K7 as G7 KS7 L7 Lg7 _.
  injection K8 as G8 KS8 L8 Lg8 _. injection K9 as G9 KS9 L9 Lg9 _.
  rewrite KS3, KS2 in S4. rewrite KS2 in C3.
  rewrite S3, S2 in S4. rewrite C2 in C3.
  assert (ET : timers s9 = timers s5) by congruence.
  assert (EC : counters s9 = counters s6) by congruence.
  assert (EG : gauges s9 = gauges s7) by congruence.
  repeat split.
  - rewrite ET, T5, T4, T3, T2. reflexivity.
  - rewrite EC, C6, C5, C4, C3. reflexivity.
  - rewrite S9, S8, S7, S6, S5, S4. reflexivity.
  - congruence.
  - rewrite ET, EC, EG, S9. f_equal. congruence.
  - congruence.
  - congruence.
Qed.

(** C3. After a flush tick every counter that is left is 0, every timer
    that is left has the empty list, every set that is left is empty, and
    the gauges are what they were when the tick began. *)
Theorem tick_resets_counters_timers_sets (stime : Z) (s s' : handler) :
  tick cfg stime s = Some (tt, s') ->
  (forall k v, counters s' !! k = Some v -> v = 0)
  /\ (forall k v, timers s' !! k = Some v -> v = [])
  /\ (forall k v, sets s' !! k = Some v -> v = ∅)
  /\ gauges s' = gauges s.
Proof.
  intros H. apply tick_spec in H as (HT & HC & HS & HG & _).
  repeat split; [| | |exact HG]; intros k v Hk.
  - rewrite HC, lookup_fmap in Hk.
    destruct (reaped _ _ _ !! k); [now injection Hk|discriminate].
  - rewrite HT, lookup_fmap in Hk.
    destruct (reaped _ _ _ !! k); [now injection Hk|discriminate].
  - rewrite HS, lookup_fmap in Hk.
    destruct (reaped _ _ _ !! k); [now injection Hk|discriminate].
Qed.

(** ** What the sample handlers write *)

Lemma handle_sample_effect key sample s :
  let s' := handle_sample key sample s in
  (exists ms, mutations s' = mutations s ++ ms /\ Forall (sample_write key) ms)
  /\ keys_seen s' = keys_seen s /\ lock s' = lock s \/
  (exists ms, mutations s' = mutations s ++ ms /\ Forall (sample_write key) ms)
  /\ keys_seen s' = keys_seen s /\ lock s' = false.
Proof.
  assert (W : forall t, t <> KeysSeen ->
            sample_write key (Mutation t (Some key) true)) by now intros.
  unfold handle_sample.
  destruct (negb (PyStr.contains "|" sample)).
  { left. split; [exists []|easy]. now rewrite app_nil_r. }
  destruct (String.eqb _ "ms").
  { unfold handle_timer. destruct (float_or_0 _).
    - right. split; [|easy]. eexists [_]. split; [reflexivity|].
      repeat constructor; easy.
    - left. split; [exists []|easy]. now rewrite app_nil_r. }
  destruct (String.eqb _ "g").
  { unfold handle_gauge. destruct (float_of_string _).
    - right. unfold with_lock; simpl.
      destruct (gauges s !! key); [destruct (signed _)|]; (split; [|easy]);
        eexists [_]; (split; [reflexivity|]); repeat constructor; easy.
    - left. split; [exists []|easy]. now rewrite app_nil_r. }
  destruct (String.eqb _ "s").
  { right. unfold handle_set, with_lock; simpl.
    destruct (sets s !! key); simpl; (split; [|easy]).
    - eexists [_]. split; [reflexivity|]. repeat constructor; easy.
    - eexists [_; _]. split; [cbv beta iota zeta delta [mutations set_sets set_counters set_lock mutated lock]; now rewrite <- app_assoc|].
      repeat constructor; easy. }
  unfold handle_counter. destruct (counter_value _).
  - right. unfold with_lock; simpl.
    destruct (counters s !! key); simpl; (split; [|easy]).
    + eexists [_]. split; [reflexivity|]. repeat constructor; easy.
    + eexists [_; _]. split; [cbv beta iota zeta delta [mutations set_sets set_counters set_lock mutated lock]; now rewrite <- app_assoc|].
      repeat constructor; easy.
  - left. split; [exists []|easy]. now rewrite app_nil_r.
Qed.

Lemma handle_sample_mutations key sample s :
  exists ms,
    mutations (handle_sample key sample s) = mutations s ++ ms
    /\ Forall (sample_write key) ms.
Proof. destruct (handle_sample_effect key sample s) as [[H _]|[H _]]; exact H. Qed.

Lemma handle_sample_live key sample s :
  live (handle_sample key sample s) ⊆ live s ∪ {[key]}.
Proof.
  unfold handle_sample, live.
  destruct (negb (PyStr.contains "|" sample)); [simpl; set_solver|].
  destruct (String.eqb _ "ms").
  { unfold handle_timer. destruct (float_or_0 _); simpl;
      rewrite ?dom_insert_L; set_solver. }
  destruct (String.eqb _ "g").
  { unfold handle_gauge. destruct (float_of_string _); simpl; [|set_solver].
    destruct (gauges s !! key); [destruct (signed _)|]; simpl;
      rewrite ?dom_insert_L; set_solver. }
  destruct (String.eqb _ "s").
  { unfold handle_set. simpl. destruct (sets s !! key); simpl;
      rewrite ?dom_insert_L; set_solver. }
  unfold handle_counter. destruct (counter_value _); simpl; [|set_solver].
  destruct (counters s !! key); simpl; rewrite ?dom_insert_L; set_solver.
Qed.

Lemma handle_samples_mutations key bits s :
  exists ms,
    mutations (fold_left (fun s sample => handle_sample key sample s) bits s)
    = mutations s ++ ms
    /\ Forall (sample_write key) ms.
Proof.
  revert s. induction bits as [|b bits IH]; intros s; simpl.
  - exists []. now rewrite app_nil_r.
  - destruct (IH (handle_sample key b s)) as (ms2 & -> & H2).
    destruct (handle_sample_mutations key b s) as (ms1 & -> & H1).
    exists (ms1 ++ ms2). rewrite app_assoc. split; [reflexivity|].
    now apply Forall_app.
Qed.

Lemma handle_samples_live key bits s :
  live (fold_left (fun s sample => handle_sample key sample s) bits s)
  ⊆ live s ∪ {[key]}.
Proof.
  revert s. induction bits as [|b bits IH]; intros s; simpl; [set_solver|].
  etrans; [apply IH|]. pose proof (handle_sample_live key b s). set_solver.
Qed.

(** A line writes [keys_seen] under its key, with the lock as it finds it,
    and then the dictionaries of samples under that key. *)
Lemma handle_line_effect line s :
  let s' := handle_line cfg line s in
  exists key ms,
    mutations s' = mutations s ++ Mutation KeysSeen (Some key) (lock s) :: ms
    /\ Forall (sample_write key) ms
    /\ dom (keys_seen s') = {[key]} ∪ dom (keys_seen s)
    /\ live s' ⊆ live s ∪ {[key]}.
Proof.
  unfold handle_line. destruct (handle_tags line) as [body tags].
  rewrite (split_unfold ":" body). unfold handle_key.
  set (key := sanitize (before ":" body)).
  set (s1 := set_keys_seen _ _ _).
  exists key.
  destruct (if PyStr.contains ":" body then _ else _) as [|b bits].
  - exists []. simpl. rewrite dom_insert_L. repeat split; [constructor|].
    unfold live. simpl. set_solver.
  - destruct (handle_samples_mutations key (b :: bits) s1) as (ms & -> & Hms).
    exists ms. split.
    { subst s1. cbv beta iota zeta delta [mutations set_keys_seen mutated].
      now rewrite <- app_assoc. }
    split; [exact Hms|]. split.
    + rewrite handle_samples_keys_seen. subst s1; simpl. apply dom_insert_L.
    + etrans; [apply handle_samples_live|]. subst s1. unfold live. simpl.
      set_solver.
Qed.




(** ** Keys with an entry, and [keys_seen] *)

Lemma reaped_dom {V} flag (m : gmap string V) s : dom (reaped flag m s) ⊆ dom m.
Proof. unfold reaped. destruct flag; [apply dom_filter_subseteq|reflexivity]. Qed.

Lemma handle_line_live line s :
  live s ⊆ dom (keys_seen s) ->
  live (handle_line cfg line s) ⊆ dom (keys_seen (handle_line cfg line s)).
Proof.
  intros H. destruct (handle_line_effect line s) as (key & ms & _ & _ & Hk & Hl).
  rewrite Hk. set_solver.
Qed.

Lemma handle_live data s :
  live s ⊆ dom (keys_seen s) ->
  live (handle cfg data s) ⊆ dom (keys_seen (handle cfg data s)).
Proof.
  unfold handle. generalize (PyStr.splitlines data). intros lines.
  revert s. induction lines as [|l lines IH]; intros s H; simpl; [exact H|].
  apply IH. destruct (String.eqb _ _); [exact H|].
  now apply (handle_line_live l (set_line l s)).
Qed.

Lemma load_gauges_live fs :
  live (load_gauges cfg fs init) ⊆ dom (keys_seen (load_gauges cfg fs init)).
Proof.
  unfold load_gauges.
  destruct (negb _); [unfold live; simpl; set_solver|].
  destruct (gauges_file fs); [|unfold live; simpl; set_solver].
  destruct (read_json_file fs); [|unfold live; simpl; set_solver].
  unfold live. simpl. rewrite !dom_union_L, !dom_fmap_L. set_solver.
Qed.

Lemma tick_live stime s s' :
  tick cfg stime s = Some (tt, s') ->
  live s ⊆ dom (keys_seen s) -> live s' ⊆ dom (keys_seen s').
Proof.
  intros H Hinv. apply tick_spec in H as (HT & HC & HS & HG & HK & _).
  assert (Hsub : live s' ⊆ live s).
  { unfold live. rewrite HT, HC, HS, HG, !dom_fmap_L.
    pose proof (reaped_dom (delete_timers cfg) (timers s) s).
    pose proof (reaped_dom (delete_counters cfg) (counters s) s).
    pose proof (reaped_dom (delete_sets cfg) (sets s) s).
    set_solver. }
  intros k Hk. assert (Hs : k ∈ dom (keys_seen s)) by set_solver.
  apply elem_of_dom in Hs as [v Hv]. apply elem_of_dom. exists v.
  rewrite HK. apply map_lookup_filter_Some. split; [exact Hv|exact Hk].
Qed.

Lemma reaped_all_seen {V} flag (m : gmap string V) s :
  dom m ⊆ dom (keys_seen s) -> reaped flag m s = m.
Proof.
  intros H. unfold reaped. destruct flag; [|reflexivity].
  apply map_filter_id. intros k v Hk. simpl. apply H, elem_of_dom. now exists v.
Qed.

(** ** Saving and loading the gauges *)


(** ** The statistics of a timer *)

Lemma fsort_length (v : list float) : length (fsort v) = length v.
Proof. symmetry. apply Permutation_length, fsort_perm. Qed.

Lemma index_nonneg {A} (l : list A) (i : Z) :
  0 <= i -> PyStr.index l i = nth_error l (Z.to_nat i).
Proof.
  intros H. unfold PyStr.index.
  destruct (0 <=? i) eqn:E; [reflexivity|]. apply Z.leb_gt in E. lia.
Qed.

Lemma cumulative_nth f prev rest i :
  (i < length rest)%nat ->
  nth_error (cumulative f prev rest) i
  = Some (fold_left (fun acc value => fadd (f value) acc)
            (take (S i) rest) prev).
Proof.
  revert prev i. induction rest as [|x rest IH]; intros prev i Hi; simpl in *.
  - lia.
  - destruct i as [|i]; simpl.
    + now rewrite ?take_0.
    + rewrite IH by lia. reflexivity.
Qed.

(** Element [i] of [cumulative_values] is the sum of the first [i + 1]
    sorted samples. *)
Lemma cumulative_sums_nth f v i :
  (i < length v)%nat ->
  nth_error (cumulative_sums f v) i = Some (total f (take (S i) v)).
Proof.
  destruct v as [|x v]; simpl; [lia|]. intros Hi.
  destruct i as [|i]; simpl.
  - now rewrite ?take_0.
  - now rewrite cumulative_nth by lia.
Qed.

Lemma cumulative_length f prev rest :
  length (cumulative f prev rest) = length rest.
Proof.
  revert prev. induction rest as [|x rest IH]; intros prev; simpl;
    [reflexivity|]. now rewrite IH.
Qed.

Lemma cumulative_sums_length f v : length (cumulative_sums f v) = length v.
Proof.
  destruct v as [|x v]; simpl; [reflexivity|]. now rewrite cumulative_length.
Qed.

(** What one turn of the loop over the thresholds does with the sorted
    samples [sorted], by the index of the threshold [p]. *)
Lemma enqueue_timer_threshold_run stime k (sorted : list float) p idx s :
  thresh_index p (Z.of_nat (length sorted)) = Some idx ->
  let square := fun value => fmul value value in
  let run :=
    enqueue_timer_threshold cfg stime k sorted (cumulative_sums id sorted)
      (cumulative_sums square sorted) p s in
  (idx = 0 -> run = Some (tt, s))
  /\ (Z.of_nat (length sorted) < idx -> run = None)
  /\ (0 < idx <= Z.of_nat (length sorted) ->
      match ftrunc p with
      | None => run = None
      | Some t =>
          exists upper,
            nth_error sorted (Z.to_nat (idx - 1)) = Some upper
            /\ let smallest := take (Z.to_nat idx) sorted in
               run
               = Some (tt,
                       with_queue
                         (queue s
                          ++ threshold_points cfg stime s k t idx
                               (total id smallest) upper
                               (total square smallest))
                         s)
      end).
Proof.
  intros Hidx square run. subst run.
  unfold enqueue_timer_threshold. rewrite Hidx.
  split; [|split].
  - intros ->. reflexivity.
  - intros Hgt. unfold bind at 1. simpl.
    destruct (idx =? 0) eqn:E0; [apply Z.eqb_eq in E0; lia|].
    rewrite index_nonneg by lia.
    assert (E : nth_error (cumulative_sums id sorted) (Z.to_nat (idx - 1))
                = None).
    { apply nth_error_None. rewrite cumulative_sums_length. lia. }
    unfold bind. now rewrite E.
  - intros [Hpos Hle].
    assert (Hn : (Z.to_nat (idx - 1) < length sorted)%nat) by lia.
    assert (E0 : (idx =? 0) = false) by (apply Z.eqb_neq; lia).
    destruct (ftrunc p) as [t|] eqn:Ht.
    2:{ unfold bind at 1. simpl. rewrite E0, index_nonneg by lia.
        rewrite cumulative_sums_nth by exact Hn.
        reflexivity. }
    destruct (nth_error sorted (Z.to_nat (idx - 1))) as [upper|] eqn:Hu;
      [|apply nth_error_None in Hu; lia].
    exists upper. split; [reflexivity|].
    unfold bind at 1. simpl. rewrite E0.
    rewrite !index_nonneg by lia.
    rewrite !cumulative_sums_nth by exact Hn.
    replace (S (Z.to_nat (idx - 1))) with (Z.to_nat idx) by lia.
    rewrite Hu.
    unfold truediv. rewrite float_of_Z_nonzero by lia.
    unfold threshold_points, timer_point, gate.
    destruct s; destruct (statsd_timer_mean cfg),
      (statsd_timer_upper cfg), (statsd_timer_count cfg),
      (statsd_timer_sum cfg), (statsd_timer_sum_squares cfg);
      cbv [bind try when enqueue modify pure put with_queue queue timers
           gauges counters sets keys_seen line log lock mutations
           metadata_of];
      rewrite <- ?app_assoc; simpl; rewrite ?app_nil_r; reflexivity.
Qed.

(** ** The names of the statistics of a timer *)

Lemma emits_forall_bind {A B} (P : point -> Prop) (m : M A) (k : A -> M B) :
  emits_with (Forall P) m -> (forall a, emits_with (Forall P) (k a)) ->
  emits_with (Forall P) (bind m k).
Proof.
  intros Hm Hk. apply (emits_with_bind _ _ _ _ _ Hm Hk).
  intros p1 p2 H1 H2. now apply Forall_app.
Qed.

Lemma emits_forall_when (P : point -> Prop) flag body :
  emits_with (Forall P) body -> emits_with (Forall P) (when flag body).
Proof. intros H. destruct flag; [exact H|]. now apply emits_with_pure. Qed.

Lemma emits_forall_enqueue (P : point -> Prop) name value stime key :
  (forall md, P (Point name value stime md)) ->
  emits_with (Forall P) (enqueue cfg name value stime key).
Proof. intros H. apply emits_with_enqueue. intros md. now repeat constructor. Qed.

Lemma emits_threshold_names stime k v cv csv pct_thresh :
  emits_with (Forall (fun p => threshold_name cfg k (p_name p)))
    (enqueue_timer_threshold cfg stime k v cv csv pct_thresh).
Proof.
  assert (N : forall suffix t (value : stat) md,
    In suffix [".mean_"; ".upper_"; ".count_"; ".sum_"; ".sum_squares_"] ->
    threshold_name cfg k
      (p_name (Point (name_timer cfg +:+ k +:+ suffix +:+ PyStr.str_of_Z t)
                 value stime md))).
  { intros suffix t value md Hin. now exists suffix, t. }
  unfold enqueue_timer_threshold.
  apply emits_forall_bind; [now apply emits_with_try|]. intros idx.
  destruct (idx =? 0); [now apply emits_with_pure|].
  apply emits_forall_bind; [now apply emits_with_try|]. intros vsum.
  apply emits_forall_bind; [now apply emits_with_try|]. intros t.
  repeat first
    [ apply emits_forall_enqueue; intros md; apply N; simpl; tauto
    | apply emits_with_try; constructor
    | apply emits_forall_when
    | apply emits_forall_bind; [|intros] ].
Qed.

Lemma emits_names_bind {A B} ns1 ns2 (m : M A) (k : A -> M B) :
  emits_with (names_are ns1) m -> (forall a, emits_with (names_are ns2) (k a)) ->
  emits_with (names_are (ns1 ++ ns2)) (bind m k).
Proof.
  intros Hm Hk. apply (emits_with_bind _ _ _ _ _ Hm Hk).
  unfold names_are. intros p1 p2 <- <-. apply map_app.
Qed.

Lemma emits_names_try {A} (o : option A) : emits_with (names_are []) (try o).
Proof. now apply emits_with_try. Qed.

Lemma emits_names_enqueue name value stime key :
  emits_with (names_are [name]) (enqueue cfg name value stime key).
Proof. now apply emits_with_enqueue. Qed.

Lemma emits_names_gate n flag body :
  emits_with (names_are [n]) body ->
  emits_with (names_are (gate flag n)) (when flag body).
Proof. intros H. destruct flag; [exact H|]. now apply emits_with_pure. Qed.

(** One statistic: values that are looked up or computed, and then one
    tuple. *)
Lemma emits_names_nil_bind {A B} ns (m : M A) (k : A -> M B) :
  emits_with (names_are []) m ->
  (forall a, emits_with (names_are ns) (k a)) ->
  emits_with (names_are ns) (bind m k).
Proof. intros Hm Hk. apply (emits_names_bind [] ns); assumption. Qed.

Lemma emits_totals_names stime k v cv csv vmin vmax :
  emits_with (names_are (totals_names cfg k))
    (enqueue_timer_totals cfg stime k v cv csv vmin vmax).
Proof.
  unfold enqueue_timer_totals, totals_names.
  apply emits_names_nil_bind; [apply emits_names_try|]. intros vsum.
  apply emits_names_nil_bind; [apply emits_names_try|]. intros mean.
  repeat (apply emits_names_bind; [|intros _]);
    apply emits_names_gate;
    repeat first
      [ apply emits_names_enqueue
      | apply emits_names_try
      | match goal with
        | |- emits_with _ (if ?c then _ else _) => destruct c
        end
      | apply emits_names_nil_bind; [|intros] ].
Qed.

Lemma enqueue_timer_empty stime k s :
  enqueue_timer cfg stime k [] s
  = Some (tt,
          with_queue
            (queue s
             ++ [timer_point cfg stime k s ".count" (SInt 0);
                 timer_point cfg stime k s ".count_ps"
                   (SFloat (float_of_Z 0))])
            s).
Proof.
  destruct s. cbv [enqueue_timer bind enqueue modify put with_queue queue
    timers gauges counters sets keys_seen line log lock mutations
    timer_point metadata_of].
  now rewrite <- app_assoc.
Qed.

Lemma enqueue_timer_names stime k v :
  v <> [] ->
  emits_with
    (fun ps => exists p1 p2,
       ps = p1 ++ p2
       /\ Forall (fun p => threshold_name cfg k (p_name p)) p1
       /\ names_are (totals_names cfg k) p2)
    (enqueue_timer cfg stime k v).
Proof.
  intros Hv. destruct v as [|x v]; [contradiction|]. clear Hv.
  unfold enqueue_timer. generalize (fsort (x :: v)). intros sorted.
  intros s a s' H.
  apply bind_Some in H as (vmin & s1 & H1 & H).
  apply try_Some in H1 as [_ ->].
  apply bind_Some in H as (vmax & s1 & H1 & H).
  apply try_Some in H1 as [_ ->].
  apply bind_Some in H as ([] & s1 & H1 & H).
  apply (emits_with_for_each
           (Forall (fun p => threshold_name cfg k (p_name p)))) in H1
    as (p1 & -> & HF);
    [|constructor|intros ? ? ? ?; now apply Forall_app
     |intros; apply emits_threshold_names].
  apply emits_totals_names in H as (p2 & -> & HN).
  exists (p1 ++ p2). simpl. rewrite app_assoc. split; [reflexivity|].
  now exists p1, p2.
Qed.

Lemma append_cons c (a b : string) : String c a +:+ b = String c (a +:+ b).
Proof. reflexivity. Qed.

Lemma append_nil (b : string) : "" +:+ b = b.
Proof. reflexivity. Qed.

Lemma timer_name_inj k (a b : string) :
  name_timer cfg +:+ k +:+ a = name_timer cfg +:+ k +:+ b -> a = b.
Proof. intros H. now apply append_inv_head, append_inv_head in H. Qed.

Lemma str_of_Z_not_ps t : PyStr.str_of_Z t <> "ps".
Proof.
  unfold PyStr.str_of_Z, NilZero.string_of_int, NilZero.string_of_uint.
  destruct (Z.to_int t) as [d|d]; [destruct d|]; simpl; discriminate.
Qed.

Lemma not_threshold_count k :
  ~ threshold_name cfg k (name_timer cfg +:+ k +:+ ".count")
  /\ ~ threshold_name cfg k (name_timer cfg +:+ k +:+ ".count_ps").
Proof.
  split; intros (suffix & t & E & Hin); apply timer_name_inj in E;
    simpl in Hin; pose proof (str_of_Z_not_ps t);
    repeat (destruct Hin as [<-|Hin]); try contradiction;
    rewrite ?append_cons, ?append_nil in E; simplify_eq.
Qed.

Lemma In_gate {A} flag (x y : A) : In x (gate flag y) <-> flag = true /\ x = y.
Proof.
  unfold gate. destruct flag; simpl; [|easy].
  split; [intros [->|[]]; easy|intros [_ ->]; now left].
Qed.

Lemma totals_names_count k :
  (In (name_timer cfg +:+ k +:+ ".count") (totals_names cfg k)
   <-> statsd_timer_count cfg = true)
  /\ (In (name_timer cfg +:+ k +:+ ".count_ps") (totals_names cfg k)
      <-> statsd_timer_count_ps cfg = true).
Proof.
  unfold totals_names. rewrite !in_app_iff, !In_gate.
  split; (split; [|tauto]);
    intros H; repeat (destruct H as [[Hf E]|H]; [|try destruct H as [Hf E]]);
    try (apply timer_name_inj in E; discriminate E); exact Hf.
Qed.

(** For a key with samples, a tuple named [count] is put if and only if
    [timer_count] is set, and one named [count_ps] if and only if
    [timer_count_ps] is set. *)
Lemma enqueue_timer_count_gated stime k v s s' :
  v <> [] ->
  enqueue_timer cfg stime k v s = Some (tt, s') ->
  exists ps,
    s' = with_queue (queue s ++ ps) s
    /\ ((exists p, In p ps /\ p_name p = name_timer cfg +:+ k +:+ ".count")
        <-> statsd_timer_count cfg = true)
    /\ ((exists p,
           In p ps /\ p_name p = name_timer cfg +:+ k +:+ ".count_ps")
        <-> statsd_timer_count_ps cfg = true).
Proof.
  intros Hv H.
  apply (enqueue_timer_names stime k v Hv) in H
    as (ps & -> & p1 & p2 & -> & HF & HN).
  exists (p1 ++ p2). split; [reflexivity|].
  destruct (not_threshold_count k) as [N1 N2].
  destruct (totals_names_count k) as [T1 T2].
  unfold names_are in HN. rewrite Forall_forall in HF.
  assert (G : forall n, ~ threshold_name cfg k n ->
            (exists p, In p (p1 ++ p2) /\ p_name p = n)
            <-> In n (totals_names cfg k)).
  { intros n Hn. rewrite <- HN, in_map_iff. split.
    - intros (p & Hin & E). apply in_app_iff in Hin as [Hin|Hin].
      + exfalso. apply Hn. rewrite <- E. apply HF.
        now apply list_elem_of_In.
      + now exists p.
    - intros (p & E & Hin). exists p. split; [|exact E].
      apply in_app_iff. now right. }
  split; [rewrite (G _ N1); exact T1|rewrite (G _ N2); exact T2].
Qed.

(** ** The tuples of the timers, key by key *)

(** What [enqueue_timers] puts for a key with the samples [v], not empty:
    one block of tuples per threshold, in the order of the thresholds,
    and then the statistics of all the samples. For a threshold with the
    index [idx], the block is empty when [idx] is 0; when [idx] is above
    0 it is at most the number of samples, and the block has the
    statistics of the [idx] smallest samples. *)
Lemma enqueue_timer_blocks stime k v s s' :
  v <> [] ->
  enqueue_timer cfg stime k v s = Some (tt, s') ->
  let sorted := fsort v in
  let count := Z.of_nat (length v) in
  let square := fun value => fmul value value in
  exists tblocks totals,
    s' = with_queue (queue s ++ concat tblocks ++ totals) s
    /\ Forall2
         (fun p tblock =>
            exists idx,
              thresh_index p count = Some idx /\ idx <= count
              /\ (idx = 0 -> tblock = [])
              /\ (0 < idx ->
                  exists t upper,
                    ftrunc p = Some t
                    /\ nth_error sorted (Z.to_nat (idx - 1)) = Some upper
                    /\ let smallest := take (Z.to_nat idx) sorted in
                       tblock
                       = threshold_points cfg stime s k t idx
                           (total id smallest) upper (total square smallest)))
         (statsd_percentile_thresholds cfg) tblocks.
Proof.
  intros Hv H sorted count square.
  assert (Hlen : Z.of_nat (length sorted) = count)
    by (unfold sorted, count; now rewrite fsort_length).
  destruct v as [|x v]; [contradiction|]. clear Hv.
  unfold enqueue_timer in H. fold sorted in H.
  apply bind_Some in H as (vmin & s1 & H1 & H).
  apply try_Some in H1 as [_ ->].
  apply bind_Some in H as (vmax & s1 & H1 & H).
  apply try_Some in H1 as [_ ->].
  apply bind_Some in H as ([] & s1 & H1 & H).
  apply (for_each_blocks
           (fun p tblock =>
              exists idx,
                thresh_index p count = Some idx /\ idx <= count
                /\ (idx = 0 -> tblock = [])
                /\ (0 < idx ->
                    exists t upper,
                      ftrunc p = Some t
                      /\ nth_error sorted (Z.to_nat (idx - 1)) = Some upper
                      /\ tblock
                         = threshold_points cfg stime s k t idx
                             (total id (take (Z.to_nat idx) sorted)) upper
                             (total square (take (Z.to_nat idx) sorted))))
           (fun s0 => keys_seen s0 = keys_seen s) (fun _ s0 => s0)) in H1
    as (tblocks & -> & HF); [|reflexivity|easy|easy| |reflexivity].
  - rewrite fold_left_id in H.
    apply emits_enqueue_timer_totals in H as (totals & -> & _).
    exists tblocks, totals. split; [|exact HF].
    simpl. now rewrite app_assoc.
  - intros [] p s0 [] s2 HP Hrun.
    pose proof (emits_enqueue_timer_threshold _ _ _ _ _ _ _ _ _ Hrun)
      as (tblock & -> & _).
    exists tblock. split; [reflexivity|].
    destruct (thresh_index p count) as [idx|] eqn:Hidx.
    2:{ unfold enqueue_timer_threshold in Hrun. rewrite Hlen, Hidx in Hrun.
        discriminate Hrun. }
    exists idx. split; [reflexivity|].
    rewrite <- Hlen in Hidx.
    destruct (enqueue_timer_threshold_run stime k sorted p idx s0 Hidx)
      as (R0 & Rgt & Rin).
    rewrite Hlen in Rgt, Rin.
    assert (Hle : idx <= count).
    { destruct (Z_lt_le_dec count idx) as [Hgt|]; [|assumption].
      rewrite (Rgt Hgt) in Hrun. discriminate Hrun. }
    split; [exact Hle|]. split.
    + intros E0. rewrite (R0 E0) in Hrun. injection Hrun as Hrun.
      rewrite (with_queue_nil s0) in Hrun at 1.
      apply with_queue_inj in Hrun. now subst.
    + intros Hpos. specialize (Rin (conj Hpos Hle)).
      destruct (ftrunc p) as [t|]; [|rewrite Rin in Hrun; discriminate Hrun].
      destruct Rin as (upper & Hu & Rin). exists t, upper.
      split; [reflexivity|]. split; [exact Hu|].
      rewrite Rin in Hrun. injection Hrun as Hrun.
      apply app_inv_head in Hrun. subst tblock.
      unfold threshold_points, timer_point.
      now rewrite (metadata_of_keys_seen (Some k) s0 s HP).
Qed.

Lemma threshold_points_keys_seen stime k t idx vsum vthresh vsum_squares
  (a b : handler) :
  keys_seen a = keys_seen b ->
  threshold_points cfg stime a k t idx vsum vthresh vsum_squares
  = threshold_points cfg stime b k t idx vsum vthresh vsum_squares.
Proof.
  intros H. unfold threshold_points, timer_point.
  now rewrite (metadata_of_keys_seen (Some k) a b H).
Qed.

(** [enqueue_timers] puts one block of tuples per key, in the order of the
    dictionary: what holds of the tuples that [enqueue_timer] puts for a
    key, in any state with the [keys_seen] of [s], holds of its block. *)
Lemma enqueue_timers_blocks (R : string * list float -> list point -> Prop)
  stime s n s' :
  (forall k v s0 s1,
     keys_seen s0 = keys_seen s ->
     enqueue_timer cfg stime k v s0 = Some (tt, s1) ->
     exists block, s1 = with_queue (queue s0 ++ block) s0 /\ R (k, v) block) ->
  enqueue_timers cfg stime s = Some (n, s') ->
  exists blocks,
    s' = with_queue (queue s ++ concat blocks)
           (fold_left (fun s kv => reset_timer kv.1 s)
              (map_to_list (timers s)) s)
    /\ Forall2 R (map_to_list (timers s)) blocks.
Proof.
  intros HR H. unfold enqueue_timers in H.
  apply bind_Some in H as (s0 & s1 & Hget & H). injection Hget as <- <-.
  revert H.
  apply (for_each_blocks R (fun s0 => keys_seen s0 = keys_seen s)
           (fun kv => reset_timer kv.1)); try easy.
  intros acc [k v] s0 b s2 HP Hb.
  apply bind_Some in Hb as ([] & s3 & H1 & Hb).
  apply (HR k v s0 s3 HP) in H1 as (block & -> & Hblock).
  apply bind_Some in Hb as ([] & s4 & H2 & Hb).
  injection H2 as <-. injection Hb as _ <-. now exists block.
Qed.

(** C4, as the code has it. When [enqueue_timers] returns, it has put one
    block of tuples per timer key, in the order of the dictionary. For a
    key with samples [v], not empty, the block has one part per
    configured threshold [p], in their order, and then the statistics of
    all the samples. With [sorted] the samples as [v.sort()] leaves them
    (a rearrangement of [v], ascending when no sample is a NaN) and
    [idx = floor(p / 100 * count)]: [idx] is at most [count]; the part of
    [p] is empty when [idx] is 0; and when [idx] is above 0 the part is,
    each under its enable flag, [mean_<p>], [upper_<p>] with element
    [idx - 1] of [sorted], [count_<p>] with [idx], [sum_<p>] with the sum
    of the first [idx] elements of [sorted], and [sum_squares_<p>]. *)
Theorem timer_threshold_statistics
  (stime : Z) (s : handler) (n : Z) (s' : handler) :
  enqueue_timers cfg stime s = Some (n, s') ->
  exists blocks,
    queue s' = queue s ++ concat blocks
    /\ Forall2
         (fun kv block =>
            kv.2 <> [] ->
            let sorted := fsort kv.2 in
            let count := Z.of_nat (length kv.2) in
            let square := fun value => fmul value value in
            Permutation kv.2 sorted
            /\ (Forall (fun x => fnan x = false) kv.2 ->
                Sorted (fun x y => fltb y x = false) sorted)
            /\ exists parts totals,
                 block = concat parts ++ totals
                 /\ Forall2
                      (fun p part =>
                         exists idx,
                           thresh_index p count = Some idx /\ idx <= count
                           /\ (idx = 0 -> part = [])
                           /\ (0 < idx ->
                               exists t upper,
                                 ftrunc p = Some t
                                 /\ nth_error sorted (Z.to_nat (idx - 1))
                                    = Some upper
                                 /\ let smallest :=
                                      take (Z.to_nat idx) sorted in
                                    part
                                    = threshold_points cfg stime s kv.1 t idx
                                        (total id smallest) upper
                                        (total square smallest)))
                      (statsd_percentile_thresholds cfg) parts)
         (map_to_list (timers s)) blocks.
Proof.
  intros H.
  apply (enqueue_timers_blocks
           (fun kv block =>
              kv.2 <> [] ->
              Permutation kv.2 (fsort kv.2)
              /\ (Forall (fun x => fnan x = false) kv.2 ->
                  Sorted (fun x y => fltb y x = false) (fsort kv.2))
              /\ exists parts totals,
                   block = concat parts ++ totals
                   /\ Forall2
                        (fun p part =>
                           exists idx,
                             thresh_index p (Z.of_nat (length kv.2)) = Some idx
                             /\ idx <= Z.of_nat (length kv.2)
                             /\ (idx = 0 -> part = [])
                             /\ (0 < idx ->
                                 exists t upper,
                                   ftrunc p = Some t
                                   /\ nth_error (fsort kv.2)
                                        (Z.to_nat (idx - 1))
                                      = Some upper
                                   /\ part
                                      = threshold_points cfg stime s kv.1 t
                                          idx
                                          (total id
                                             (take (Z.to_nat idx)
                                                (fsort kv.2)))
                                          upper
                                          (total
                                             (fun value => fmul value value)
                                             (take (Z.to_nat idx)
                                                (fsort kv.2)))))
                        (statsd_percentile_thresholds cfg) parts)) in H
    as (blocks & -> & HF).
  { exists blocks. split; [reflexivity|exact HF]. }
  intros k v s0 s1 HP Hrun.
  pose proof (emits_enqueue_timer _ _ _ _ _ _ Hrun) as (block & -> & _).
  exists block. split; [reflexivity|]. simpl. intros Hv.
  split; [apply fsort_perm|]. split; [apply fsort_sorted|].
  destruct (enqueue_timer_blocks stime k v s0 _ Hv Hrun)
    as (parts & totals & E & HF).
  apply with_queue_inj in E. exists parts, totals. split; [exact E|].
  eapply Forall2_impl; [exact HF|]. simpl.
  intros p part (idx & Hidx & Hle & H0 & Hpos).
  exists idx. split; [exact Hidx|]. split; [exact Hle|].
  split; [exact H0|]. intros Hp.
  destruct (Hpos Hp) as (t & upper & Ht & Hu & ->).
  exists t, upper. split; [exact Ht|]. split; [exact Hu|].
  now apply threshold_points_keys_seen.
Qed.

(** ** Further properties of the parser *)

(** A key made of the characters [A-Za-z_\-0-9.] only is its own sanitized
    key. *)
Theorem sanitize_key_chars_unchanged (key : string) :
  PyStr.all key_char key = true -> sanitize key = key.
Proof.
  intros H. unfold sanitize.
  rewrite (sub_spaces_key_chars _ false H), (sub_slash_key_chars _ H).
  now apply sub_other_key_chars_id.
Qed.

(** Every line, with good samples or not, sets [keys_seen] at its
    sanitized key to its tags merged with the default metadata, and
    leaves the other keys: the last line for a key wins. *)
Theorem handle_line_keys_seen (line : string) (s : handler) :
  keys_seen (handle_line cfg line s)
  = <[sanitize (before ":" (handle_tags line).1)
      := coalesce cfg (handle_tags line).2]> (keys_seen s).
Proof.
  unfold handle_line. destruct (handle_tags line) as [body tags]. simpl.
  rewrite (split_unfold ":" body). unfold handle_key.
  destruct (if PyStr.contains ":" body then _ else _) as [|b bits];
    [reflexivity|].
  now rewrite handle_samples_keys_seen.
Qed.

(** The tags of a line are merged under the default metadata: a tag that
    the default metadata has takes its value from there, any other tag
    keeps the value of the line. *)
Theorem coalesce_default_wins (tags : meta) :
  exists merged,
    coalesce cfg (Some tags) = Some merged
    /\ forall k,
         merged !! k
         = match default ∅ (statsd_metadata cfg) !! k with
           | Some v => Some v
           | None => tags !! k
           end.
Proof.
  unfold coalesce, truthy.
  destruct (statsd_metadata cfg) as [m|]; simpl.
  - destruct (decide (m = ∅)) as [->|Hne].
    + exists tags. split; [reflexivity|]. intros k. now rewrite lookup_empty.
    + exists (m ∪ tags). split; [reflexivity|]. intros k.
      rewrite lookup_union. destruct (m !! k), (tags !! k); reflexivity.
  - exists tags. split; [reflexivity|]. intros k. now rewrite lookup_empty.
Qed.

(** A line without "#" and without ":" has no sample: it is logged as a
    bad line and leaves the timers, gauges, counters and sets, but its
    key is recorded in [keys_seen] all the same. *)
Theorem handle_line_without_samples (text : string) (s : handler) :
  PyStr.contains "#" text = false ->
  PyStr.contains ":" text = false ->
  let s' := handle_line cfg text s in
  timers s' = timers s /\ gauges s' = gauges s
  /\ counters s' = counters s /\ sets s' = sets s
  /\ keys_seen s' = <[sanitize text := statsd_metadata cfg]> (keys_seen s)
  /\ log s'
     = log s ++ ["StatsD: Invalid line: '" +:+ PyStr.strip (line s) +:+ "'"].
Proof.
  intros Hh Hc. unfold handle_line, handle_tags.
  rewrite (split_no_sep "#" text Hh), (split_no_sep ":" text Hc).
  simpl. repeat split; reflexivity.
Qed.

(** A sampling rate that is zero makes the counter sample a bad line:
    the division raises, and the counters are left as they are. *)
Theorem handle_counter_zero_rate
  (key : string) (fields : list string) (s : handler) :
  fzero (counter_rate fields) = true ->
  handle_counter key fields s = bad_line s.
Proof.
  intros H. unfold handle_counter, counter_value, truediv. rewrite H.
  now destruct (float_or_0 (field fields 0)).
Qed.

(** ** What keeps the keys with an entry in [keys_seen] *)

(** That every key with an entry in the timers, the counters, the gauges
    or the sets has an entry in [keys_seen] holds of a new handler that
    loaded its gauges, and is kept by a call of [handle] that runs to its
    end without a tick in between, and by a tick that completes. *)
Theorem live_keys_stay_seen (s : handler) :
  live s ⊆ dom (keys_seen s) ->
  (forall data, live (handle cfg data s) ⊆ dom (keys_seen (handle cfg data s)))
  /\ (forall stime s',
        tick cfg stime s = Some (tt, s') -> live s' ⊆ dom (keys_seen s'))
  /\ (forall fs,
        live (load_gauges cfg fs init)
        ⊆ dom (keys_seen (load_gauges cfg fs init))).
Proof.
  intros H. split; [|split].
  - intros data. now apply handle_live.
  - intros stime s' Ht. now apply (tick_live stime s).
  - apply load_gauges_live.
Qed.

(** After a tick, [keys_seen] has the keys that it had and that still have
    an entry in one of the four dictionaries, and no other. *)
Theorem tick_keys_seen_are_live (stime : Z) (s s' : handler) :
  tick cfg stime s = Some (tt, s') ->
  dom (keys_seen s') = dom (keys_seen s) ∩ live s'.
Proof.
  intros H. apply tick_spec in H as (_ & _ & _ & _ & HK & _).
  apply set_eq. intros k. rewrite elem_of_intersection, HK, !elem_of_dom.
  split.
  - intros [v Hv]. apply map_lookup_filter_Some in Hv as [Hv Hl].
    split; [now exists v|exact Hl].
  - intros [[v Hv] Hl]. exists v. now apply map_lookup_filter_Some.
Qed.

(** ** Names *)

Lemma append_nil_r (a : string) : a +:+ "" = a.
Proof.
  induction a as [|c a IH]; [reflexivity|].
  change (String c (a +:+ "") = String c a). now rewrite IH.
Qed.

Lemma make_name_from (parts : list string) (name : string) :
  fold_left
    (fun name part =>
       if String.eqb part EmptyString then name else name +:+ part +:+ ".")
    parts name
  = name +:+ dotted parts.
Proof.
  revert name. induction parts as [|part parts IH]; intros name; simpl.
  - now rewrite append_nil_r.
  - rewrite IH. destruct (String.eqb part ""); [reflexivity|].
    now rewrite !append_assoc.
Qed.

(** [make_name] joins the parts that are not empty, each followed by a
    dot; the empty parts leave no dot behind. *)
Theorem make_name_dotted (parts : list string) :
  make_name parts = dotted parts.
Proof. unfold make_name. now rewrite make_name_from. Qed.

(** ** How lines and samples are packed *)

Lemma split_app_sep sep a b :
  PyStr.split sep (a +:+ String sep b)
  = PyStr.split sep a ++ PyStr.split sep b.
Proof.
  induction a as [|c a IH].
  - simpl. now rewrite Ascii.eqb_refl.
  - change (String c a +:+ String sep b) with (String c (a +:+ String sep b)).
    simpl. rewrite IH. destruct (Ascii.eqb c sep); [reflexivity|].
    pose proof (split_nonempty sep a) as Hne.
    destruct (PyStr.split sep a) as [|h t]; [contradiction|reflexivity].
Qed.

Lemma contains_app sep a b :
  PyStr.contains sep (a +:+ b) = PyStr.contains sep a || PyStr.contains sep b.
Proof.
  induction a as [|c a IH]; [reflexivity|].
  change (String c a +:+ b) with (String c (a +:+ b)). simpl.
  rewrite IH. now rewrite orb_assoc.
Qed.

Lemma splitlines_from_line cur a b :
  no_line_end a = true ->
  PyStr.splitlines_from cur (a +:+ String "010" b)
  = (cur +:+ a) :: PyStr.splitlines_from EmptyString b.
Proof.
  revert cur. induction a as [|c a IH]; intros cur H.
  - simpl. now rewrite append_nil_r.
  - change (String c a +:+ String "010" b)
      with (String c (a +:+ String "010" b)).
    simpl in *. apply andb_true_iff in H as [Hc Ha].
    apply negb_true_iff, orb_false_iff in Hc as [-> ->].
    rewrite IH by exact Ha. now rewrite append_assoc.
Qed.

Lemma splitlines_from_last cur a :
  no_line_end a = true ->
  PyStr.splitlines_from cur a
  = if String.eqb (cur +:+ a) EmptyString then [] else [cur +:+ a].
Proof.
  revert cur. induction a as [|c a IH]; intros cur H.
  - simpl. now rewrite append_nil_r.
  - simpl in *. apply andb_true_iff in H as [Hc Ha].
    apply negb_true_iff, orb_false_iff in Hc as [-> ->].
    rewrite IH by exact Ha. now rewrite append_assoc.
Qed.

(** A datagram of a line followed by further lines is handled as the
    datagram of the line and then the datagram of the further lines. *)
Theorem handle_lines_one_by_one (a b : string) (s : handler) :
  no_line_end a = true ->
  a <> EmptyString ->
  handle cfg (a +:+ String "010" b) s = handle cfg b (handle cfg a s).
Proof.
  intros Ha Hne. unfold handle at 1 3. unfold PyStr.splitlines.
  rewrite (splitlines_from_line "" a b Ha), (splitlines_from_last "" a Ha).
  change ("" +:+ a) with a.
  destruct (String.eqb a "") eqn:E; [now apply String.eqb_eq in E|].
  reflexivity.
Qed.

Lemma handle_sample_same_maps key sample a b :
  same_maps a b ->
  same_maps (handle_sample key sample a) (handle_sample key sample b).
Proof.
  intros (HT & HG & HC & HS & HK). unfold handle_sample.
  destruct (negb (PyStr.contains "|" sample)); [now repeat split|].
  destruct (String.eqb _ "ms").
  { unfold handle_timer. destruct (float_or_0 _); [|now repeat split].
    unfold same_maps. simpl. now rewrite HT. }
  destruct (String.eqb _ "g").
  { unfold handle_gauge. destruct (float_of_string _); [|now repeat split].
    unfold same_maps, with_lock. simpl. rewrite HG.
    destruct (gauges b !! key); [destruct (signed _)|]; simpl;
      now rewrite ?HG. }
  destruct (String.eqb _ "s").
  { unfold handle_set, same_maps, with_lock. simpl. rewrite HS.
    destruct (sets b !! key); simpl; now rewrite ?HS. }
  unfold handle_counter. destruct (counter_value _); [|now repeat split].
  unfold same_maps, with_lock. simpl. rewrite HC.
  destruct (counters b !! key); simpl; now rewrite ?HC.
Qed.

Lemma handle_samples_same_maps key bits a b :
  same_maps a b ->
  same_maps
    (fold_left (fun s sample => handle_sample key sample s) bits a)
    (fold_left (fun s sample => handle_sample key sample s) bits b).
Proof.
  revert a b. induction bits as [|x bits IH]; intros a b H; simpl;
    [exact H|]. now apply IH, handle_sample_same_maps.
Qed.

Lemma handle_samples_nonempty key bits (s : handler) :
  bits <> [] ->
  match bits with
  | [] => bad_line s
  | _ => fold_left (fun s sample => handle_sample key sample s) bits s
  end
  = fold_left (fun s sample => handle_sample key sample s) bits s.
Proof. now destruct bits. Qed.

(** The samples of a key leave the five dictionaries the same whether
    they come in one line [key:samples1:samples2] or in the two lines
    [key:samples1] and [key:samples2]. *)
Theorem handle_samples_packed_or_apart
  (key samples1 samples2 : string) (s : handler) :
  PyStr.contains "#" key = false -> PyStr.contains ":" key = false ->
  PyStr.contains "#" samples1 = false ->
  PyStr.contains "#" samples2 = false ->
  same_maps
    (handle_line cfg (key +:+ String ":" (samples1 +:+ String ":" samples2)) s)
    (handle_line cfg (key +:+ String ":" samples2)
       (handle_line cfg (key +:+ String ":" samples1) s)).
Proof.
  intros Hk Hc H1 H2.
  assert (Hs : forall r, PyStr.contains "#" r = false ->
            forall s0, handle_line cfg (key +:+ String ":" r) s0
            = fold_left
                (fun s sample => handle_sample (sanitize key) sample s)
                (PyStr.split ":" r)
                (set_keys_seen (Some (sanitize key))
                   (<[sanitize key := statsd_metadata cfg]> (keys_seen s0))
                   s0)).
  { intros r Hr s0. unfold handle_line, handle_tags.
    rewrite split_no_sep.
    2:{ change (String ":" r) with ("" +:+ String ":" r).
        rewrite !contains_app. simpl. now rewrite Hk, Hr. }
    rewrite split_app_sep, (split_no_sep ":" key Hc). simpl.
    apply handle_samples_nonempty, split_nonempty. }
  rewrite !Hs; [|assumption|assumption|].
  2:{ change (String ":" samples2) with ("" +:+ String ":" samples2).
      rewrite !contains_app. simpl. now rewrite H1, H2. }
  rewrite split_app_sep, fold_left_app.
  apply handle_samples_same_maps.
  set (u := fold_left _ (PyStr.split ":" samples1) _).
  assert (Hu : keys_seen u
               = <[sanitize key := statsd_metadata cfg]> (keys_seen s))
    by (subst u; now rewrite handle_samples_keys_seen).
  unfold same_maps. simpl. rewrite Hu, insert_insert_eq. now repeat split.
Qed.

(** ** Counters and sets *)

Lemma counters_handle_counter key fields (s : handler) :
  counters (handle_counter key fields s)
  = match counter_value fields with
    | Some val => <[key := default 0 (counters s !! key) + val]> (counters s)
    | None => counters s
    end.
Proof.
  unfold handle_counter, with_lock.
  destruct (counter_value fields); [|reflexivity]. simpl.
  destruct (counters s !! key) eqn:E; simpl; rewrite ?E; [reflexivity|].
  now rewrite lookup_insert_eq, insert_insert_eq.
Qed.

(** Counter samples commute: two of them, for the same key or for two
    keys, give the same counters in either order. *)
Theorem handle_counter_commute
  (key1 key2 : string) (fields1 fields2 : list string) (s : handler) :
  counters (handle_counter key1 fields1 (handle_counter key2 fields2 s))
  = counters (handle_counter key2 fields2 (handle_counter key1 fields1 s)).
Proof.
  rewrite !counters_handle_counter.
  destruct (counter_value fields1) as [v1|], (counter_value fields2) as [v2|];
    try reflexivity.
  destruct (decide (key1 = key2)) as [->|Hne].
  - rewrite !lookup_insert_eq, !insert_insert_eq. simpl. f_equal. lia.
  - rewrite !lookup_insert_ne by congruence.
    now apply insert_insert_ne.
Qed.

Lemma sets_handle_set key fields (s : handler) :
  sets (handle_set key fields s)
  = <[key := default ∅ (sets s !! key) ∪ {[str_or_0 (field fields 0)]}]>
      (sets s).
Proof.
  unfold handle_set, with_lock. simpl.
  destruct (sets s !! key) eqn:E; simpl; rewrite ?E; [reflexivity|].
  now rewrite lookup_insert_eq, insert_insert_eq.
Qed.

(** A set sample that comes again changes nothing, and set samples
    commute. *)
Theorem handle_set_idempotent_commute
  (key1 key2 : string) (fields1 fields2 : list string) (s : handler) :
  sets (handle_set key1 fields1 (handle_set key1 fields1 s))
  = sets (handle_set key1 fields1 s)
  /\ sets (handle_set key1 fields1 (handle_set key2 fields2 s))
     = sets (handle_set key2 fields2 (handle_set key1 fields1 s)).
Proof.
  rewrite !sets_handle_set. split.
  - rewrite lookup_insert_eq, insert_insert_eq. simpl. f_equal. set_solver.
  - destruct (decide (key1 = key2)) as [->|Hne].
    + rewrite !lookup_insert_eq, !insert_insert_eq. simpl. f_equal.
      set_solver.
    + rewrite !lookup_insert_ne by congruence. now apply insert_insert_ne.
Qed.

(** ** Tags *)

(** In the tag list the last element wins: its key gets its value,
    whatever the elements before it gave that key. *)
Theorem parse_tags_last_wins (elements last : string) :
  PyStr.contains "," last = false ->
  parse_tags (elements +:+ String "," last)
  = <[(tag_entry last).1 := (tag_entry last).2]> (parse_tags elements).
Proof.
  intros H. unfold parse_tags.
  rewrite split_app_sep, fold_left_app, (split_no_sep "," last H). simpl.
  now destruct (tag_entry last).
Qed.

(** ** Saving again *)

(** With persistence on and no IOError, a new handler that loaded the
    saved gauges saves the same document again. *)
Theorem save_load_save (s : handler) (fs : files) :
  statsd_persistent_gauges cfg = true ->
  io_error fs = false ->
  let saved_files := (save_gauges cfg s fs).2 in
  (save_gauges cfg (load_gauges cfg saved_files init) saved_files).2
  = saved_files.
Proof.
  intros Hp Hio. unfold save_gauges, load_gauges, write_json_file,
    read_json_file. rewrite Hp, Hio. simpl. rewrite ?Hio. simpl.
  f_equal. f_equal. apply (map_eq (M := gmap string)). intros k.
  rewrite !(right_id_L ∅ (∪)), !map_lookup_imap, !lookup_fmap,
    !map_lookup_imap.
  destruct (gauges s !! k); reflexivity.
Qed.

(** ** When a tick raises *)

Lemma bind_None {A B} (m : M A) (k : A -> M B) s :
  m s = None -> bind m k s = None.
Proof. intros H. unfold bind. now rewrite H. Qed.

(** A loop raises when the body raises for one of the elements, in
    whatever state it is reached. *)
Lemma for_each_raises {A B} (l : list A) (acc : B) (body : B -> A -> M B)
  (x : A) s :
  x ∈ l -> (forall acc s, body acc x s = None) ->
  for_each l acc body s = None.
Proof.
  intros Hin Hx. revert acc s.
  induction l as [|y l IH]; intros acc s; [now apply elem_of_nil in Hin|].
  simpl. unfold bind.
  apply elem_of_cons in Hin as [<-|Hin]; [now rewrite Hx|].
  destruct (body acc y s) as [[acc' s1]|]; [|reflexivity]. now apply IH.
Qed.

Lemma enqueue_timer_raises stime k v p idx :
  v <> [] ->
  p ∈ statsd_percentile_thresholds cfg ->
  thresh_index p (Z.of_nat (length v)) = Some idx ->
  Z.of_nat (length v) < idx ->
  forall s, enqueue_timer cfg stime k v s = None.
Proof.
  intros Hv Hin Hidx Hgt s. destruct v as [|x v]; [contradiction|].
  unfold enqueue_timer. set (sorted := fsort (x :: v)).
  assert (Hlen : length sorted = length (x :: v)) by apply fsort_length.
  unfold bind at 1.
  destruct (try (PyStr.index sorted 0) s) as [[vmin s1]|]; [|reflexivity].
  unfold bind at 1.
  destruct (try (PyStr.index sorted (-1)) s1) as [[vmax s2]|]; [|reflexivity].
  apply bind_None. apply (for_each_raises _ _ _ p); [exact Hin|].
  intros [] s3. unfold enqueue_timer_threshold. rewrite Hlen, Hidx.
  unfold bind at 1. simpl.
  destruct (idx =? 0) eqn:E0; [apply Z.eqb_eq in E0; lia|].
  rewrite index_nonneg by lia.
  assert (E : nth_error (cumulative_sums id sorted) (Z.to_nat (idx - 1))
              = None).
  { apply nth_error_None. rewrite cumulative_sums_length. lia. }
  unfold bind. now rewrite E.
Qed.

Lemma enqueue_timers_raises stime k v s :
  timers s !! k = Some v ->
  (forall s0, enqueue_timer cfg stime k v s0 = None) ->
  enqueue_timers cfg stime s = None.
Proof.
  intros Hk Hv. unfold enqueue_timers, bind at 1. simpl.
  apply (for_each_raises _ _ _ (k, v)); [now apply elem_of_map_to_list|].
  intros acc s0. apply bind_None, Hv.
Qed.

Lemma enqueue_counters_raises stime k v s :
  counters s !! k = Some v ->
  fzero (statsd_flush_time cfg) = true ->
  enqueue_counters cfg stime s = None.
Proof.
  intros Hk Hz. unfold enqueue_counters, bind at 1. simpl.
  apply (for_each_raises _ _ _ (k, v)); [now apply elem_of_map_to_list|].
  intros acc s0. unfold bind at 1, try at 1.
  destruct (float_of_int v); [|reflexivity].
  apply bind_None. unfold try, truediv. now rewrite Hz.
Qed.

Lemma reaped_lookup_seen {V} flag (m : gmap string V) s k v :
  m !! k = Some v -> k ∈ dom (keys_seen s) -> reaped flag m s !! k = Some v.
Proof.
  intros Hk Hs. unfold reaped. destruct flag; [|exact Hk].
  now apply map_lookup_filter_Some.
Qed.

(** The first phases of a tick that returned: the three reaps and the
    timers. *)
Lemma tick_phases stime s s' :
  tick cfg stime s = Some (tt, s') ->
  exists s4 n5 s5,
    timers s4 = reaped (delete_timers cfg) (timers s) s
    /\ counters s4 = reaped (delete_counters cfg) (counters s) s
    /\ enqueue_timers cfg stime s4 = Some (n5, s5)
    /\ counters s5 = counters s4
    /\ exists n6 s6, enqueue_counters cfg stime s5 = Some (n6, s6).
Proof.
  unfold tick. intros H.
  apply bind_Some in H as ([] & s1 & H1 & H). injection H1 as <-.
  apply bind_Some in H as ([] & s2 & H2 & H).
  apply reap_timers_spec in H2 as (T2 & C2 & S2 & K2).
  apply bind_Some in H as ([] & s3 & H3 & H).
  apply reap_counters_spec in H3 as (T3 & C3 & S3 & K3).
  apply bind_Some in H as ([] & s4 & H4 & H).
  apply reap_sets_spec in H4 as (T4 & C4 & S4 & K4).
  apply bind_Some in H as (n5 & s5 & H5 & H).
  pose proof (enqueue_timers_spec _ _ _ _ H5) as (T5 & C5 & S5 & K5).
  apply bind_Some in H as (s5' & s5'' & Hg & H). injection Hg as <- <-.
  apply bind_Some in H as (n6 & s6 & H6 & H).
  exists s4, n5, s5. unfold core, reaped in *. simpl in *.
  injection K2 as _ KS2 _ _ _.
  rewrite KS2 in C3. rewrite C2 in C3.
  repeat split; [congruence|congruence|exact H5|exact C5|].
  now exists n6, s6.
Qed.

(** A threshold above 100 stops the flush thread: with samples for a key
    that was seen and a threshold whose index lies beyond the number of
    samples, the tick raises (the IndexError of [cumulative_values]). *)
Theorem tick_raises_on_threshold_out_of_range
  (stime : Z) (s : handler) (k : string) (v : list float) (p : float)
  (idx : Z) :
  timers s !! k = Some v -> v <> [] ->
  k ∈ dom (keys_seen s) ->
  p ∈ statsd_percentile_thresholds cfg ->
  thresh_index p (Z.of_nat (length v)) = Some idx ->
  Z.of_nat (length v) < idx ->
  tick cfg stime s = None.
Proof.
  intros Hk Hv Hs Hin Hidx Hgt.
  destruct (tick cfg stime s) as [[[] s']|] eqn:H; [exfalso|reflexivity].
  apply tick_phases in H as (s4 & n5 & s5 & T4 & _ & H5 & _).
  rewrite (enqueue_timers_raises stime k v s4) in H5; [discriminate| |].
  - rewrite T4. now apply reaped_lookup_seen.
  - now apply (enqueue_timer_raises stime k v p idx).
Qed.

(** With a flush time of zero a tick raises as soon as there is a counter
    of a key that was seen (the division of the rate). *)
Theorem tick_raises_on_zero_flush_time
  (stime : Z) (s : handler) (k : string) (v : Z) :
  fzero (statsd_flush_time cfg) = true ->
  counters s !! k = Some v ->
  k ∈ dom (keys_seen s) ->
  tick cfg stime s = None.
Proof.
  intros Hz Hk Hs.
  destruct (tick cfg stime s) as [[[] s']|] eqn:H; [exfalso|reflexivity].
  apply tick_phases in H as (s4 & n5 & s5 & _ & C4 & _ & C5 & n6 & s6 & H6).
  rewrite (enqueue_counters_raises stime k v s5) in H6; [discriminate| |].
  - rewrite C5, C4. now apply reaped_lookup_seen.
  - exact Hz.
Qed.

(** ** The lock during a tick *)

Lemma locked_run_refl (s : handler) : lock s = true -> locked_run s s.
Proof.
  intros H. split; [exact H|]. exists []. now rewrite app_nil_r.
Qed.

Lemma locked_run_trans (a b c : handler) :
  locked_run a b -> locked_run b c -> locked_run a c.
Proof.
  intros (_ & m1 & E1 & F1) (L & m2 & E2 & F2). split; [exact L|].
  exists (m1 ++ m2). rewrite E2, E1, app_assoc. split; [reflexivity|].
  now apply Forall_app.
Qed.

Lemma locked_run_with_queue q (s s' : handler) :
  locked_run s s' -> locked_run s (with_queue q s').
Proof. intros H. exact H. Qed.

Lemma locked_run_fold {A} (step : A -> handler -> handler) l (s : handler) :
  (forall x s0, lock s0 = true -> locked_run s0 (step x s0)) ->
  lock s = true ->
  locked_run s (fold_left (fun s x => step x s) l s).
Proof.
  intros Hstep. revert s. induction l as [|x l IH]; intros s Hs; simpl.
  - now apply locked_run_refl.
  - apply (locked_run_trans s (step x s)); [now apply Hstep|].
    apply IH. now destruct (Hstep x s Hs).
Qed.

Lemma locked_run_write t k (s s' : handler) :
  lock s = true -> lock s' = lock s ->
  mutations s' = mutations s ++ [Mutation t k (lock s)] ->
  locked_run s s'.
Proof.
  intros Hs Hl Hm. split; [congruence|]. eexists. split; [exact Hm|].
  repeat constructor. exact Hs.
Qed.

Ltac locked_step :=
  intros ? ? ?; eapply locked_run_write; [eassumption|reflexivity..].

Lemma locked_run_when_fold {A} (flag : bool) (step : A -> handler -> handler) l
  (s : handler) :
  (forall x s0, lock s0 = true -> locked_run s0 (step x s0)) ->
  lock s = true ->
  locked_run s (if flag then fold_left (fun s x => step x s) l s else s).
Proof.
  intros Hstep Hs. destruct flag; [now apply locked_run_fold|].
  now apply locked_run_refl.
Qed.

(** A tick takes the lock, makes every write of its own to the five
    dictionaries with the lock held, and returns with the lock free. *)
Theorem tick_writes_with_lock (stime : Z) (s s' : handler) :
  tick cfg stime s = Some (tt, s') ->
  lock s' = false
  /\ exists ms, mutations s' = mutations s ++ ms /\ Forall locked_write ms.
Proof.
  unfold tick. intros H.
  apply bind_Some in H as ([] & s1 & H1 & H). injection H1 as <-.
  revert H. generalize (eq_refl : lock (set_lock true s) = true).
  generalize (eq_refl : mutations (set_lock true s) = mutations s).
  generalize (set_lock true s). intros s1 M1 L1 H.
  apply bind_Some in H as ([] & s2 & H2 & H).
  rewrite reap_timers_result in H2. injection H2 as <-.
  match type of H with context [bind _ _ ?t] => set (s2 := t) in * end.
  assert (R2 : locked_run s1 s2)
    by (apply locked_run_when_fold; [locked_step|exact L1]).
  clearbody s2.
  apply bind_Some in H as ([] & s3 & H3 & H).
  rewrite reap_counters_result in H3. injection H3 as <-.
  match type of H with context [bind _ _ ?t] => set (s3 := t) in * end.
  assert (R3 : locked_run s2 s3)
    by (apply locked_run_when_fold; [locked_step|apply R2]).
  clearbody s3.
  apply bind_Some in H as ([] & s4 & H4 & H).
  rewrite reap_sets_result in H4. injection H4 as <-.
  match type of H with context [bind _ _ ?t] => set (s4 := t) in * end.
  assert (R4 : locked_run s3 s4)
    by (apply locked_run_when_fold; [locked_step|apply R3]).
  clearbody s4.
  apply bind_Some in H as (n5 & s5 & H5 & H).
  apply enqueue_timers_steps in H5 as (ps5 & ->).
  match type of H with context [bind _ _ (with_queue _ ?t)] =>
    assert (R5 : locked_run s4 t)
      by (apply locked_run_fold; [locked_step|apply R4]);
    generalize dependent t end.
  intros t5 H R5.
  apply bind_Some in H as (s5' & s5'' & Hg & H). injection Hg as <- <-.
  apply bind_Some in H as (n6 & s6 & H6 & H).
  apply enqueue_counters_steps in H6 as (ps6 & ->).
  match type of H with context [bind _ _ (with_queue _ ?t)] =>
    assert (R6 : locked_run (with_queue (queue s4 ++ ps5) t5) t)
      by (apply locked_run_fold; [locked_step|apply R5]);
    generalize dependent t end.
  intros t6 H R6.
  apply bind_Some in H as (s6' & s6'' & Hg & H). injection Hg as <- <-.
  apply bind_Some in H as (n7 & s7 & H7 & H).
  apply emits_enqueue_gauges in H7 as (ps7 & -> & _).
  apply bind_Some in H as (s7' & s7'' & Hg & H). injection Hg as <- <-.
  apply bind_Some in H as (n8 & s8 & H8 & H).
  apply enqueue_sets_steps in H8 as (ps8 & ->).
  match type of H with
  | context [bind _ _ (with_queue _ (fold_left ?f ?l ?x))] =>
    assert (R8 : locked_run t6 (fold_left f l x))
      by (change (locked_run x (fold_left f l x));
          apply locked_run_fold; [locked_step|exact (proj1 R6)]);
    generalize dependent (fold_left f l x)
  end.
  intros t8 H R8.
  apply bind_Some in H as (s8' & s8'' & Hg & H). injection Hg as <- <-.
  apply bind_Some in H as ([] & s9 & H9 & H).
  apply emits_enqueue in H9 as (ps9 & -> & _).
  apply bind_Some in H as ([] & s10 & H10 & H).
  injection H10 as <-. injection H as <-.
  split; [reflexivity|].
  assert (R : locked_run s1 t8).
  { apply (locked_run_trans _ s2); [exact R2|].
    apply (locked_run_trans _ s3); [exact R3|].
    apply (locked_run_trans _ s4); [exact R4|].
    apply (locked_run_trans _ t5); [exact R5|].
    apply (locked_run_trans _ t6); [exact R6|exact R8]. }
  destruct R as (L8 & ms & E & HF).
  exists (ms ++ [Mutation KeysSeen None true]). simpl. unfold mutated. simpl.
  rewrite E, M1, L8, app_assoc. split; [reflexivity|].
  apply Forall_app. split; [exact HF|]. now repeat constructor.
Qed.

(** ** What the loops of a tick put on the queue *)

Lemma fold_left_with_queue {A} (step : A -> handler -> handler) l q s :
  (forall q x s, step x (with_queue q s) = with_queue q (step x s)) ->
  fold_left (fun s x => step x s) l (with_queue q s)
  = with_queue q (fold_left (fun s x => step x s) l s).
Proof.
  intros Hstep. revert s. induction l as [|y l IH]; intros s; simpl;
    [reflexivity|]. now rewrite Hstep, IH.
Qed.

(** A loop whose body, on the elements that satisfy [Q] and in the states
    that satisfy [P], adds [cnt x] to the accumulator, puts the tuples
    [pts x] and changes the state by [step x]. *)
Lemma for_each_exact {A} (pts : A -> list point) (cnt : A -> Z)
  (step : A -> handler -> handler) (body : Z -> A -> M Z)
  (Q : A -> Prop) (P : handler -> Prop) :
  (forall q x s, step x (with_queue q s) = with_queue q (step x s)) ->
  (forall x s, P s -> P (step x s)) ->
  (forall q s, P s -> P (with_queue q s)) ->
  (forall acc x s, Q x -> P s ->
     body acc x s
     = Some (acc + cnt x, with_queue (queue s ++ pts x) (step x s))) ->
  forall l acc s, Forall Q l -> P s ->
    for_each l acc body s
    = Some (fold_left (fun a x => a + cnt x) l acc,
            with_queue (queue s ++ flat_map pts l)
              (fold_left (fun s x => step x s) l s)).
Proof.
  intros Hstep HPs HPq Hbody l.
  induction l as [|x l IH]; intros acc s HQ HP.
  - cbn [for_each fold_left flat_map]. unfold pure.
    now rewrite <- with_queue_nil.
  - apply Forall_cons in HQ as [Hx HQ].
    cbn [for_each fold_left flat_map]. unfold bind.
    rewrite Hbody by assumption.
    rewrite IH by (try assumption; apply HPq, HPs, HP).
    rewrite fold_left_with_queue by exact Hstep.
    unfold with_queue at 1 2 3. cbn [queue timers gauges counters sets
      keys_seen line log lock mutations].
    now rewrite <- app_assoc.
Qed.

Lemma fold_left_count {A} (l : list A) (acc : Z) :
  fold_left (fun a _ => a + 1) l acc = acc + Z.of_nat (length l).
Proof.
  revert acc. induction l as [|x l IH]; intros acc; simpl length;
    cbn [fold_left]; [lia|]. rewrite IH. lia.
Qed.

Lemma map_to_list_size {V} (m : gmap string V) :
  Z.of_nat (length (map_to_list m)) = Z.of_nat (size m).
Proof. now rewrite length_map_to_list. Qed.

Lemma enqueue_counters_exact stime s :
  (forall k v, counters s !! k = Some v ->
     float_fits v = true /\ fzero (statsd_flush_time cfg) = false) ->
  enqueue_counters cfg stime s
  = Some (Z.of_nat (size (counters s)),
          with_queue
            (queue s
             ++ flat_map (counter_points cfg stime s)
                  (map_to_list (counters s)))
            (fold_left (fun s kv => reset_counter kv.1 s)
               (map_to_list (counters s)) s)).
Proof.
  intros Hz. unfold enqueue_counters, bind at 1, get.
  rewrite <- map_to_list_size, <- (Z.add_0_l (Z.of_nat _)),
    <- fold_left_count.
  apply (for_each_exact (counter_points cfg stime s) (fun _ => 1)
           (fun kv => reset_counter kv.1) _
           (fun kv => float_fits kv.2 = true
                      /\ fzero (statsd_flush_time cfg) = false)
           (fun s0 => keys_seen s0 = keys_seen s)).
  - reflexivity.
  - intros x s0 H. exact H.
  - intros q s0 H. exact H.
  - intros acc [k v] s0 [Hfit Hf] HP. simpl in Hfit.
    unfold float_of_int, truediv. rewrite Hfit, Hf.
    unfold counter_points.
    rewrite <- (metadata_of_keys_seen (Some k) s0 s HP).
    destruct s0.
    cbv [bind try enqueue modify pure put with_queue reset_counter
      set_counters mutated queue timers gauges counters sets keys_seen
      line log lock mutations metadata_of fst].
    now rewrite <- app_assoc.
  - apply Forall_forall. intros [k v] Hin. simpl.
    apply elem_of_map_to_list in Hin. now apply (Hz k).
  - reflexivity.
Qed.

Lemma enqueue_sets_exact stime s :
  enqueue_sets cfg stime s
  = Some (Z.of_nat (size (sets s)),
          with_queue
            (queue s ++ flat_map (set_points cfg stime s) (map_to_list (sets s)))
            (fold_left (fun s kv => reset_set kv.1 s) (map_to_list (sets s))
               s)).
Proof.
  unfold enqueue_sets, bind at 1, get.
  rewrite <- map_to_list_size, <- (Z.add_0_l (Z.of_nat _)),
    <- fold_left_count.
  apply (for_each_exact (set_points cfg stime s) (fun _ => 1)
           (fun kv => reset_set kv.1) _ (fun _ => True)
           (fun s0 => keys_seen s0 = keys_seen s)).
  - reflexivity.
  - intros x s0 H. exact H.
  - intros q s0 H. exact H.
  - intros acc [k v] s0 _ HP. unfold set_points.
    rewrite <- (metadata_of_keys_seen (Some k) s0 s HP).
    destruct s0.
    cbv [bind enqueue modify pure put with_queue reset_set
      set_sets mutated queue timers gauges counters sets keys_seen
      line log lock mutations metadata_of fst].
    reflexivity.
  - apply Forall_forall. intros x _. exact I.
  - reflexivity.
Qed.

Lemma fold_left_count_if {A} (p : A -> bool) (l : list A) (acc : Z) :
  fold_left (fun a x => a + (if p x then 1 else 0)) l acc
  = acc + Z.of_nat (length (List.filter p l)).
Proof.
  revert acc. induction l as [|x l IH]; intros acc; cbn [fold_left List.filter];
    [simpl; lia|]. rewrite IH. destruct (p x); simpl length; lia.
Qed.

Lemma enqueue_gauges_exact stime s :
  enqueue_gauges cfg stime s
  = Some (Z.of_nat
            (length
               (List.filter (fun kv => gauge_reported cfg s kv.1)
                  (map_to_list (gauges s)))),
          with_queue
            (queue s
             ++ flat_map (gauge_points cfg stime s) (map_to_list (gauges s)))
            s).
Proof.
  unfold enqueue_gauges, bind at 1, get at 1.
  etransitivity.
  { apply (for_each_exact (gauge_points cfg stime s)
             (fun kv => if gauge_reported cfg s kv.1 then 1 else 0)
             (fun _ s0 => s0) _ (fun _ => True)
             (fun s0 => keys_seen s0 = keys_seen s)).
    - reflexivity.
    - intros x s0 H. exact H.
    - intros q s0 H. exact H.
    - intros acc [k v] s0 _ HP. unfold gauge_points, gauge_reported.
      unfold bind at 1, get. rewrite HP. cbn [fst].
      destruct (negb (onlychanged_gauges cfg)
                || bool_decide (k ∈ dom (keys_seen s))).
      + rewrite <- (metadata_of_keys_seen (Some k) s0 s HP).
        destruct s0. reflexivity.
      + unfold pure. now rewrite Z.add_0_r, <- with_queue_nil.
    - apply Forall_forall. intros x _. exact I.
    - reflexivity. }
  now rewrite fold_left_id, fold_left_count_if.
Qed.

Lemma enqueue_timers_idle_exact stime s :
  (forall k v, timers s !! k = Some v -> v = []) ->
  enqueue_timers cfg stime s
  = Some (Z.of_nat (size (timers s)),
          with_queue
            (queue s
             ++ flat_map (idle_timer_points cfg stime s)
                  (map_to_list (timers s)))
            (fold_left (fun s kv => reset_timer kv.1 s)
               (map_to_list (timers s)) s)).
Proof.
  intros Hidle. unfold enqueue_timers, bind at 1, get.
  rewrite <- map_to_list_size, <- (Z.add_0_l (Z.of_nat _)),
    <- fold_left_count.
  apply (for_each_exact (idle_timer_points cfg stime s) (fun _ => 1)
           (fun kv => reset_timer kv.1) _ (fun kv => kv.2 = [])
           (fun s0 => keys_seen s0 = keys_seen s)).
  - reflexivity.
  - intros x s0 H. exact H.
  - intros q s0 H. exact H.
  - intros acc [k v] s0 Hv HP. simpl in Hv. subst v.
    unfold bind at 1. rewrite enqueue_timer_empty.
    unfold idle_timer_points, timer_point. cbn [fst].
    rewrite <- (metadata_of_keys_seen (Some k) s0 s HP).
    destruct s0. reflexivity.
  - apply Forall_forall. intros [k v] Hin. simpl.
    apply elem_of_map_to_list in Hin. now apply (Hidle k).
  - reflexivity.
Qed.

(** With a flush time that is not zero and counters that a float can
    hold (the division converts them), [enqueue_counters] returns the
    number of counters, puts for every counter its rate and then its
    count, in the order of the dictionary, and leaves every counter 0. *)
Theorem enqueue_counters_reports (stime : Z) (s : handler) :
  fzero (statsd_flush_time cfg) = false ->
  (forall k v, counters s !! k = Some v -> float_fits v = true) ->
  exists s',
    enqueue_counters cfg stime s = Some (Z.of_nat (size (counters s)), s')
    /\ queue s'
       = queue s
         ++ flat_map (counter_points cfg stime s) (map_to_list (counters s))
    /\ counters s' = (fun _ => 0) <$> counters s.
Proof.
  intros Hz Hfit. eexists.
  split; [apply enqueue_counters_exact; intros k v Hk; split;
          [now apply (Hfit k)|exact Hz]|].
  split; [reflexivity|].
  cbn [with_queue counters]. now rewrite counters_fold_reset, fold_insert_all.
Qed.

(** [enqueue_sets] never raises: it returns the number of sets, puts for
    every set the number of its elements, and leaves every set empty. *)
Theorem enqueue_sets_reports (stime : Z) (s : handler) :
  exists s',
    enqueue_sets cfg stime s = Some (Z.of_nat (size (sets s)), s')
    /\ queue s'
       = queue s ++ flat_map (set_points cfg stime s) (map_to_list (sets s))
    /\ sets s' = (fun _ => ∅) <$> sets s.
Proof.
  eexists. split; [apply enqueue_sets_exact|]. split; [reflexivity|].
  cbn [with_queue sets]. now rewrite sets_fold_reset, fold_insert_all.
Qed.

(** [enqueue_gauges] never raises and changes nothing but the queue: it
    puts the value of every gauge that is reported and returns their
    number. *)
Theorem enqueue_gauges_reports (stime : Z) (s : handler) :
  enqueue_gauges cfg stime s
  = Some (Z.of_nat
            (length
               (List.filter (fun kv => gauge_reported cfg s kv.1)
                  (map_to_list (gauges s)))),
          with_queue
            (queue s
             ++ flat_map (gauge_points cfg stime s) (map_to_list (gauges s)))
            s).
Proof. apply enqueue_gauges_exact. Qed.

(** ** A whole tick *)

Lemma for_each_count {A} (body : Z -> A -> M Z) :
  (forall acc x s b s', body acc x s = Some (b, s') -> b = acc + 1) ->
  forall l acc s b s', for_each l acc body s = Some (b, s') ->
    b = acc + Z.of_nat (length l).
Proof.
  intros Hbody l. induction l as [|x l IH]; intros acc s b s' H.
  - injection H as <- _. simpl. lia.
  - cbn [for_each] in H. apply bind_Some in H as (a1 & s1 & H1 & H).
    apply Hbody in H1 as ->. apply IH in H as ->. simpl length. lia.
Qed.

Lemma enqueue_timers_count stime s n s' :
  enqueue_timers cfg stime s = Some (n, s') -> n = Z.of_nat (size (timers s)).
Proof.
  unfold enqueue_timers. intros H.
  apply bind_Some in H as (s0 & s1 & Hget & H). injection Hget as <- <-.
  apply for_each_count in H; [now rewrite H, map_to_list_size|].
  intros acc [k v] s1 b s2 Hb.
  apply bind_Some in Hb as ([] & s3 & _ & Hb).
  apply bind_Some in Hb as ([] & s4 & _ & Hb). now injection Hb as <- _.
Qed.

Lemma enqueue_counters_count stime s n s' :
  enqueue_counters cfg stime s = Some (n, s') ->
  n = Z.of_nat (size (counters s)).
Proof.
  unfold enqueue_counters. intros H.
  apply bind_Some in H as (s0 & s1 & Hget & H). injection Hget as <- <-.
  apply for_each_count in H; [now rewrite H, map_to_list_size|].
  intros acc [k v] s1 b s2 Hb.
  apply bind_Some in Hb as (value & s3 & _ & Hb).
  apply bind_Some in Hb as (rate & s4 & _ & Hb).
  apply bind_Some in Hb as ([] & s5 & _ & Hb).
  apply bind_Some in Hb as ([] & s6 & _ & Hb).
  apply bind_Some in Hb as ([] & s7 & _ & Hb). now injection Hb as <- _.
Qed.

Lemma reap_queue {A} (flag : bool) (step : A -> handler -> handler) l
  (s : handler) :
  (forall x s, queue (step x s) = queue s) ->
  queue (if flag then fold_left (fun s x => step x s) l s else s) = queue s.
Proof.
  intros H. destruct flag; [|reflexivity].
  now apply (fold_left_preserves queue step).
Qed.

(** The phases of a tick that returned, with what they return. *)
Lemma tick_run stime s s' :
  tick cfg stime s = Some (tt, s') ->
  exists s4 n5 s5 n6 s6 n7 s7 n8 s8,
    (timers s4 = reaped (delete_timers cfg) (timers s) s
     /\ counters s4 = reaped (delete_counters cfg) (counters s) s
     /\ sets s4 = reaped (delete_sets cfg) (sets s) s
     /\ gauges s4 = gauges s /\ keys_seen s4 = keys_seen s
     /\ queue s4 = queue s)
    /\ enqueue_timers cfg stime s4 = Some (n5, s5)
    /\ enqueue_counters cfg stime s5 = Some (n6, s6)
    /\ enqueue_gauges cfg stime s6 = Some (n7, s7)
    /\ enqueue_sets cfg stime s7 = Some (n8, s8)
    /\ queue s' = queue s8 ++ [num_stats_point cfg stime (n5 + n6 + n7 + n8)].
Proof.
  unfold tick. intros H.
  apply bind_Some in H as ([] & s1 & H1 & H). injection H1 as <-.
  apply bind_Some in H as ([] & s2 & H2 & H).
  pose proof (reap_timers_spec _ _ _ H2) as (T2 & C2 & S2 & K2).
  rewrite reap_timers_result in H2. injection H2 as Q2.
  apply (f_equal queue) in Q2.
  rewrite (reap_queue _ (fun k s => del_timer k s)) in Q2 by reflexivity.
  apply bind_Some in H as ([] & s3 & H3 & H).
  pose proof (reap_counters_spec _ _ _ H3) as (T3 & C3 & S3 & K3).
  rewrite reap_counters_result in H3. injection H3 as Q3.
  apply (f_equal queue) in Q3.
  rewrite (reap_queue _ (fun k s => del_counter k s)) in Q3 by reflexivity.
  apply bind_Some in H as ([] & s4 & H4 & H).
  pose proof (reap_sets_spec _ _ _ H4) as (T4 & C4 & S4 & K4).
  rewrite reap_sets_result in H4. injection H4 as Q4.
  apply (f_equal queue) in Q4.
  rewrite (reap_queue _ (fun k s => del_set k s)) in Q4 by reflexivity.
  apply bind_Some in H as (n5 & s5 & H5 & H).
  apply bind_Some in H as (s5' & s5'' & Hg & H). injection Hg as <- <-.
  apply bind_Some in H as (n6 & s6 & H6 & H).
  apply bind_Some in H as (s6' & s6'' & Hg & H). injection Hg as <- <-.
  apply bind_Some in H as (n7 & s7 & H7 & H).
  apply bind_Some in H as (s7' & s7'' & Hg & H). injection Hg as <- <-.
  apply bind_Some in H as (n8 & s8 & H8 & H).
  apply bind_Some in H as (s8' & s8'' & Hg & H). injection Hg as <- <-.
  apply bind_Some in H as ([] & s9 & H9 & H). injection H9 as <-.
  apply bind_Some in H as ([] & s10 & H10 & H).
  injection H10 as <-. injection H as <-.
  exists s4, n5, s5, n6, s6, n7, s7, n8, s8.
  unfold core, reaped in *. simpl in *.
  injection K2 as G2 KS2 _ _ _. injection K3 as G3 KS3 _ _ _.
  injection K4 as G4 KS4 _ _ _.
  rewrite KS3, KS2 in S4. rewrite KS2 in C3.
  rewrite S3, S2 in S4. rewrite C2 in C3.
  repeat split; try assumption; congruence.
Qed.

(** The state of a tick when it comes to the gauges, and what follows. *)
Lemma tick_run_gauges stime s s' :
  tick cfg stime s = Some (tt, s') ->
  exists n5 n6 s6 n7 s7 n8 s8,
    n5 = Z.of_nat (size (reaped (delete_timers cfg) (timers s) s))
    /\ n6 = Z.of_nat (size (reaped (delete_counters cfg) (counters s) s))
    /\ gauges s6 = gauges s /\ keys_seen s6 = keys_seen s
    /\ enqueue_gauges cfg stime s6 = Some (n7, s7)
    /\ enqueue_sets cfg stime s7 = Some (n8, s8)
    /\ sets s7 = reaped (delete_sets cfg) (sets s) s
    /\ queue s' = queue s8 ++ [num_stats_point cfg stime (n5 + n6 + n7 + n8)].
Proof.
  intros H.
  apply tick_run in H
    as (s4 & n5 & s5 & n6 & s6 & n7 & s7 & n8 & s8
        & (T4 & C4 & S4 & G4 & K4 & Q4) & H5 & H6 & H7 & H8 & HQ).
  pose proof (enqueue_timers_count _ _ _ _ H5) as E5.
  pose proof (enqueue_counters_count _ _ _ _ H6) as E6.
  apply enqueue_timers_spec in H5 as (T5 & C5 & S5 & K5).
  apply enqueue_counters_spec in H6 as (T6 & C6 & S6 & K6).
  pose proof (emits_spec _ _ _ _ (emits_enqueue_gauges stime) H7)
    as (T7 & C7 & S7 & K7).
  unfold core in *.
  injection K5 as G5 KS5 _ _ _. injection K6 as G6 KS6 _ _ _.
  exists n5, n6, s6, n7, s7, n8, s8.
  repeat split; try assumption; congruence.
Qed.

Lemma gauge_reported_keys_seen (a b : handler) k :
  keys_seen a = keys_seen b -> gauge_reported cfg a k = gauge_reported cfg b k.
Proof. intros H. unfold gauge_reported. now rewrite H. Qed.

(** The last tuple that a tick puts is [numStats], and its value is the
    number of the timers, counters and sets that the idle reap has left
    (all of them when idle statistics are not deleted) and of the gauges
    that are reported. *)
Theorem tick_num_stats (stime : Z) (s s' : handler) :
  tick cfg stime s = Some (tt, s') ->
  last (queue s')
  = Some
      (num_stats_point cfg stime
         (Z.of_nat
            (size (reaped (delete_timers cfg) (timers s) s)
             + size (reaped (delete_counters cfg) (counters s) s)
             + length
                 (List.filter (fun kv => gauge_reported cfg s kv.1)
                    (map_to_list (gauges s)))
             + size (reaped (delete_sets cfg) (sets s) s)))).
Proof.
  intros H.
  apply tick_run_gauges in H
    as (n5 & n6 & s6 & n7 & s7 & n8 & s8 & -> & -> & G6 & K6 & H7 & H8 & S7
        & HQ).
  rewrite enqueue_gauges_exact in H7. injection H7 as E7 _.
  rewrite enqueue_sets_exact in H8. injection H8 as E8 _.
  rewrite HQ, last_snoc. f_equal. f_equal.
  rewrite <- E7, <- E8, S7, G6.
  rewrite (List.filter_ext _ (fun kv => gauge_reported cfg s kv.1))
    by (intros kv; now apply gauge_reported_keys_seen).
  lia.
Qed.

(** A tick that completes reports every gauge that [enqueue_gauges]
    takes for reported at the start of the tick (every gauge when
    [onlychanged_gauges] is off, the gauges with a key in [keys_seen]
    when it is on): the phases before the gauges change neither the
    gauges nor [keys_seen]. *)
Theorem tick_reports_seen_gauges
  (stime : Z) (s s' : handler) (k : string) (v : float) :
  tick cfg stime s = Some (tt, s') ->
  gauges s !! k = Some v ->
  gauge_reported cfg s k = true ->
  Point (name_gauge cfg +:+ k) (SFloat v) stime
    (truthy (metadata_of cfg (Some k) s)) ∈ queue s'.
Proof.
  intros H Hk Hrep.
  apply tick_run_gauges in H
    as (n5 & n6 & s6 & n7 & s7 & n8 & s8 & _ & _ & G6 & K6 & H7 & H8 & S7
        & HQ).
  rewrite enqueue_gauges_exact in H7. injection H7 as _ <-.
  rewrite enqueue_sets_exact in H8. injection H8 as _ <-.
  rewrite HQ. cbn [queue with_queue].
  apply elem_of_app. left. apply elem_of_app. left. apply elem_of_app. right.
  apply list_elem_of_In, in_flat_map. exists (k, v). split.
  - apply list_elem_of_In, elem_of_map_to_list. now rewrite G6.
  - unfold gauge_points.
    rewrite (gauge_reported_keys_seen s6 s k K6), Hrep.
    rewrite (metadata_of_keys_seen (Some k) s6 s K6). now left.
Qed.

(** When every key of the timers, counters and sets has an entry in
    [keys_seen] as the tick begins, the idle reap deletes nothing: every
    timer, counter and set is kept and reset, also with
    [delete_idlestats] and for keys without a sample since the last
    tick. *)
Theorem tick_idle_reap_deletes_nothing (stime : Z) (s s' : handler) :
  live s ⊆ dom (keys_seen s) ->
  tick cfg stime s = Some (tt, s') ->
  timers s' = (fun _ => []) <$> timers s
  /\ counters s' = (fun _ => 0) <$> counters s
  /\ sets s' = (fun _ => ∅) <$> sets s.
Proof.
  intros Hr H. unfold live in Hr.
  apply tick_spec in H as (HT & HC & HS & _).
  rewrite reaped_all_seen in HT by set_solver.
  rewrite reaped_all_seen in HC by set_solver.
  rewrite reaped_all_seen in HS by set_solver.
  easy.
Qed.

Lemma reaped_lookup {V} flag (m : gmap string V) s k v :
  reaped flag m s !! k = Some v -> m !! k = Some v.
Proof.
  unfold reaped. destruct flag; [|easy].
  intros H. now apply map_lookup_filter_Some in H as [H _].
Qed.

Lemma reaped_empty {V} flag s : reaped flag (∅ : gmap string V) s = ∅.
Proof. unfold reaped. destruct flag; [apply map_filter_empty|reflexivity]. Qed.

(** A tick completes when no timer has a sample and, if there are
    counters, a float can hold them and the flush time is not zero. *)
Lemma tick_idle_completes stime s :
  (forall k v, timers s !! k = Some v -> v = []) ->
  (forall k v, counters s !! k = Some v ->
     float_fits v = true /\ fzero (statsd_flush_time cfg) = false) ->
  exists s', tick cfg stime s = Some (tt, s').
Proof.
  intros Ht Hc. unfold tick.
  set (s1 := set_lock true s).
  pose proof (reap_timers_result (delete_timers cfg) s1) as H2.
  match type of H2 with _ = Some (_, ?t) => set (s2 := t) in * end.
  pose proof (reap_timers_spec _ _ _ H2) as (T2 & C2 & S2 & K2).
  pose proof (reap_counters_result (delete_counters cfg) s2) as H3.
  match type of H3 with _ = Some (_, ?t) => set (s3 := t) in * end.
  pose proof (reap_counters_spec _ _ _ H3) as (T3 & C3 & S3 & K3).
  pose proof (reap_sets_result (delete_sets cfg) s3) as H4.
  match type of H4 with _ = Some (_, ?t) => set (s4 := t) in * end.
  pose proof (reap_sets_spec _ _ _ H4) as (T4 & C4 & S4 & K4).
  assert (Ht4 : forall k v, timers s4 !! k = Some v -> v = []).
  { intros k v. rewrite T4, T3, T2. intros Hk. apply reaped_lookup in Hk.
    now apply (Ht k). }
  pose proof (enqueue_timers_idle_exact stime s4 Ht4) as H5.
  match type of H5 with _ = Some (?n, ?t) =>
    set (n5 := n) in *; set (s5 := t) in * end.
  pose proof (enqueue_timers_spec _ _ _ _ H5) as (T5 & C5 & S5 & K5).
  assert (Hc5 : forall k v, counters s5 !! k = Some v ->
            float_fits v = true /\ fzero (statsd_flush_time cfg) = false).
  { intros k v. rewrite C5, C4, C3, C2. intros Hk.
    apply reaped_lookup in Hk. now apply (Hc k). }
  pose proof (enqueue_counters_exact stime s5 Hc5) as H6.
  match type of H6 with _ = Some (?n, ?t) =>
    set (n6 := n) in *; set (s6 := t) in * end.
  pose proof (enqueue_gauges_exact stime s6) as H7.
  match type of H7 with _ = Some (?n, ?t) =>
    set (n7 := n) in *; set (s7 := t) in * end.
  pose proof (enqueue_sets_exact stime s7) as H8.
  match type of H8 with _ = Some (?n, ?t) =>
    set (n8 := n) in *; set (s8 := t) in * end.
  eexists.
  apply bind_Some. exists tt, s1. split; [reflexivity|].
  apply bind_Some. exists tt, s2. split; [exact H2|].
  apply bind_Some. exists tt, s3. split; [exact H3|].
  apply bind_Some. exists tt, s4. split; [exact H4|].
  apply bind_Some. exists n5, s5. split; [exact H5|].
  apply bind_Some. exists s5, s5. split; [reflexivity|].
  apply bind_Some. exists n6, s6. split; [exact H6|].
  apply bind_Some. exists s6, s6. split; [reflexivity|].
  apply bind_Some. exists n7, s7. split; [exact H7|].
  apply bind_Some. exists s7, s7. split; [reflexivity|].
  apply bind_Some. exists n8, s8. split; [exact H8|].
  apply bind_Some. exists s8, s8. split; [reflexivity|].
  reflexivity.
Qed.

Lemma tick_counters_or_flush_time stime s s' :
  tick cfg stime s = Some (tt, s') ->
  counters s' = ∅ \/ fzero (statsd_flush_time cfg) = false.
Proof.
  intros H. destruct (fzero (statsd_flush_time cfg)) eqn:Hz; [left|now right].
  pose proof (tick_spec _ _ _ H) as (_ & HC & _).
  apply tick_phases in H as (s4 & n5 & s5 & _ & C4 & _ & C5 & n6 & s6 & H6).
  rewrite HC, <- C4, <- C5.
  assert (E : counters s5 = ∅).
  { apply map_empty. intros k. destruct (counters s5 !! k) as [v|] eqn:Hk;
      [|reflexivity].
    now rewrite (enqueue_counters_raises stime k v s5 Hk Hz) in H6. }
  rewrite E. apply fmap_empty.
Qed.

Lemma reaped_after_tick {V W} flag (c : W) (m : gmap string V) s
  (m' : gmap string W) s' :
  m' = (fun _ => c) <$> reaped flag m s ->
  (forall k, k ∈ dom m' -> k ∈ dom (keys_seen s) -> k ∈ dom (keys_seen s')) ->
  reaped flag m' s' = m'.
Proof.
  intros Hm Hs. unfold reaped at 1. destruct flag; [|reflexivity].
  apply map_filter_id. intros k v Hk. simpl. apply Hs.
  - apply elem_of_dom. now exists v.
  - rewrite Hm, lookup_fmap in Hk. unfold reaped in Hk.
    destruct (filter _ m !! k) as [w|] eqn:Hw; [|discriminate].
    now apply map_lookup_filter_Some in Hw as [_ Hw].
Qed.

Lemma fmap_const_twice {V W} (c : W) (m : gmap string V) :
  (fun _ => c) <$> ((fun _ => c) <$> m) = (fun _ => c) <$> m.
Proof. now rewrite <- map_fmap_compose. Qed.

(** A second tick without a sample in between never raises and leaves
    the five dictionaries as the first tick left them: what the first
    tick kept is kept for good, until the handler is started again. *)
Theorem tick_twice_same_maps (stime stime' : Z) (s s' : handler) :
  tick cfg stime s = Some (tt, s') ->
  exists s'', tick cfg stime' s' = Some (tt, s'') /\ same_maps s'' s'.
Proof.
  intros H.
  pose proof (tick_counters_or_flush_time _ _ _ H) as Hc.
  pose proof (tick_spec _ _ _ H) as (HT & HC & HS & HG & HK & _).
  destruct (tick_idle_completes stime' s') as [s'' H'']; [| |].
  { intros k v. rewrite HT, lookup_fmap.
    destruct (reaped _ _ _ !! k); [now intros [= <-]|discriminate]. }
  { intros k v Hk. split.
    - rewrite HC, lookup_fmap in Hk.
      destruct (reaped _ _ _ !! k); [|discriminate].
      injection Hk as <-. apply float_fits_zero.
    - destruct Hc as [Hc|Hc]; [|exact Hc].
      now rewrite Hc, lookup_empty in Hk. }
  exists s''. split; [exact H''|].
  pose proof (tick_spec _ _ _ H'') as (HT' & HC' & HS' & HG' & HK' & _).
  assert (Hseen : forall k,
    k ∈ dom (timers s') ∪ dom (counters s') ∪ dom (gauges s') ∪ dom (sets s')
    -> k ∈ dom (keys_seen s) -> k ∈ dom (keys_seen s')).
  { intros k Hl Hk. apply elem_of_dom in Hk as [v Hv]. apply elem_of_dom.
    exists v. rewrite HK. now apply map_lookup_filter_Some. }
  rewrite (reaped_after_tick _ [] (timers s) s _ _ HT) in HT'
    by (intros k Hk; apply Hseen;
        apply elem_of_union_l, elem_of_union_l, elem_of_union_l, Hk).
  rewrite (reaped_after_tick _ 0 (counters s) s _ _ HC) in HC'
    by (intros k Hk; apply Hseen;
        apply elem_of_union_l, elem_of_union_l, elem_of_union_r, Hk).
  rewrite (reaped_after_tick _ ∅ (sets s) s _ _ HS) in HS'
    by (intros k Hk; apply Hseen; apply elem_of_union_r, Hk).
  rewrite HT in HT'. rewrite fmap_const_twice, <- HT in HT'.
  rewrite HC in HC'. rewrite fmap_const_twice, <- HC in HC'.
  rewrite HS in HS'. rewrite fmap_const_twice, <- HS in HS'.
  unfold same_maps. repeat split; try assumption.
  rewrite HK', HT', HC', HS', HG'.
  apply map_filter_id. intros k v Hv. simpl.
  rewrite HK in Hv. now apply map_lookup_filter_Some in Hv as [_ Hv].
Qed.

(** ** The tuples that a tick puts for the timers *)

(** A tick that completes has put, right behind what the queue held, one
    block of tuples per timer key that the idle reap has left, in the
    order of the dictionary: what holds of the tuples that
    [enqueue_timer] puts for a key holds of its block. *)
Lemma tick_timer_blocks (R : string * list float -> list point -> Prop)
  stime s s' :
  (forall k v s0 s1,
     keys_seen s0 = keys_seen s ->
     enqueue_timer cfg stime k v s0 = Some (tt, s1) ->
     exists block, s1 = with_queue (queue s0 ++ block) s0 /\ R (k, v) block) ->
  tick cfg stime s = Some (tt, s') ->
  exists blocks rest,
    queue s' = queue s ++ concat blocks ++ rest
    /\ Forall2 R (map_to_list (reaped (delete_timers cfg) (timers s) s))
         blocks.
Proof.
  intros HR H.
  apply tick_run in H
    as (s4 & n5 & s5 & n6 & s6 & n7 & s7 & n8 & s8
        & (T4 & C4 & S4 & G4 & K4 & Q4) & H5 & H6 & H7 & H8 & HQ).
  apply (enqueue_timers_blocks R) in H5 as (blocks & -> & HF).
  2:{ intros k v s0 s1 HP. apply HR. now rewrite HP. }
  apply enqueue_counters_steps in H6 as (ps6 & ->).
  apply emits_enqueue_gauges in H7 as (ps7 & -> & _).
  apply enqueue_sets_steps in H8 as (ps8 & ->).
  exists blocks, (ps6 ++ ps7 ++ ps8 ++ [num_stats_point cfg stime
                                          (n5 + n6 + n7 + n8)]).
  split; [|now rewrite <- T4].
  rewrite HQ. cbn [queue with_queue]. rewrite Q4.
  now rewrite <- !app_assoc.
Qed.

(** C10. For a timer key with an empty sample list, what [enqueue_timers]
    does for the key cannot raise and puts [count] with 0 and [count_ps]
    with 0.0, whatever the enable flags are. And a tick that completes has
    put, right behind what the queue held, one block of tuples per timer
    key that is there when the timers are reported (the keys that the
    idle reap has left), in the order of the dictionary: the block of a
    key with an empty sample list is these two tuples; the block of a key
    with samples has a tuple named [count] if and only if [timer_count]
    is set, and one named [count_ps] if and only if [timer_count_ps] is
    set. *)
Theorem timer_count_unconditional_when_empty (stime : Z) (s : handler) :
  (forall k,
     enqueue_timer cfg stime k [] s
     = Some (tt,
             with_queue
               (queue s
                ++ [timer_point cfg stime k s ".count" (SInt 0);
                    timer_point cfg stime k s ".count_ps"
                      (SFloat (float_of_Z 0))])
               s))
  /\ (forall s',
        tick cfg stime s = Some (tt, s') ->
        exists blocks rest,
          queue s' = queue s ++ concat blocks ++ rest
          /\ Forall2
               (fun kv block =>
                  let name suffix := name_timer cfg +:+ kv.1 +:+ suffix in
                  (kv.2 = [] ->
                   block
                   = [timer_point cfg stime kv.1 s ".count" (SInt 0);
                      timer_point cfg stime kv.1 s ".count_ps"
                        (SFloat (float_of_Z 0))])
                  /\ (kv.2 <> [] ->
                      ((exists p, In p block /\ p_name p = name ".count")
                       <-> statsd_timer_count cfg = true)
                      /\ ((exists p,
                             In p block /\ p_name p = name ".count_ps")
                          <-> statsd_timer_count_ps cfg = true)))
               (map_to_list (reaped (delete_timers cfg) (timers s) s))
               blocks).
Proof.
  split; [intros k; apply enqueue_timer_empty|]. intros s'.
  apply (tick_timer_blocks
           (fun kv block =>
              (kv.2 = [] ->
               block
               = [timer_point cfg stime kv.1 s ".count" (SInt 0);
                  timer_point cfg stime kv.1 s ".count_ps"
                    (SFloat (float_of_Z 0))])
              /\ (kv.2 <> [] ->
                  ((exists p,
                      In p block
                      /\ p_name p = name_timer cfg +:+ kv.1 +:+ ".count")
                   <-> statsd_timer_count cfg = true)
                  /\ ((exists p,
                         In p block
                         /\ p_name p = name_timer cfg +:+ kv.1 +:+ ".count_ps")
                      <-> statsd_timer_count_ps cfg = true)))).
  intros k v s0 s1 HP Hrun.
  pose proof (emits_enqueue_timer _ _ _ _ _ _ Hrun) as (block & -> & _).
  exists block. split; [reflexivity|]. simpl. split.
  - intros ->. rewrite enqueue_timer_empty in Hrun. injection Hrun as Hrun.
    apply app_inv_head in Hrun. subst block. unfold timer_point.
    now rewrite (metadata_of_keys_seen (Some k) s0 s HP).
  - intros Hv.
    destruct (enqueue_timer_count_gated stime k v s0 _ Hv Hrun)
      as (ps & E & H1 & H2).
    apply with_queue_inj in E. subst ps. split; assumption.
Qed.

(** ** A tick between [handle_key] and the sample handler *)



End Properties.

(** * The properties on concrete inputs *)

Section Concrete.

Import QFloat.

Example sanitize_path : sanitize "a b/c  d!e.f" = "a_b-c_de.f".
Proof. reflexivity. Qed.

Example split_colons : PyStr.split ":" "m:1|c:2|ms" = ["m"; "1|c"; "2|ms"].
Proof. reflexivity. Qed.

Example split_hash_absent : PyStr.split "#" "latency" = ["latency"].
Proof. reflexivity. Qed.

Example splitlines_mixed :
  PyStr.splitlines ("a:1|c" +:+ String "010" ("" +:+ String "013" (String "010" "b:2|c")))
  = ["a:1|c"; ""; "b:2|c"].
Proof. reflexivity. Qed.

Example strip_both : PyStr.strip "  a b  " = "a b".
Proof. reflexivity. Qed.

Example index_negative : PyStr.index [10; 20; 30] (-1) = Some 30.
Proof. reflexivity. Qed.

Example str_of_Z_95 : PyStr.str_of_Z 95 = "95" /\ PyStr.str_of_Z 0 = "0" /\ PyStr.str_of_Z (-3) = "-3".
Proof. repeat split; reflexivity. Qed.

(** Scenario 2 of the gauges: absolute, delta, delta, absolute. *)
Example gauge_scenario :
  let s1 := handle cfg0 "temp:10|g" init in
  let s2 := handle cfg0 "temp:+5|g" s1 in
  let s3 := handle cfg0 "temp:-20|g" s2 in
  let s4 := handle cfg0 "temp:100|g" s3 in
  gauges s1 !! "temp" = Some (10 # 1) /\ gauges s2 !! "temp" = Some (15 # 1)
  /\ gauges s3 !! "temp" = Some (-5 # 1) /\ gauges s4 !! "temp" = Some (100 # 1).
Proof. vm_compute. repeat split; reflexivity. Qed.

(** Scenario 5: one counter increment, one timer sample, one gauge. *)
Example multi_sample_datagram :
  let s := handle cfg0 "m:1|c:2|ms:3|g" init in
  counters s !! "m" = Some 1 /\ timers s !! "m" = Some [2 # 1]
  /\ gauges s !! "m" = Some (3 # 1).
Proof. vm_compute. repeat split; reflexivity. Qed.

(** Scenario 3 of the timers, for the threshold 90 of ten samples. *)
Example timer_scenario_names :
  map (fun p => (p_name p, p_stat p))
    (queue (result (enqueue_timer cfg0 1000 "t" ten_samples init)))
  = [("stats.timers.t.mean_90", SFloat (5 # 1));
     ("stats.timers.t.upper_90", SFloat (9 # 1));
     ("stats.timers.t.count_90", SInt 9);
     ("stats.timers.t.sum_90", SFloat (45 # 1));
     ("stats.timers.t.sum_squares_90", SFloat (285 # 1));
     ("stats.timers.t.mean", SFloat (11 # 2));
     ("stats.timers.t.upper", SFloat (10 # 1));
     ("stats.timers.t.lower", SFloat (1 # 1));
     ("stats.timers.t.count", SInt 10);
     ("stats.timers.t.count_ps", SFloat (1 # 1));
     ("stats.timers.t.median", SFloat (11 # 2));
     ("stats.timers.t.sum", SFloat (55 # 1));
     ("stats.timers.t.sum_squares", SFloat (385 # 1));
     ("stats.timers.t.std", SFloat (2872281 # 1000000))].
Proof. vm_compute. reflexivity. Qed.

(** C1, as the claim has it, fails: the line with the tags between the
    key and the sample is a bad line; no timer sample is appended, and
    the tag [ver] gets the rest of the line as its value. *)
Lemma tags_before_sample_is_bad_line :
  let s := handle cfg0 "latency#region=us,ver=1:23|ms" init in
  timers s !! "latency" = None
  /\ map_to_list <$> default None (keys_seen s !! "latency")
     = Some [("ver", Some "1:23|ms"); ("region", Some "us")]
  /\ log s = ["StatsD: Invalid line: 'latency#region=us,ver=1:23|ms'"].
Proof. vm_compute. repeat split; reflexivity. Qed.

(** The line with the tags behind the sample gives the timer sample 23.0
    and the metadata of the claim. *)
Lemma handle_line_strips_trailing_tags_witness :
  PyStr.contains "#" "latency:23|ms|" = false
  /\ let s1 := handle_line cfg0 "latency:23|ms|#region=us,ver=1" init in
     timers s1 !! "latency" = Some [23 # 1]
     /\ map_to_list <$> default None (keys_seen s1 !! "latency")
        = Some [("ver", Some "1"); ("region", Some "us")].
Proof.
  split; [reflexivity|].
  destruct (handle_line_strips_trailing_tags cfg0 "latency:23|ms|"
              "region=us,ver=1" init eq_refl)
    as (_ & HT & _ & _ & _ & _ & _ & HK).
  split.
  - etransitivity; [exact (f_equal (fun m => m !! "latency") HT)|].
    vm_compute. reflexivity.
  - etransitivity;
      [exact (f_equal
                (fun m => map_to_list <$> default None (m !! "latency")) HK)|].
    vm_compute. reflexivity.
Defined.



Lemma tick_resets_witness :
  tick cfg0 1000 one_of_each = Some (tt, one_of_each_ticked)
  /\ counters one_of_each_ticked !! "c" = Some 0
  /\ timers one_of_each_ticked !! "t" = Some []
  /\ sets one_of_each_ticked !! "u" = Some ∅
  /\ gauges one_of_each_ticked = gauges one_of_each.
Proof.
  assert (H : tick cfg0 1000 one_of_each = Some (tt, one_of_each_ticked))
    by (vm_compute; reflexivity).
  split; [exact H|].
  destruct (tick_resets_counters_timers_sets cfg0 1000 one_of_each
              one_of_each_ticked H) as (HC & HT & HS & HG).
  split; [vm_compute; reflexivity|]. split; [vm_compute; reflexivity|].
  split; [vm_compute; reflexivity|exact HG].
Defined.

(** C4, as the claim has it, fails for a threshold above 100: with the
    threshold 200 and two samples the index is 4, there is no element 3
    of the sorted samples, and the flush raises instead of putting
    [upper_200]. *)
Lemma threshold_above_100_raises :
  let s := handle cfg_wide "t:1|ms:2|ms" init in
  timers s !! "t" = Some [1 # 1; 2 # 1]
  /\ statsd_percentile_thresholds cfg_wide = [200 # 1]
  /\ thresh_index (200 # 1) (Z.of_nat (length [1 # 1; 2 # 1])) = Some 4
  /\ nth_error (fsort [1 # 1; 2 # 1]) 3 = None
  /\ enqueue_timers cfg_wide 1000 s = None
  /\ tick cfg_wide 1000 s = None.
Proof. vm_compute. repeat split; reflexivity. Qed.

Lemma timer_threshold_statistics_witness :
  enqueue_timers cfg0 1000 timed = Some (1, timed_enqueued)
  /\ timers timed !! "t" = Some ten_samples
  /\ exists blocks,
       queue timed_enqueued = queue timed ++ concat blocks
       /\ length blocks = length (map_to_list (timers timed)).
Proof.
  assert (H : enqueue_timers cfg0 1000 timed = Some (1, timed_enqueued))
    by (vm_compute; reflexivity).
  split; [exact H|]. split; [vm_compute; reflexivity|].
  destruct (timer_threshold_statistics cfg0 1000 timed 1 timed_enqueued H)
    as (blocks & HQ & HF).
  exists blocks. split; [exact HQ|].
  symmetry. exact (Forall2_length _ _ _ HF).
Defined.

(** A signed first sample is stored as it is; a signed second one is
    added. *)
Lemma handle_gauge_delta_or_absolute_witness :
  let s1 := handle_gauge "temp" ["+5"; "g"] init in
  float_of_string (str_or_0 (field ["+5"; "g"] 0)) = Some (5 # 1)
  /\ gauges init !! "temp" = None
  /\ gauges s1 !! "temp" = Some (5 # 1)
  /\ gauges (handle_gauge "temp" ["+5"; "g"] s1) !! "temp" = Some (10 # 1).
Proof.
  intros s1.
  assert (H : float_of_string (str_or_0 (field ["+5"; "g"] 0)) = Some (5 # 1))
    by reflexivity.
  split; [exact H|]. split; [reflexivity|].
  destruct (handle_gauge_delta_or_absolute (F := Q_float) "temp" ["+5"; "g"]
              init (5 # 1) H)
    as (_ & _ & H3).
  destruct (handle_gauge_delta_or_absolute (F := Q_float) "temp" ["+5"; "g"]
              s1 (5 # 1) H)
    as (H1 & _ & _).
  split; [exact (H3 eq_refl eq_refl)|].
  rewrite (H1 (5 # 1) eq_refl (H3 eq_refl eq_refl)).
  apply lookup_insert_eq.
Defined.



(** C9 fails on the code: a datagram with a counter sample writes
    [keys_seen] while the lock is free, and only then takes the lock for
    the two writes to the counters. *)
Theorem handle_key_writes_without_lock :
  mutations (handle cfg0 "foo:1|c" init)
  = [Mutation KeysSeen (Some "foo") false;
     Mutation Counters (Some "foo") true;
     Mutation Counters (Some "foo") true].
Proof. vm_compute. reflexivity. Qed.

Lemma timer_count_unconditional_when_empty_witness :
  tick cfg_persistent 1010 two_timers = Some (tt, two_timers_ticked)
  /\ timers two_timers !! "a" = Some []
  /\ timers two_timers !! "b" = Some [2 # 1]
  /\ statsd_timer_count cfg_persistent = false
  /\ exists blocks rest,
       queue two_timers_ticked = queue two_timers ++ concat blocks ++ rest
       /\ length blocks = 2%nat.
Proof.
  assert (H : tick cfg_persistent 1010 two_timers
              = Some (tt, two_timers_ticked)) by (vm_compute; reflexivity).
  split; [exact H|]. split; [vm_compute; reflexivity|].
  split; [vm_compute; reflexivity|]. split; [reflexivity|].
  destruct (proj2 (timer_count_unconditional_when_empty cfg_persistent 1010
                     two_timers) two_timers_ticked H)
    as (blocks & rest & HQ & HF).
  exists blocks, rest. split; [exact HQ|].
  rewrite <- (Forall2_length _ _ _ HF). vm_compute. reflexivity.
Defined.

(** ** The further properties at concrete inputs *)

Lemma sanitize_key_chars_unchanged_witness :
  PyStr.all key_char "api.requests-2xx_total" = true
  /\ sanitize "api.requests-2xx_total" = "api.requests-2xx_total".
Proof.
  split; [reflexivity|].
  exact (sanitize_key_chars_unchanged "api.requests-2xx_total" eq_refl).
Defined.

Lemma handle_line_without_samples_witness :
  PyStr.contains "#" "foo" = false /\ PyStr.contains ":" "foo" = false
  /\ counters (handle_line cfg0 "foo" (set_line "foo" init)) = ∅
  /\ log (handle_line cfg0 "foo" (set_line "foo" init))
     = ["StatsD: Invalid line: 'foo'"].
Proof.
  split; [reflexivity|]. split; [reflexivity|].
  pose proof (handle_line_without_samples cfg0 "foo" (set_line "foo" init)
                eq_refl eq_refl) as H.
  cbv zeta in H. destruct H as (_ & _ & HC & _ & _ & HL).
  split; [exact HC|exact HL].
Defined.

Lemma handle_counter_zero_rate_witness :
  fzero (counter_rate ["5"; "c"; "@0"]) = true
  /\ handle_counter "hits" ["5"; "c"; "@0"] init = bad_line init.
Proof.
  split; [reflexivity|].
  exact (handle_counter_zero_rate (F := Q_float) "hits" ["5"; "c"; "@0"] init
           eq_refl).
Defined.

Lemma live_keys_stay_seen_witness :
  live counted ⊆ dom (keys_seen counted)
  /\ live (handle cfg_persistent "t:3|ms" counted)
     ⊆ dom (keys_seen (handle cfg_persistent "t:3|ms" counted)).
Proof.
  assert (H0 : live init ⊆ dom (keys_seen init))
    by (unfold live; simpl; set_solver).
  assert (H1 : live (handle cfg_persistent "c:5|c" init)
               ⊆ dom (keys_seen (handle cfg_persistent "c:5|c" init)))
    by exact (proj1 (live_keys_stay_seen cfg_persistent init H0) "c:5|c").
  assert (H : live counted ⊆ dom (keys_seen counted))
    by exact (proj1 (live_keys_stay_seen cfg_persistent _ H1) "g:7|g").
  split; [exact H|].
  exact (proj1 (live_keys_stay_seen cfg_persistent counted H) "t:3|ms").
Defined.

Lemma tick_keys_seen_are_live_witness :
  tick cfg_persistent 1000 counted = Some (tt, counted_ticked)
  /\ dom (keys_seen counted_ticked)
     = dom (keys_seen counted) ∩ live counted_ticked.
Proof.
  assert (H : tick cfg_persistent 1000 counted = Some (tt, counted_ticked))
    by (vm_compute; reflexivity).
  split; [exact H|].
  exact (tick_keys_seen_are_live cfg_persistent 1000 counted counted_ticked
           H).
Defined.

Lemma handle_lines_one_by_one_witness :
  no_line_end "a:1|c" = true /\ "a:1|c" <> EmptyString
  /\ handle cfg0 ("a:1|c" +:+ String "010" "b:2|ms") init
     = handle cfg0 "b:2|ms" (handle cfg0 "a:1|c" init).
Proof.
  assert (H : "a:1|c" <> EmptyString) by discriminate.
  split; [reflexivity|]. split; [exact H|].
  exact (handle_lines_one_by_one cfg0 "a:1|c" "b:2|ms" init eq_refl H).
Defined.

Lemma handle_samples_packed_or_apart_witness :
  PyStr.contains "#" "m" = false /\ PyStr.contains ":" "m" = false
  /\ PyStr.contains "#" "1|c" = false /\ PyStr.contains "#" "2|ms" = false
  /\ same_maps (handle_line cfg0 "m:1|c:2|ms" init)
       (handle_line cfg0 "m:2|ms" (handle_line cfg0 "m:1|c" init)).
Proof.
  do 4 (split; [reflexivity|]).
  exact (handle_samples_packed_or_apart cfg0 "m" "1|c" "2|ms" init eq_refl
           eq_refl eq_refl eq_refl).
Defined.

Lemma parse_tags_last_wins_witness :
  PyStr.contains "," "a=3" = false
  /\ parse_tags "a=1,b=2,a=3" !! "a" = Some (Some "3").
Proof.
  split; [reflexivity|].
  etransitivity;
    [exact (f_equal (fun m => m !! "a")
              (parse_tags_last_wins "a=1,b=2" "a=3" eq_refl))|].
  apply lookup_insert_eq.
Defined.

Lemma save_load_save_witness :
  let saved_files := (save_gauges cfg_persistent counted no_file).2 in
  statsd_persistent_gauges cfg_persistent = true
  /\ io_error no_file = false
  /\ (save_gauges cfg_persistent
        (load_gauges cfg_persistent saved_files init) saved_files).2
     = saved_files.
Proof.
  intros saved_files. split; [reflexivity|]. split; [reflexivity|].
  exact (save_load_save cfg_persistent counted no_file eq_refl eq_refl).
Defined.

Lemma tick_raises_on_threshold_out_of_range_witness :
  let s := handle cfg_wide "t:3|ms" init in
  timers s !! "t" = Some [3 # 1]
  /\ "t" ∈ dom (keys_seen s)
  /\ (200 # 1) ∈ statsd_percentile_thresholds cfg_wide
  /\ thresh_index (200 # 1) (Z.of_nat (length [3 # 1])) = Some 2
  /\ tick cfg_wide 1000 s = None.
Proof.
  intros s.
  assert (H1 : timers s !! "t" = Some [3 # 1]) by (vm_compute; reflexivity).
  assert (H2 : [3 # 1] <> ([] : list Q)) by discriminate.
  assert (H3 : "t" ∈ dom (keys_seen s))
    by (apply elem_of_dom; vm_compute; eexists; reflexivity).
  assert (H4 : (200 # 1) ∈ statsd_percentile_thresholds cfg_wide)
    by (apply list_elem_of_singleton; reflexivity).
  assert (H5 : thresh_index (200 # 1) (Z.of_nat (length [3 # 1])) = Some 2)
    by reflexivity.
  assert (H6 : Z.of_nat (length [3 # 1]) < 2) by reflexivity.
  split; [exact H1|]. split; [exact H3|]. split; [exact H4|].
  split; [exact H5|].
  exact (tick_raises_on_threshold_out_of_range cfg_wide 1000 s "t" [3 # 1]
           (200 # 1) 2 H1 H2 H3 H4 H5 H6).
Defined.

Lemma tick_raises_on_zero_flush_time_witness :
  let s := handle cfg_zero "c:5|c" init in
  fzero (statsd_flush_time cfg_zero) = true
  /\ counters s !! "c" = Some 5
  /\ "c" ∈ dom (keys_seen s)
  /\ tick cfg_zero 1000 s = None.
Proof.
  intros s.
  assert (H1 : counters s !! "c" = Some 5) by (vm_compute; reflexivity).
  assert (H2 : "c" ∈ dom (keys_seen s))
    by (apply elem_of_dom; vm_compute; eexists; reflexivity).
  split; [reflexivity|]. split; [exact H1|]. split; [exact H2|].
  exact (tick_raises_on_zero_flush_time cfg_zero 1000 s "c" 5 eq_refl H1 H2).
Defined.

Lemma tick_writes_with_lock_witness :
  tick cfg_persistent 1000 counted = Some (tt, counted_ticked)
  /\ lock counted_ticked = false
  /\ exists ms,
       mutations counted_ticked = mutations counted ++ ms
       /\ Forall locked_write ms.
Proof.
  assert (H : tick cfg_persistent 1000 counted = Some (tt, counted_ticked))
    by (vm_compute; reflexivity).
  split; [exact H|].
  exact (tick_writes_with_lock cfg_persistent 1000 counted counted_ticked H).
Defined.

Lemma enqueue_counters_reports_witness :
  fzero (statsd_flush_time cfg0) = false
  /\ counters one_of_each = {["c" := 5]}
  /\ float_fits 5 = true
  /\ exists s',
       enqueue_counters cfg0 1000 one_of_each
       = Some (Z.of_nat (size (counters one_of_each)), s')
       /\ queue s'
          = queue one_of_each
            ++ flat_map (counter_points cfg0 1000 one_of_each)
                 (map_to_list (counters one_of_each))
       /\ counters s' = (fun _ => 0) <$> counters one_of_each.
Proof.
  assert (E : counters one_of_each = {["c" := 5]})
    by (vm_compute; reflexivity).
  split; [reflexivity|]. split; [exact E|]. split; [reflexivity|].
  apply (enqueue_counters_reports cfg0 1000 one_of_each eq_refl).
  intros k v. rewrite E. intros Hk.
  apply lookup_singleton_Some in Hk as [_ <-]. reflexivity.
Defined.

Lemma tick_num_stats_witness :
  tick cfg0 1000 one_of_each = Some (tt, one_of_each_ticked)
  /\ last (queue one_of_each_ticked)
     = Some (num_stats_point cfg0 1000 4).
Proof.
  assert (H : tick cfg0 1000 one_of_each = Some (tt, one_of_each_ticked))
    by (vm_compute; reflexivity).
  split; [exact H|].
  etransitivity;
    [exact (tick_num_stats cfg0 1000 one_of_each one_of_each_ticked H)|].
  vm_compute. reflexivity.
Defined.

Lemma tick_reports_seen_gauges_witness :
  tick cfg_persistent 1010 counted_ticked = Some (tt, counted_ticked_twice)
  /\ gauges counted_ticked !! "g" = Some (7 # 1)
  /\ gauge_reported cfg_persistent counted_ticked "g" = true
  /\ Point (name_gauge cfg_persistent +:+ "g") (SFloat (7 # 1)) 1010
       (truthy (metadata_of cfg_persistent (Some "g") counted_ticked))
     ∈ queue counted_ticked_twice.
Proof.
  assert (H : tick cfg_persistent 1010 counted_ticked
              = Some (tt, counted_ticked_twice)) by (vm_compute; reflexivity).
  assert (Hg : gauges counted_ticked !! "g" = Some (7 # 1))
    by (vm_compute; reflexivity).
  assert (Hr : gauge_reported cfg_persistent counted_ticked "g" = true)
    by (vm_compute; reflexivity).
  split; [exact H|]. split; [exact Hg|]. split; [exact Hr|].
  exact (tick_reports_seen_gauges cfg_persistent 1010 counted_ticked
           counted_ticked_twice "g" (7 # 1) H Hg Hr).
Defined.

Lemma tick_idle_reap_deletes_nothing_witness :
  statsd_delete_idlestats cfg_persistent = true
  /\ live counted ⊆ dom (keys_seen counted)
  /\ tick cfg_persistent 1000 counted = Some (tt, counted_ticked)
  /\ counters counted_ticked = (fun _ => 0) <$> counters counted
  /\ counters counted_ticked !! "c" = Some 0.
Proof.
  assert (H0 : live init ⊆ dom (keys_seen init))
    by (unfold live; simpl; set_solver).
  assert (Hl : live counted ⊆ dom (keys_seen counted)).
  { apply (handle_live cfg_persistent "g:7|g").
    now apply (handle_live cfg_persistent "c:5|c"). }
  assert (H : tick cfg_persistent 1000 counted = Some (tt, counted_ticked))
    by (vm_compute; reflexivity).
  split; [reflexivity|]. split; [exact Hl|]. split; [exact H|].
  destruct (tick_idle_reap_deletes_nothing cfg_persistent 1000 counted
              counted_ticked Hl H) as (_ & HC & _).
  split; [exact HC|]. vm_compute. reflexivity.
Defined.

Lemma tick_twice_same_maps_witness :
  tick cfg0 1000 one_of_each = Some (tt, one_of_each_ticked)
  /\ exists s'',
       tick cfg0 1010 one_of_each_ticked = Some (tt, s'')
       /\ same_maps s'' one_of_each_ticked.
Proof.
  assert (H : tick cfg0 1000 one_of_each = Some (tt, one_of_each_ticked))
    by (vm_compute; reflexivity).
  split; [exact H|].
  exact (tick_twice_same_maps cfg0 1000 1010 one_of_each one_of_each_ticked
           H).
Defined.


End Concrete.
